(** * Perfume Tracker: derived attributes, filter/sort queries and the
      reference tables

    A shallow embedding of the engine functions of [perfume_tracker.py]
    (vote scores and summaries, [derive_state], [_matches_filter],
    [_sort_perfumes], and the reference-table manager's [_count_usage],
    [_merge_selected] and [_delete_selected]) together with the properties
    the specification states about them.

    Modelling conventions.
    - Python [int] is [Z]; a [Dict[str, int]] of vote counts is a
      [gmap string Z]; the insertion-ordered id -> value tables are
      association lists (order is part of the data model).
    - Python [float] values are rationals.  Every operation that rounds in
      Python (true division, float addition and multiplication, a float
      literal) goes through [fl], the rounding function of the float format,
      which is a parameter ([PyFloat]).  Properties are proved for every
      rounding function that is monotone and exact on small dyadic numbers
      ([PyFloatLaws]); IEEE binary64 rounding is one such, the identity
      ([exact_float]) is another.
    - Python [str] is [string]; [lower] and [strip] act on ASCII.
    - A raised exception ([IndexError], [KeyError], [ValueError]) is [None]
      (or a dedicated constructor of the result type).
    - Tk dialogs are inputs of the function that opens them: the listbox
      selection is the list of selected ids, [askstring] is an
      [option string], [askyesno] is a [bool]; message boxes are
      constructors of the result type. *)

From Stdlib Require Import QArith Qabs ZArith Lia Lqa.
From Stdlib Require Import Ascii DecimalString.
From stdpp Require Import base option list strings gmap sorting.

Local Open Scope Z_scope.

(** ** Strings *)

Module PyStr.

Definition lower_ascii (c : ascii) : ascii :=
  let n := nat_of_ascii c in
  if ((65 <=? n) && (n <=? 90))%nat then ascii_of_nat (n + 32) else c.

(** [s.lower()] *)
Fixpoint lower (s : string) : string :=
  match s with
  | EmptyString => EmptyString
  | String c r => String (lower_ascii c) (lower r)
  end.

(** Whitespace removed by [str.strip()]: space, \t, \n, \v, \f, \r
    and the separators \x1c .. \x1f. *)
Definition is_space (c : ascii) : bool :=
  let n := nat_of_ascii c in
  ((n =? 32) || ((9 <=? n) && (n <=? 13)) || ((28 <=? n) && (n <=? 31)))%nat.

Fixpoint lstrip (s : string) : string :=
  match s with
  | EmptyString => EmptyString
  | String c r => if is_space c then lstrip r else s
  end.

Fixpoint rstrip (s : string) : string :=
  match s with
  | EmptyString => EmptyString
  | String c r =>
      match rstrip r with
      | EmptyString => if is_space c then EmptyString else String c EmptyString
      | r' => String c r'
      end
  end.

(** [s.strip()] *)
Definition strip (s : string) : string := rstrip (lstrip s).

Fixpoint startswith (pre s : string) : bool :=
  match pre, s with
  | EmptyString, _ => true
  | String a pre', String b s' => Ascii.eqb a b && startswith pre' s'
  | String _ _, EmptyString => false
  end.

(** [sub in s] *)
Fixpoint contains (sub s : string) : bool :=
  startswith sub s ||
  match s with
  | EmptyString => false
  | String _ r => contains sub r
  end.

(** [sep.join(parts)] *)
Fixpoint join (sep : string) (parts : list string) : string :=
  match parts with
  | [] => ""
  | [x] => x
  | x :: rest => x +:+ sep +:+ join sep rest
  end.

(** [s.split(",")[0]]: the part of [s] before its first comma. *)
Fixpoint before_comma (s : string) : string :=
  match s with
  | EmptyString => EmptyString
  | String c r => if Ascii.eqb c ","%char then EmptyString else String c (before_comma r)
  end.

(** [s.replace("_", " ")] *)
Fixpoint replace_underscore (s : string) : string :=
  match s with
  | EmptyString => EmptyString
  | String c r =>
      String (if Ascii.eqb c "_"%char then " "%char else c) (replace_underscore r)
  end.

(** [x in xs] for a list of strings *)
Definition mem (x : string) (xs : list string) : bool :=
  existsb (String.eqb x) xs.

(** [str(n)] for an integer *)
Definition of_Z (n : Z) : string := NilZero.string_of_int (Z.to_int n).

End PyStr.

(** ** Floats *)

(** The float operations the program uses.  [fl] rounds an exact result to
    the float format; [fmt_g] and [fmt_2f] are [format(x, "g")] and
    [format(x, ".2f")]. *)
Class PyFloat := {
  fl : Q -> Q;
  fmt_g : Q -> string;
  fmt_2f : Q -> string;
}.

(** What the proofs need of the rounding function: it is monotone, and
    every dyadic number [n / 2^k] with a mantissa of at most 53 bits and
    [k <= 64] is a float, so rounding does not move it. *)
Class PyFloatLaws (F : PyFloat) : Prop := {
  fl_mono : forall x y : Q, (x <= y)%Q -> (fl x <= fl y)%Q;
  fl_dyadic : forall (n : Z) (k : positive),
      Z.abs n <= 2 ^ 53 -> (k <= 64)%positive ->
      (fl (n # 2 ^ k) == n # 2 ^ k)%Q;
  fl_int : forall n : Z, Z.abs n <= 2 ^ 53 -> (fl (inject_Z n) == inject_Z n)%Q;
}.

(** Decimal rendering of exact rationals, for the instance without
    rounding. *)
Module Fmt.

(** Nearest integer, ties to the even one. *)
Definition round_half_even (q : Q) : Z :=
  let n := Qnum q in
  let d := Z.pos (Qden q) in
  let f := n / d in
  let r := n mod d in
  if 2 * r <? d then f
  else if d <? 2 * r then f + 1
  else if Z.even f then f else f + 1.

Fixpoint zeros (n : nat) : string :=
  match n with O => "" | S n' => String "0"%char (zeros n') end.

Definition pad_left (width : nat) (s : string) : string :=
  zeros (width - String.length s) +:+ s.

Definition sign_of (q : Q) : string :=
  if Qle_bool 0 q then "" else "-".

(** [format(q, ".<decimals>f")] *)
Definition fixed (decimals : nat) (q : Q) : string :=
  let scale := 10 ^ Z.of_nat decimals in
  let m := round_half_even (Qabs q * inject_Z scale) in
  sign_of q +:+ PyStr.of_Z (m / scale) +:+
  match decimals with
  | O => ""
  | _ => "." +:+ pad_left decimals (PyStr.of_Z (m mod scale))
  end.

(** Drop the trailing zeros of a rendering, then a trailing point. *)
Fixpoint drop_zeros (s : string) : string :=
  match s with
  | EmptyString => EmptyString
  | String c r =>
      match drop_zeros r with
      | EmptyString => if Ascii.eqb c "0"%char then EmptyString else String c EmptyString
      | r' => String c r'
      end
  end.

Fixpoint drop_point (s : string) : string :=
  match s with
  | EmptyString => EmptyString
  | String c EmptyString => if Ascii.eqb c "."%char then EmptyString else s
  | String c r => String c (drop_point r)
  end.

Definition trim (s : string) : string :=
  if PyStr.contains "." s then drop_point (drop_zeros s) else s.

(** The decimal exponent of a positive rational: [10^X <= a < 10^(X+1)]. *)
Definition exponent10 (a : Q) : Z :=
  let x0 := Z.of_nat (String.length (PyStr.of_Z (Qnum a)))
            - Z.of_nat (String.length (PyStr.of_Z (Z.pos (Qden a)))) in
  if Qle_bool ((10 # 1) ^ x0) a then x0 else x0 - 1.

(** [format(q, "g")]: six significant digits, fixed notation for a decimal
    exponent in [-4, 6), scientific otherwise, trailing zeros removed. *)
Definition general (q : Q) : string :=
  if Qeq_bool q 0 then "0" else
  let a := Qabs q in
  let x := exponent10 a in
  let m := round_half_even (a * (10 # 1) ^ (5 - x)) in
  let '(m, x) := if m =? 10 ^ 6 then (10 ^ 5, x + 1) else (m, x) in
  if (-4 <=? x) && (x <? 6) then trim (fixed (Z.to_nat (5 - x)) q)
  else
    sign_of q
    +:+ trim (PyStr.of_Z (m / 10 ^ 5) +:+ "." +:+ pad_left 5 (PyStr.of_Z (m mod 10 ^ 5)))
    +:+ "e" +:+ (if 0 <=? x then "+" else "-")
    +:+ pad_left 2 (PyStr.of_Z (Z.abs x)).

End Fmt.

(** Floats without rounding: exact rational arithmetic. *)
Definition exact_float : PyFloat :=
  {| fl := fun q => q; fmt_g := Fmt.general; fmt_2f := Fmt.fixed 2 |}.

(** ** Vote tallies, scores and summaries *)

Definition RATING_5 : list string := ["love"; "like"; "ok"; "dislike"; "hate"].
Definition SEASON_TIME_6 : list string :=
  ["spring"; "summer"; "fall"; "winter"; "day"; "night"].
Definition LONGEVITY_5 : list string := ["eternal"; "long"; "moderate"; "weak"; "poor"].
Definition SILLAGE_4 : list string := ["enormous"; "strong"; "moderate"; "intimate"].
Definition GENDER_5 : list string :=
  ["male"; "more_male"; "unisex"; "more_female"; "female"].
Definition VALUE_5 : list string :=
  ["excellent"; "good"; "fair"; "expensive"; "overpriced"].

(** The "no data" marker of the summaries. *)
Definition NO_DATA : string := "—".

(** [key.replace("_", " ")] *)
Definition display_label (key : string) : string := PyStr.replace_underscore key.

(** [int(votes.get(k, 0) or 0)] *)
Definition vote_count (votes : gmap string Z) (k : string) : Z :=
  default 0 (votes !! k).

(** [sum(int(votes.get(k, 0) or 0) for k in keys)] *)
Fixpoint total_votes (votes : gmap string Z) (keys : list string) : Z :=
  match keys with
  | [] => 0
  | k :: rest => vote_count votes k + total_votes votes rest
  end.

(** [{keys[0]: 5, keys[1]: 4, keys[2]: 3, keys[3]: 2, keys[4]: 1}]: a later
    entry of the display replaces an earlier one with the same key, and a
    missing [keys[i]] raises. *)
Definition rating_weights (keys : list string) : option (gmap string Z) :=
  k0 ← keys !! 0%nat; k1 ← keys !! 1%nat; k2 ← keys !! 2%nat;
  k3 ← keys !! 3%nat; k4 ← keys !! 4%nat;
  Some (<[k4 := 1]> (<[k3 := 2]> (<[k2 := 3]> (<[k1 := 4]> (<[k0 := 5]> ∅))))).

(** [{keys[i]: i+1 for i in range(len(keys))}], built left to right from
    index [i]. *)
Fixpoint weights_from (i : Z) (keys : list string) (acc : gmap string Z)
  : gmap string Z :=
  match keys with
  | [] => acc
  | k :: rest => weights_from (i + 1) rest (<[k := i + 1]> acc)
  end.

Definition position_weights (keys : list string) : gmap string Z :=
  weights_from 0 keys ∅.

(** [sum(int(votes.get(k, 0) or 0) * weights[k] for k in keys)] *)
Fixpoint weighted_sum (votes weights : gmap string Z) (keys : list string)
  : option Z :=
  match keys with
  | [] => Some 0
  | k :: rest =>
      w ← weights !! k;
      s ← weighted_sum votes weights rest;
      Some (vote_count votes k * w + s)
  end.

(** [max(int(votes.get(k, 0) or 0) for k in keys)]; raises on no key. *)
Fixpoint max_votes (votes : gmap string Z) (keys : list string) : option Z :=
  match keys with
  | [] => None
  | k :: rest =>
      match max_votes votes rest with
      | None => Some (vote_count votes k)
      | Some m => Some (Z.max (vote_count votes k) m)
      end
  end.

Section Scores.
Context {F : PyFloat}.

(** [weighted_sum / total] on two integers. Python raises [OverflowError]
    when the quotient is beyond the float range; the quotient of the sums of
    counts that are 0 or more lies between the smallest and the largest
    weight, and the theorems that state that a score or a summary is
    returned assume such counts. *)
Definition true_div (a b : Z) : Q := fl (inject_Z a / inject_Z b)%Q.

Definition calculate_rating_score (votes : gmap string Z) (keys : list string)
  : option Q :=
  let total := total_votes votes keys in
  if total =? 0 then Some 0%Q
  else
    weights ← rating_weights keys;
    weighted ← weighted_sum votes weights keys;
    Some (true_div weighted total).

(** The body shared, word for word, by [calculate_longevity_score],
    [calculate_sillage_score], [calculate_gender_score] and
    [calculate_value_score]. *)
Definition position_score (votes : gmap string Z) (keys : list string)
  : option Q :=
  let total := total_votes votes keys in
  if total =? 0 then Some 0%Q
  else
    let weights := position_weights keys in
    weighted ← weighted_sum votes weights keys;
    Some (true_div weighted total).

Definition calculate_longevity_score := position_score.
Definition calculate_sillage_score := position_score.
Definition calculate_gender_score := position_score.
Definition calculate_value_score := position_score.

Definition calculate_rating_summary (votes : gmap string Z) (keys : list string)
  : option string :=
  let total := total_votes votes keys in
  if total =? 0 then Some NO_DATA
  else
    weights ← rating_weights keys;
    weighted ← weighted_sum votes weights keys;
    Some (fmt_2f (true_div weighted total)).

(** [calculate_longevity_summary] and [calculate_sillage_summary] *)
Definition numeric_summary (votes : gmap string Z) (keys : list string)
  : option string :=
  let total := total_votes votes keys in
  if total =? 0 then Some NO_DATA
  else
    let weights := position_weights keys in
    weighted ← weighted_sum votes weights keys;
    Some (fmt_2f (true_div weighted total)).

Definition calculate_longevity_summary := numeric_summary.
Definition calculate_sillage_summary := numeric_summary.

(** [round(x)] of a float: nearest integer, ties to even *)
Definition py_round (x : Q) : Z := Fmt.round_half_even x.

(** [calculate_gender_summary] and [calculate_value_summary] *)
Definition nearest_summary (votes : gmap string Z) (keys : list string)
  : option string :=
  let total := total_votes votes keys in
  if total =? 0 then Some NO_DATA
  else
    let weights := position_weights keys in
    weighted ← weighted_sum votes weights keys;
    let score := true_div weighted total in
    let index := py_round (fl (score - 1)%Q) in
    let index := Z.max 0 (Z.min (Z.of_nat (length keys) - 1) index) in
    key ← keys !! Z.to_nat index;
    Some (display_label key).

Definition calculate_gender_summary := nearest_summary.
Definition calculate_value_summary := nearest_summary.

(** The float literal [0.6] *)
Definition lit_0_6 : Q := fl (6 # 10).

(** [max_votes * 0.6]: the integer is converted, the product rounded. *)
Definition threshold_of (mx : Z) : Q := fl (fl (inject_Z mx) * lit_0_6)%Q.

Definition all_seasons : list string := ["spring"; "summer"; "fall"; "winter"].

Definition calculate_when_summary (votes : gmap string Z) (keys : list string)
  : option string :=
  if bool_decide (votes = ∅)
     || forallb (fun kv => kv.2 =? 0) (map_to_list votes)
  then Some NO_DATA
  else
    mx ← max_votes votes keys;
    if mx =? 0 then Some NO_DATA
    else
      let threshold := threshold_of mx in
      let top_options :=
        List.filter (fun k => Qle_bool threshold (inject_Z (vote_count votes k))) keys in
      match top_options with
      | [] => Some NO_DATA
      | _ =>
          let seasons := List.filter (fun opt => PyStr.mem opt all_seasons) top_options in
          let times := List.filter (fun opt => PyStr.mem opt ["day"; "night"]) top_options in
          season_part ←
            (if (length seasons =? 4)%nat then Some ["year-round"]
             else if (length seasons =? 3)%nat then
               missing ← head (List.filter (fun s => negb (PyStr.mem s seasons)) all_seasons);
               Some ["except " +:+ display_label missing]
             else match seasons with
                  | [] => Some []
                  | _ => Some [PyStr.join ", " (display_label <$> seasons)]
                  end);
          let time_part :=
            if (length times =? 2)%nat then ["anytime"]
            else match times with
                 | [] => []
                 | _ => [PyStr.join ", " (display_label <$> times)]
                 end in
          match season_part ++ time_part with
          | [] => Some NO_DATA
          | parts => Some (PyStr.join " | " parts)
          end
      end.

End Scores.

(** The six vote blocks ([VOTE_BLOCKS]), their option lists, the summary
    function the detail panel pairs with each ([summary_funcs]) and the
    score function the filter and the sort call on each (the "when to
    wear" block has none). *)
Inductive category :=
  Rating | SeasonTime | Longevity | Sillage | Gender | Value.

Definition keys_of (c : category) : list string :=
  match c with
  | Rating => RATING_5
  | SeasonTime => SEASON_TIME_6
  | Longevity => LONGEVITY_5
  | Sillage => SILLAGE_4
  | Gender => GENDER_5
  | Value => VALUE_5
  end.

Definition summary_of {F : PyFloat} (c : category)
  : gmap string Z -> list string -> option string :=
  match c with
  | Rating => calculate_rating_summary
  | SeasonTime => calculate_when_summary
  | Longevity => calculate_longevity_summary
  | Sillage => calculate_sillage_summary
  | Gender => calculate_gender_summary
  | Value => calculate_value_summary
  end.

Definition score_of {F : PyFloat} (c : category)
  : option (gmap string Z -> list string -> option Q) :=
  match c with
  | Rating => Some calculate_rating_score
  | SeasonTime => None
  | Longevity => Some calculate_longevity_score
  | Sillage => Some calculate_sillage_score
  | Gender => Some calculate_gender_score
  | Value => Some calculate_value_score
  end.

(** A tally from a list of (option, count) pairs, for examples. *)
Definition tally (l : list (string * Z)) : gmap string Z := list_to_map l.


(** ** Data model *)

(** [a < b] on floats *)
Definition Qlt_bool (a b : Q) : bool := negb (Qle_bool b a).

Module Event.
Record t := mk {
  id : string;
  perfume_id : string;
  event_type : string;
  timestamp : string;
  location : string;
  ml_delta : option Q;
  price : option Q;
  purchase_type : string;
  purchase_type_id : string;
  note : string;
  event_date : string;
}.

Definition set_purchase_type_id (v : string) (e : t) : t :=
  mk (id e) (perfume_id e) (event_type e) (timestamp e) (location e)
     (ml_delta e) (price e) (purchase_type e) v (note e) (event_date e).
End Event.

Module Note.
Record t := mk {
  id : string;
  title : string;
  content : string;
  created_at : Z;
}.
End Note.

(** A value stored in the [fragrantica] and [my_votes] dictionaries of a
    perfume: a block of vote counts, or one of the scalar entries
    ([url], [source], [last_updated]). *)
Inductive entry :=
  | Votes (v : gmap string Z)
  | Text (s : string)
  | Number (n : Z).

(** Python truth value of an entry *)
Definition truthy (x : entry) : bool :=
  match x with
  | Votes v => negb (bool_decide (v = ∅))
  | Text s => negb (String.eqb s "")
  | Number n => negb (n =? 0)
  end.

Module Perfume.
Record t := mk {
  id : string;
  name : string;
  brand_id : string;
  concentration_id : string;
  outlet_ids : list string;
  tag_ids : list string;
  created_at : Z;
  updated_at : Z;
  events : list Event.t;
  notes : list Note.t;
  links : list (string * string);
  fragrantica : gmap string entry;
  my_votes : gmap string entry;
}.

Definition set_brand_id (v : string) (p : t) : t :=
  mk (id p) (name p) v (concentration_id p) (outlet_ids p) (tag_ids p)
     (created_at p) (updated_at p) (events p) (notes p) (links p)
     (fragrantica p) (my_votes p).

Definition set_concentration_id (v : string) (p : t) : t :=
  mk (id p) (name p) (brand_id p) v (outlet_ids p) (tag_ids p)
     (created_at p) (updated_at p) (events p) (notes p) (links p)
     (fragrantica p) (my_votes p).

Definition set_outlet_ids (v : list string) (p : t) : t :=
  mk (id p) (name p) (brand_id p) (concentration_id p) v (tag_ids p)
     (created_at p) (updated_at p) (events p) (notes p) (links p)
     (fragrantica p) (my_votes p).

Definition set_tag_ids (v : list string) (p : t) : t :=
  mk (id p) (name p) (brand_id p) (concentration_id p) (outlet_ids p) v
     (created_at p) (updated_at p) (events p) (notes p) (links p)
     (fragrantica p) (my_votes p).

Definition set_events (v : list Event.t) (p : t) : t :=
  mk (id p) (name p) (brand_id p) (concentration_id p) (outlet_ids p)
     (tag_ids p) (created_at p) (updated_at p) v (notes p) (links p)
     (fragrantica p) (my_votes p).

Definition set_updated_at (v : Z) (p : t) : t :=
  mk (id p) (name p) (brand_id p) (concentration_id p) (outlet_ids p)
     (tag_ids p) (created_at p) v (events p) (notes p) (links p)
     (fragrantica p) (my_votes p).
End Perfume.

(** [(d or {}).get(block, {})]: the vote block stored under [block]. The
    program stores nothing but a block of counts under a block key; on any
    other value the callers raise [AttributeError] at their next [.get],
    which this reading does not show: the theorems that state that a caller
    returns assume [block_ok] below. *)
Definition block_votes (d : gmap string entry) (block : string) : gmap string Z :=
  match d !! block with
  | Some (Votes v) => v
  | _ => ∅
  end.

Record OutletInfo := { outlet_name : string; outlet_region : string }.

(** An insertion-ordered [dict] with string keys. *)
Module OrderedDict.
Section Ops.
Context {V : Type}.

(** [d.get(k)] *)
Fixpoint get (k : string) (d : list (string * V)) : option V :=
  match d with
  | [] => None
  | (k', v) :: rest => if String.eqb k' k then Some v else get k rest
  end.

(** [d[k] = v]: in place when [k] is a key, appended otherwise. *)
Fixpoint set (k : string) (v : V) (d : list (string * V)) : list (string * V) :=
  match d with
  | [] => [(k, v)]
  | (k', v') :: rest =>
      if String.eqb k' k then (k', v) :: rest else (k', v') :: set k v rest
  end.

Definition remove (k : string) (d : list (string * V)) : list (string * V) :=
  filter (fun kv => kv.1 <> k) d.

(** [del d[k]]; raises when [k] is not a key. *)
Definition del (k : string) (d : list (string * V)) : option (list (string * V)) :=
  match get k d with
  | None => None
  | Some _ => Some (remove k d)
  end.

(** [list(d.keys())] *)
Definition keys (d : list (string * V)) : list string := fst <$> d.
End Ops.
End OrderedDict.

(** The application data: the perfumes and the five id -> value tables. *)
Record AppData := {
  perfumes : list Perfume.t;
  brands_map : list (string * string);
  concentrations_map : list (string * string);
  outlets_map : list (string * OutletInfo);
  tags_map : list (string * string);
  purchase_types_map : list (string * string);
}.

Definition get_brand_name (d : AppData) (brand_id : string) : string :=
  default "" (OrderedDict.get brand_id (brands_map d)).

Definition get_tag_name (d : AppData) (tag_id : string) : string :=
  default "" (OrderedDict.get tag_id (tags_map d)).

(** ** Derived state *)

Section Engine.
Context {F : PyFloat}.

(** [owned_ml = 0.0; for e in events: if e.ml_delta is not None:
    owned_ml += float(e.ml_delta)] *)
Definition owned_volume (events : list Event.t) : Q :=
  foldl (fun acc e =>
           match Event.ml_delta e with
           | Some d => fl (acc + fl d)%Q
           | None => acc
           end) 0%Q events.

Definition derive_state (p : Perfume.t) (tag_names : option (list string))
  : string * Q :=
  let events := Perfume.events p in
  let tested :=
    existsb (fun e => PyStr.mem (Event.event_type e) ["smell"; "skin"]) events in
  let on_skin :=
    existsb (fun e => String.eqb (Event.event_type e) "skin") events in
  let owned_ml := owned_volume events in
  let tags_to_check := default [] tag_names in
  let want :=
    PyStr.mem "want" (PyStr.lower <$> tags_to_check)
    || existsb (fun e => PyStr.contains "want" (PyStr.lower (Event.note e))) events in
  let parts :=
    (if tested then ["Tested"] else [])
    ++ (if on_skin then ["On-skin"] else [])
    ++ (if Qlt_bool 0 owned_ml then ["Owned " +:+ fmt_g owned_ml +:+ "ml"] else [])
    ++ (if want then ["Want"] else []) in
  match parts with
  | [] => ("New", owned_ml)
  | _ => (PyStr.join " | " parts, owned_ml)
  end.

(** ** Filter *)

Record FilterConfig := {
  brands : list string;
  states : list string;
  seasons : list string;
  times : list string;
  rating_min : Q;
  rating_max : Q;
  rating_exclude : bool;
  longevity_min : Q;
  longevity_max : Q;
  longevity_exclude : bool;
  sillage_min : Q;
  sillage_max : Q;
  sillage_exclude : bool;
  value_min : Q;
  value_max : Q;
  value_exclude : bool;
  gender_preference : list string;
  tags : list string;
  tags_logic : string;
  has_my_vote : bool;
  has_fragrantica : bool;
}.

(** [FilterConfig()] with every field at its default *)
Definition default_filter : FilterConfig :=
  {| brands := []; states := []; seasons := []; times := [];
     rating_min := 0; rating_max := 5; rating_exclude := false;
     longevity_min := 0; longevity_max := 5; longevity_exclude := false;
     sillage_min := 0; sillage_max := 4; sillage_exclude := false;
     value_min := 0; value_max := 5; value_exclude := false;
     gender_preference := []; tags := []; tags_logic := "or";
     has_my_vote := false; has_fragrantica := false |}.

Definition is_nil {A} (l : list A) : bool :=
  match l with [] => true | _ => false end.

(** The "States" block: [true] when the perfume is kept. *)
Definition states_pass (d : AppData) (p : Perfume.t) (config : FilterConfig) : bool :=
  if is_nil (states config) then true
  else
    let tag_names := get_tag_name d <$> Perfume.tag_ids p in
    let '(state, owned_ml) := derive_state p (Some tag_names) in
    (PyStr.mem "owned" (states config) && Qlt_bool 0 owned_ml)
    || (PyStr.mem "tested" (states config) && PyStr.contains "Tested" state)
    || (PyStr.mem "wishlist" (states config) && String.eqb state "Wishlist").

(** The loops of the "Seasons/Times" and "Gender" blocks: some requested
    option has at least 10 community votes or a personal vote. *)
Definition any_option_voted (fr my : gmap string Z) (items : list string) : bool :=
  existsb (fun item => (10 <=? vote_count fr item) || (0 <? vote_count my item)) items.

Definition when_pass (p : Perfume.t) (config : FilterConfig) : bool :=
  if is_nil (seasons config) && is_nil (times config) then true
  else
    any_option_voted
      (block_votes (Perfume.fragrantica p) "season_time_votes")
      (block_votes (Perfume.my_votes p) "my_season_time_votes")
      (seasons config ++ times config).

(** [min > 0 or max < full or exclude]: the range facet is active. *)
Definition range_active (lo hi full : Q) (exclude : bool) : bool :=
  Qlt_bool 0 lo || Qlt_bool hi full || exclude.

(** The body of a score-range block for a computed [score]: [true] when
    the block does not return [False]. *)
Definition range_pass (lo hi : Q) (exclude : bool) (score : Q) : bool :=
  let has_data := Qlt_bool 0 score in
  let in_range := Qle_bool lo score && Qle_bool score hi in
  if exclude then negb (has_data && in_range)
  else negb (negb has_data || negb in_range).

(** One score-range block: inactive, or the score is computed and
    tested. *)
Definition range_block (lo hi full : Q) (exclude : bool)
    (score : gmap string Z -> list string -> option Q)
    (votes : gmap string Z) (keys : list string) : option bool :=
  if range_active lo hi full exclude then
    s ← score votes keys; Some (range_pass lo hi exclude s)
  else Some true.

Definition gender_pass (p : Perfume.t) (config : FilterConfig) : bool :=
  if is_nil (gender_preference config) then true
  else
    any_option_voted
      (block_votes (Perfume.fragrantica p) "gender_votes")
      (block_votes (Perfume.my_votes p) "my_gender_votes")
      (gender_preference config).

Definition tags_pass (d : AppData) (p : Perfume.t) (config : FilterConfig) : bool :=
  if is_nil (tags config) then true
  else
    let p_tags := get_tag_name d <$> Perfume.tag_ids p in
    if String.eqb (tags_logic config) "and"
    then forallb (fun t => PyStr.mem t p_tags) (tags config)
    else existsb (fun t => PyStr.mem t p_tags) (tags config).

(** [not d or not any(d.values())] negated: some stored value is truthy. *)
Definition any_values (d : gmap string entry) : bool :=
  existsb (fun kv => truthy kv.2) (map_to_list d).

Definition votes_pass (p : Perfume.t) (config : FilterConfig) : bool :=
  (if has_my_vote config then any_values (Perfume.my_votes p) else true)
  && (if has_fragrantica config then any_values (Perfume.fragrantica p) else true).

(** [App._matches_filter]: the blocks in source order; the first one that
    fails returns [False]. *)
Definition _matches_filter (d : AppData) (p : Perfume.t) (config : FilterConfig)
  : option bool :=
  let brand_name := get_brand_name d (Perfume.brand_id p) in
  if negb (is_nil (brands config)) && negb (PyStr.mem brand_name (brands config))
  then Some false
  else if negb (states_pass d p config) then Some false
  else if negb (when_pass p config) then Some false
  else
    ok ← range_block (rating_min config) (rating_max config) 5
           (rating_exclude config) calculate_rating_score
           (block_votes (Perfume.fragrantica p) "rating_votes") RATING_5;
    if negb ok then Some false else
    ok ← range_block (longevity_min config) (longevity_max config) 5
           (longevity_exclude config) calculate_longevity_score
           (block_votes (Perfume.fragrantica p) "longevity_votes") LONGEVITY_5;
    if negb ok then Some false else
    ok ← range_block (sillage_min config) (sillage_max config) 4
           (sillage_exclude config) calculate_sillage_score
           (block_votes (Perfume.fragrantica p) "sillage_votes") SILLAGE_4;
    if negb ok then Some false else
    ok ← range_block (value_min config) (value_max config) 5
           (value_exclude config) calculate_value_score
           (block_votes (Perfume.fragrantica p) "value_votes") VALUE_5;
    if negb ok then Some false else
    if negb (gender_pass p config) then Some false
    else if negb (tags_pass d p config) then Some false
    else Some (votes_pass p config).

End Engine.

(** ** Sort *)

(** A component of an inner sort tuple. *)
Inductive atom :=
  | AStr (s : string)
  | ANum (q : Q)
  | ABool (b : bool).

(** The number a non-string component compares as ([True] is 1). *)
Definition atom_num (a : atom) : Q :=
  match a with
  | ANum q => q
  | ABool true => 1
  | _ => 0
  end.

(** [a == b] *)
Definition atom_eqb (a b : atom) : bool :=
  match a, b with
  | AStr s, AStr t => String.eqb s t
  | AStr _, _ | _, AStr _ => false
  | _, _ => Qeq_bool (atom_num a) (atom_num b)
  end.

(** [a < b]; a string against a number raises [TypeError]. *)
Definition atom_ltb (a b : atom) : option bool :=
  match a, b with
  | AStr s, AStr t => Some (String.ltb s t)
  | AStr _, _ | _, AStr _ => None
  | _, _ => Some (Qlt_bool (atom_num a) (atom_num b))
  end.

Section Tuples.
Context {A : Type} (eqb : A -> A -> bool) (ltb : A -> A -> option bool).

(** [x == y] on tuples *)
Fixpoint tuple_eqb (x y : list A) : bool :=
  match x, y with
  | [], [] => true
  | a :: x', b :: y' => eqb a b && tuple_eqb x' y'
  | _, _ => false
  end.

(** [x < y] on tuples: the first components that differ decide, and a
    proper prefix is smaller. *)
Fixpoint tuple_ltb (x y : list A) : option bool :=
  match x, y with
  | [], [] => Some false
  | [], _ :: _ => Some true
  | _ :: _, [] => Some false
  | a :: x', b :: y' => if eqb a b then tuple_ltb x' y' else ltb a b
  end.
End Tuples.

(** The key of a perfume is a tuple of inner tuples. *)
Definition key_ltb (x y : list (list atom)) : option bool :=
  tuple_ltb (tuple_eqb atom_eqb) (tuple_ltb atom_eqb atom_ltb) x y.

Section Sorted.
Context {K A : Type} (ltb : K -> K -> option bool).

(** Insertion behind every element with a strictly smaller key. *)
Fixpoint insert_by (x : K * A) (l : list (K * A)) : option (list (K * A)) :=
  match l with
  | [] => Some [x]
  | y :: rest =>
      match ltb y.1 x.1 with
      | None => None
      | Some true => cons y <$> insert_by x rest
      | Some false => Some (x :: l)
      end
  end.

Fixpoint sort_by (l : list (K * A)) : option (list (K * A)) :=
  match l with
  | [] => Some []
  | x :: rest =>
      match sort_by rest with
      | Some sorted => insert_by x sorted
      | None => None
      end
  end.

(** [sorted(items, key=...)] on items paired with their keys: ascending
    and stable. *)
Definition py_sorted (l : list (K * A)) : option (list A) :=
  match sort_by l with
  | Some sorted => Some (snd <$> sorted)
  | None => None
  end.
End Sorted.

Section SortEngine.
Context {F : PyFloat}.

Record SortConfig := { dimensions : list (string * string) }.

(** [(-score,) if order == "desc" else (score,)] *)
Definition by_score (order : string) (score : Q) : list atom :=
  if String.eqb order "desc" then [ANum (- score)%Q] else [ANum score].

(** [state_priority.get(label, 3)] *)
Definition state_priority (label : string) : Z :=
  if String.eqb label "Owned" then 0
  else if String.eqb label "Tested" then 1
  else if String.eqb label "Wishlist" then 2
  else 3.

Definition _get_sort_value (d : AppData) (p : Perfume.t)
    (dimension order : string) : option (list atom) :=
  if String.eqb dimension "brand" then
    let brand_name := PyStr.lower (get_brand_name d (Perfume.brand_id p)) in
    Some (if String.eqb order "asc" then [AStr brand_name]
          else [AStr brand_name; ABool true])
  else if String.eqb dimension "name" then
    Some (if String.eqb order "asc" then [AStr (PyStr.lower (Perfume.name p))]
          else [AStr (PyStr.lower (Perfume.name p)); ABool true])
  else if String.eqb dimension "rating" then
    score ← calculate_rating_score
              (block_votes (Perfume.fragrantica p) "rating_votes") RATING_5;
    Some (by_score order score)
  else if String.eqb dimension "longevity" then
    score ← calculate_longevity_score
              (block_votes (Perfume.fragrantica p) "longevity_votes") LONGEVITY_5;
    Some (by_score order score)
  else if String.eqb dimension "sillage" then
    score ← calculate_sillage_score
              (block_votes (Perfume.fragrantica p) "sillage_votes") SILLAGE_4;
    Some (by_score order score)
  else if String.eqb dimension "gender" then
    score ← calculate_gender_score
              (block_votes (Perfume.fragrantica p) "gender_votes") GENDER_5;
    Some (if String.eqb order "female_first" then [ANum score]
          else if String.eqb order "male_first" then [ANum (- score)%Q]
          else [ANum (Qabs (fl (score - 3)%Q))])
  else if String.eqb dimension "value" then
    score ← calculate_value_score
              (block_votes (Perfume.fragrantica p) "value_votes") VALUE_5;
    Some (by_score order score)
  else if String.eqb dimension "state" then
    let tag_names := get_tag_name d <$> Perfume.tag_ids p in
    let '(state, owned_ml) := derive_state p (Some tag_names) in
    Some [ANum (inject_Z (state_priority (PyStr.before_comma state)))]
  else Some [ANum 0].

(** The inner function [sort_key] *)
Definition sort_key (d : AppData) (config : SortConfig) (p : Perfume.t)
  : option (list (list atom)) :=
  mapM (fun '(dim, order) => _get_sort_value d p dim order) (dimensions config).

Definition _sort_perfumes (d : AppData) (ps : list Perfume.t)
    (config : SortConfig) : option (list Perfume.t) :=
  match dimensions config with
  | [] => Some ps
  | _ =>
      keyed ← mapM (fun p => k ← sort_key d config p; Some (k, p)) ps;
      py_sorted key_ltb keyed
  end.

End SortEngine.

(** ** Reference tables ([ManageDataDialog]) *)

(** The tab of the dialog selects the table ([current_tab]). *)
Inductive tab := Brands | Tags | Concentrations | Outlets | PurchaseTypes.

(** A table value: a name, or for the outlet table a name and a region. *)
Inductive item :=
  | Name (s : string)
  | Outlet (o : OutletInfo).

Definition with_perfumes (ps : list Perfume.t) (d : AppData) : AppData :=
  {| perfumes := ps; brands_map := brands_map d;
     concentrations_map := concentrations_map d; outlets_map := outlets_map d;
     tags_map := tags_map d; purchase_types_map := purchase_types_map d |}.

Definition with_brands_map (m : list (string * string)) (d : AppData) : AppData :=
  {| perfumes := perfumes d; brands_map := m;
     concentrations_map := concentrations_map d; outlets_map := outlets_map d;
     tags_map := tags_map d; purchase_types_map := purchase_types_map d |}.

Definition with_concentrations_map (m : list (string * string)) (d : AppData) : AppData :=
  {| perfumes := perfumes d; brands_map := brands_map d;
     concentrations_map := m; outlets_map := outlets_map d;
     tags_map := tags_map d; purchase_types_map := purchase_types_map d |}.

Definition with_outlets_map (m : list (string * OutletInfo)) (d : AppData) : AppData :=
  {| perfumes := perfumes d; brands_map := brands_map d;
     concentrations_map := concentrations_map d; outlets_map := m;
     tags_map := tags_map d; purchase_types_map := purchase_types_map d |}.

Definition with_tags_map (m : list (string * string)) (d : AppData) : AppData :=
  {| perfumes := perfumes d; brands_map := brands_map d;
     concentrations_map := concentrations_map d; outlets_map := outlets_map d;
     tags_map := m; purchase_types_map := purchase_types_map d |}.

Definition with_purchase_types_map (m : list (string * string)) (d : AppData) : AppData :=
  {| perfumes := perfumes d; brands_map := brands_map d;
     concentrations_map := concentrations_map d; outlets_map := outlets_map d;
     tags_map := tags_map d; purchase_types_map := m |}.

(** [App.save]: [for p in self.perfumes: p.updated_at = now_ts()], then
    the data is written to the file; [clock i] is what the call of
    [now_ts()] for the perfume at position [i] returns. *)
Definition save (clock : nat -> Z) (d : AppData) : AppData :=
  with_perfumes
    (imap (fun i p => Perfume.set_updated_at (clock i) p) (perfumes d)) d.

Definition named (m : list (string * string)) : list (string * item) :=
  prod_map id Name <$> m.

(** [_get_current_map]: the table of the tab, read. *)
Definition _get_current_map (t : tab) (d : AppData) : list (string * item) :=
  match t with
  | Brands => named (brands_map d)
  | Tags => named (tags_map d)
  | Concentrations => named (concentrations_map d)
  | Outlets => prod_map id Outlet <$> outlets_map d
  | PurchaseTypes => named (purchase_types_map d)
  end.

(** [current_map[target_id] = OutletInfo(name=keep_name, region="")] on the
    outlet tab, [current_map[target_id] = keep_name] on the others. *)
Definition store_kept (t : tab) (target_id keep_name : string) (d : AppData) : AppData :=
  match t with
  | Brands => with_brands_map (OrderedDict.set target_id keep_name (brands_map d)) d
  | Tags => with_tags_map (OrderedDict.set target_id keep_name (tags_map d)) d
  | Concentrations =>
      with_concentrations_map
        (OrderedDict.set target_id keep_name (concentrations_map d)) d
  | Outlets =>
      with_outlets_map
        (OrderedDict.set target_id
           {| outlet_name := keep_name; outlet_region := "" |} (outlets_map d)) d
  | PurchaseTypes =>
      with_purchase_types_map
        (OrderedDict.set target_id keep_name (purchase_types_map d)) d
  end.

(** The value [store_kept] writes. *)
Definition kept_item (t : tab) (keep_name : string) : item :=
  match t with
  | Outlets => Outlet {| outlet_name := keep_name; outlet_region := "" |}
  | _ => Name keep_name
  end.

(** [del current_map[sid]] *)
Definition del_item (t : tab) (sid : string) (d : AppData) : option AppData :=
  match t with
  | Brands => m ← OrderedDict.del sid (brands_map d); Some (with_brands_map m d)
  | Tags => m ← OrderedDict.del sid (tags_map d); Some (with_tags_map m d)
  | Concentrations =>
      m ← OrderedDict.del sid (concentrations_map d);
      Some (with_concentrations_map m d)
  | Outlets => m ← OrderedDict.del sid (outlets_map d); Some (with_outlets_map m d)
  | PurchaseTypes =>
      m ← OrderedDict.del sid (purchase_types_map d);
      Some (with_purchase_types_map m d)
  end.

(** [_get_item_name] *)
Definition _get_item_name (t : tab) (item_id : string) (d : AppData) : string :=
  match OrderedDict.get item_id (_get_current_map t d) with
  | Some (Outlet o) =>
      outlet_name o +:+
      (if String.eqb (outlet_region o) "" then ""
       else " (" +:+ outlet_region o +:+ ")")
  | Some (Name s) => s
  | None => ""
  end.

(** [sum(1 for x in xs if test(x))] *)
Definition count_if {A} (test : A -> bool) (xs : list A) : Z :=
  Z.of_nat (length (List.filter test xs)).

(** [_count_usage] *)
Definition _count_usage (t : tab) (item_id : string) (d : AppData) : Z :=
  match t with
  | Brands =>
      count_if (fun p => String.eqb (Perfume.brand_id p) item_id) (perfumes d)
  | Tags =>
      count_if (fun p => PyStr.mem item_id (Perfume.tag_ids p)) (perfumes d)
  | Concentrations =>
      count_if (fun p => String.eqb (Perfume.concentration_id p) item_id) (perfumes d)
  | Outlets =>
      count_if (fun p => PyStr.mem item_id (Perfume.outlet_ids p)) (perfumes d)
  | PurchaseTypes =>
      count_if (fun e => String.eqb (Event.purchase_type_id e) item_id)
        (p ← perfumes d; Perfume.events p)
  end.

(** [list(dict.fromkeys(l))]: the first occurrence of each id, in order;
    [seen] holds the ids already kept. *)
Fixpoint fromkeys_from (seen l : list string) : list string :=
  match l with
  | [] => []
  | x :: rest =>
      if PyStr.mem x seen then fromkeys_from seen rest
      else x :: fromkeys_from (x :: seen) rest
  end.

Definition fromkeys (l : list string) : list string := fromkeys_from [] l.

(** [[target_id if x == sid else x for x in ids]] *)
Definition substitute (sid target_id : string) (ids : list string) : list string :=
  (fun x => if String.eqb x sid then target_id else x) <$> ids.

(** The two assignments made to a list field that holds [sid]. *)
Definition merge_ids (sid target_id : string) (ids : list string) : list string :=
  if PyStr.mem sid ids then fromkeys (substitute sid target_id ids) else ids.

(** The per-tab loop over the perfumes for one merged id. *)
Definition redirect_perfume (t : tab) (sid target_id : string) (p : Perfume.t)
  : Perfume.t :=
  match t with
  | Brands =>
      if String.eqb (Perfume.brand_id p) sid
      then Perfume.set_brand_id target_id p else p
  | Tags =>
      if PyStr.mem sid (Perfume.tag_ids p)
      then Perfume.set_tag_ids (fromkeys (substitute sid target_id (Perfume.tag_ids p))) p
      else p
  | Concentrations =>
      if String.eqb (Perfume.concentration_id p) sid
      then Perfume.set_concentration_id target_id p else p
  | Outlets =>
      if PyStr.mem sid (Perfume.outlet_ids p)
      then Perfume.set_outlet_ids
             (fromkeys (substitute sid target_id (Perfume.outlet_ids p))) p
      else p
  | PurchaseTypes =>
      Perfume.set_events
        ((fun e => if String.eqb (Event.purchase_type_id e) sid
                   then Event.set_purchase_type_id target_id e else e)
           <$> Perfume.events p) p
  end.

(** What a dialog callback did. *)
Inductive outcome :=
  | Warned (title : string) (lines : list string)
  | Cancelled
  | Raised
  | Completed.

(** The [self.app.save()] that ends a callback: reached when nothing
    returned or raised before it. *)
Definition then_save (clock : nat -> Z) (r : outcome * AppData)
  : outcome * AppData :=
  match r with
  | (Completed, d) => (Completed, save clock d)
  | _ => r
  end.

(** The loop [for sid in selected_ids] of [_merge_selected]; a failing
    [del] leaves the data as rewritten so far. *)
Fixpoint merge_loop (t : tab) (target_id : string) (sids : list string)
    (d : AppData) : outcome * AppData :=
  match sids with
  | [] => (Completed, d)
  | sid :: rest =>
      if String.eqb sid target_id then merge_loop t target_id rest d
      else
        let d1 := with_perfumes (redirect_perfume t sid target_id <$> perfumes d) d in
        match del_item t sid d1 with
        | None => (Raised, d1)
        | Some d2 => merge_loop t target_id rest d2
        end
  end.

(** [_merge_selected]: [selected_ids] are the ids of the selected rows,
    [keep_name] the answer of the name dialog, [clock] the clock read by
    the final [save]. *)
Definition _merge_selected (t : tab) (clock : nat -> Z)
    (selected_ids : list string) (keep_name : option string) (d : AppData)
  : outcome * AppData :=
  if (length selected_ids <? 2)%nat then
    (Warned "Select Multiple" ["Please select 2 or more items to merge."], d)
  else
    match keep_name, selected_ids with
    | None, _ | Some "", _ => (Cancelled, d)
    | _, [] => (Raised, d)
    | Some keep_name, target_id :: _ =>
        let keep_name := PyStr.strip keep_name in
        then_save clock
          (merge_loop t target_id selected_ids
             (store_kept t target_id keep_name d))
    end.

(** The loop [for sid in selected_ids: if usage == 0: del current_map[sid]]
    of [_delete_selected]. *)
Fixpoint delete_loop (t : tab) (sids : list string) (d : AppData)
  : outcome * AppData :=
  match sids with
  | [] => (Completed, d)
  | sid :: rest =>
      if _count_usage t sid d =? 0 then
        match del_item t sid d with
        | None => (Raised, d)
        | Some d' => delete_loop t rest d'
        end
      else delete_loop t rest d
  end.

(** The entries of [used_items]: [f"{name} ({usage})"] for each selected
    id in use. *)
Definition used_items (t : tab) (selected_ids : list string) (d : AppData)
  : list string :=
  omap (fun sid =>
          let usage := _count_usage t sid d in
          if 0 <? usage
          then Some (_get_item_name t sid d +:+ " (" +:+ PyStr.of_Z usage +:+ ")")
          else None) selected_ids.

Definition unused_items (t : tab) (selected_ids : list string) (d : AppData)
  : list string :=
  omap (fun sid =>
          if 0 <? _count_usage t sid d then None
          else Some (_get_item_name t sid d)) selected_ids.

(** [_delete_selected]: [confirmed] is the answer of the confirmation
    dialog, [clock] the clock read by the final [save]. *)
Definition _delete_selected (t : tab) (clock : nat -> Z)
    (selected_ids : list string) (confirmed : bool) (d : AppData)
  : outcome * AppData :=
  match selected_ids with
  | [] => (Warned "Select" ["Please select items to delete."], d)
  | _ =>
      match used_items t selected_ids d with
      | (_ :: _) as used =>
          (Warned "Cannot Delete" ("Still in use:" :: "" :: used), d)
      | [] =>
          match unused_items t selected_ids d with
          | [] => (Cancelled, d)
          | _ =>
              if confirmed then then_save clock (delete_loop t selected_ids d)
              else (Cancelled, d)
          end
      end
  end.

(** ** Views used to state the properties *)

(** What a score function owes on a tally of non-negative counts: it
    returns, with 0 when there is no vote and a value between 1 and the
    number of options otherwise. *)
Definition score_spec (score : option Q) (votes : gmap string Z)
    (keys : list string) : Prop :=
  exists s, score = Some s /\
    (total_votes votes keys = 0 /\ s = 0%Q
     \/ 0 < total_votes votes keys
        /\ (1 <= s <= inject_Z (Z.of_nat (length keys)))%Q).

(** The four score-range facets of a [FilterConfig], with the fields and
    the score each block of [_matches_filter] reads. *)
Inductive range_facet := OnRating | OnLongevity | OnSillage | OnValue.

Definition facet_min (config : FilterConfig) (f : range_facet) : Q :=
  match f with
  | OnRating => rating_min config
  | OnLongevity => longevity_min config
  | OnSillage => sillage_min config
  | OnValue => value_min config
  end.

Definition facet_max (config : FilterConfig) (f : range_facet) : Q :=
  match f with
  | OnRating => rating_max config
  | OnLongevity => longevity_max config
  | OnSillage => sillage_max config
  | OnValue => value_max config
  end.

Definition facet_exclude (config : FilterConfig) (f : range_facet) : bool :=
  match f with
  | OnRating => rating_exclude config
  | OnLongevity => longevity_exclude config
  | OnSillage => sillage_exclude config
  | OnValue => value_exclude config
  end.

Definition facet_full (f : range_facet) : Q :=
  match f with
  | OnSillage => 4
  | _ => 5
  end.

Definition facet_active (config : FilterConfig) (f : range_facet) : bool :=
  range_active (facet_min config f) (facet_max config f) (facet_full f)
    (facet_exclude config f).

(** The community score the block of the facet computes. *)
Definition facet_score {F : PyFloat} (p : Perfume.t) (f : range_facet) : option Q :=
  match f with
  | OnRating =>
      calculate_rating_score
        (block_votes (Perfume.fragrantica p) "rating_votes") RATING_5
  | OnLongevity =>
      calculate_longevity_score
        (block_votes (Perfume.fragrantica p) "longevity_votes") LONGEVITY_5
  | OnSillage =>
      calculate_sillage_score
        (block_votes (Perfume.fragrantica p) "sillage_votes") SILLAGE_4
  | OnValue =>
      calculate_value_score
        (block_votes (Perfume.fragrantica p) "value_votes") VALUE_5
  end.

(** The configuration whose only non-default fields are those of one
    range facet. *)
Definition only_range (f : range_facet) (lo hi : Q) (exclude : bool) : FilterConfig :=
  let pick (g : range_facet) (dflt : Q) (v : Q) := 
    match f, g with
    | OnRating, OnRating | OnLongevity, OnLongevity
    | OnSillage, OnSillage | OnValue, OnValue => v
    | _, _ => dflt
    end in
  let pickb (g : range_facet) :=
    match f, g with
    | OnRating, OnRating | OnLongevity, OnLongevity
    | OnSillage, OnSillage | OnValue, OnValue => exclude
    | _, _ => false
    end in
  {| brands := []; states := []; seasons := []; times := [];
     rating_min := pick OnRating 0%Q lo; rating_max := pick OnRating 5%Q hi;
     rating_exclude := pickb OnRating;
     longevity_min := pick OnLongevity 0%Q lo;
     longevity_max := pick OnLongevity 5%Q hi;
     longevity_exclude := pickb OnLongevity;
     sillage_min := pick OnSillage 0%Q lo; sillage_max := pick OnSillage 4%Q hi;
     sillage_exclude := pickb OnSillage;
     value_min := pick OnValue 0%Q lo; value_max := pick OnValue 5%Q hi;
     value_exclude := pickb OnValue;
     gender_preference := []; tags := []; tags_logic := "or";
     has_my_vote := false; has_fragrantica := false |}.

(** The ids of table [t] a perfume holds, in field order: its brand or
    concentration, its tags or outlets, or the purchase types of its
    events. *)
Definition refs_of (t : tab) (p : Perfume.t) : list string :=
  match t with
  | Brands => [Perfume.brand_id p]
  | Tags => Perfume.tag_ids p
  | Concentrations => [Perfume.concentration_id p]
  | Outlets => Perfume.outlet_ids p
  | PurchaseTypes => Event.purchase_type_id <$> Perfume.events p
  end.

(** The tabs whose ids sit in a list field of the perfume. *)
Definition list_valued (t : tab) : bool :=
  match t with
  | Tags | Outlets => true
  | _ => false
  end.

(** What the block of facet [f] answers for the score [s]: the body of the
    block when the facet is active, "keep" otherwise. *)
Definition facet_ok (config : FilterConfig) (f : range_facet) (s : Q) : bool :=
  if facet_active config f
  then range_pass (facet_min config f) (facet_max config f) (facet_exclude config f) s
  else true.

(** ** Example data *)

Definition even_year : gmap string Z :=
  tally [("spring", 100); ("summer", 100); ("fall", 100); ("winter", 100);
         ("day", 50); ("night", 50)].

Definition no_data : AppData :=
  {| perfumes := []; brands_map := []; concentrations_map := [];
     outlets_map := []; tags_map := []; purchase_types_map := [] |}.

Definition plain_perfume (name brand_id : string) (tag_ids : list string) : Perfume.t :=
  Perfume.mk name name brand_id "" [] tag_ids 0 0 [] [] [] ∅ ∅.

Definition with_states (sts : list string) (c : FilterConfig) : FilterConfig :=
  {| brands := brands c; states := sts; seasons := seasons c; times := times c;
     rating_min := rating_min c; rating_max := rating_max c;
     rating_exclude := rating_exclude c;
     longevity_min := longevity_min c; longevity_max := longevity_max c;
     longevity_exclude := longevity_exclude c;
     sillage_min := sillage_min c; sillage_max := sillage_max c;
     sillage_exclude := sillage_exclude c;
     value_min := value_min c; value_max := value_max c;
     value_exclude := value_exclude c;
     gender_preference := gender_preference c; tags := tags c;
     tags_logic := tags_logic c;
     has_my_vote := has_my_vote c; has_fragrantica := has_fragrantica c |}.

(** The filter that asks for the "wishlist" state only. *)
Definition wishlist_only : FilterConfig := with_states ["wishlist"] default_filter.

(** Whether a key component compares as a string or as a number. *)
Inductive kind := KStr | KNum.

Definition kind_of (a : atom) : kind :=
  match a with
  | AStr _ => KStr
  | _ => KNum
  end.

Definition shape_of (key : list (list atom)) : list (list kind) :=
  map (map kind_of) key.

(** The kinds of the tuple [_get_sort_value] builds for a dimension and an
    order-mode. *)
Definition value_shape (dimension order : string) : list kind :=
  if String.eqb dimension "brand" || String.eqb dimension "name" then
    if String.eqb order "asc" then [KStr] else [KStr; KNum]
  else [KNum].

Definition key_shape (config : SortConfig) : list (list kind) :=
  map (fun dim_order => value_shape dim_order.1 dim_order.2) (dimensions config).

(** Items paired with their keys. *)
Definition keyed {K A : Type} (kf : A -> K) (l : list A) : list (K * A) :=
  (fun x => (kf x, x)) <$> l.

(** The sort on one dimension. *)
Definition sort_on (dimension order : string) : SortConfig :=
  {| dimensions := [(dimension, order)] |}.

(** The merged ids other than the target. *)
Definition nontargets (target_id : string) (sids : list string) : list string :=
  List.filter (fun s => negb (String.eqb s target_id)) sids.

(** An id after the merge: the target when it was merged away. *)
Definition retarget (merged : list string) (target_id : string) (x : string) : string :=
  if PyStr.mem x merged then target_id else x.

(** The ids a perfume holds after the merge: each merged id replaced by
    the target, and for a list field that held a merged id, first
    occurrences only. *)
Definition merged_refs (t : tab) (merged : list string) (target_id : string)
    (refs : list string) : list string :=
  if list_valued t then
    if existsb (fun s => PyStr.mem s refs) merged
    then fromkeys (retarget merged target_id <$> refs)
    else refs
  else retarget merged target_id <$> refs.

(** The passes of [merge_loop] over one perfume. *)
Definition redirect_all (t : tab) (target_id : string) (sids : list string)
    (p : Perfume.t) : Perfume.t :=
  foldl (fun p sid =>
           if String.eqb sid target_id then p
           else redirect_perfume t sid target_id p) p sids.

(** Three perfumes, two spellings of one brand, two spellings of one tag,
    and a tag list with a repetition. *)
Definition shelf : AppData :=
  {| perfumes :=
       [plain_perfume "P1" "idA" ["t1"; "t2"];
        plain_perfume "P2" "idB" ["t2"; "t3"];
        plain_perfume "P3" "idC" ["x"; "x"]];
     brands_map := [("idA", "Chanell"); ("idB", "chanel"); ("idC", "Dior");
                    ("idD", "Guerlain")];
     concentrations_map := [];
     outlets_map := [];
     tags_map := [("t1", "citrus"); ("t2", "Citrus"); ("t3", "woody"); ("x", "fresh")];
     purchase_types_map := [] |}.

Definition rated_perfume (name : string) (rating : list (string * Z)) : Perfume.t :=
  Perfume.mk name name "" "" [] [] 0 0 [] [] []
    {[ "rating_votes" := Votes (tally rating) ]} ∅.

(** Three perfumes with rating votes, none with a brand or a tag. *)
Definition rated_shelf : AppData :=
  {| perfumes :=
       [rated_perfume "cuir" [("like", 2); ("ok", 2)];
        rated_perfume "tabac" [("hate", 3)];
        rated_perfume "ambre" [("love", 1)]];
     brands_map := []; concentrations_map := []; outlets_map := [];
     tags_map := []; purchase_types_map := [] |}.

(** ** Vote normalization (display-time only) *)

(** [max((int(votes.get(k, 0) or 0) for k in keys), default=0)] *)
Definition max_votes_or_zero (votes : gmap string Z) (keys : list string) : Z :=
  default 0 (max_votes votes keys).

Section Normalize.
Context {F : PyFloat}.

Definition normalize_votes_sum (votes : gmap string Z) (keys : list string)
  : list Q :=
  let total := total_votes votes keys in
  if total <=? 0 then replicate (length keys) 0%Q
  else (fun k => true_div (vote_count votes k) total) <$> keys.

Definition normalize_votes_max (votes : gmap string Z) (keys : list string)
  : list Q :=
  let mx := max_votes_or_zero votes keys in
  if mx <=? 0 then replicate (length keys) 0%Q
  else (fun k => true_div (vote_count votes k) mx) <$> keys.

End Normalize.


(** The tally with every count multiplied by [c]. *)
Definition scaled (c : Z) (votes : gmap string Z) : gmap string Z :=
  Z.mul c <$> votes.

(** ** Reference store: look-up by name ([App]) *)

Section Find.
Context {V : Type} (name_of : V -> string).

(** The loop of [find_brand_id], [find_tag_id] and [find_outlet_by_name]:
    the id of the first entry whose name is [name], the empty string when
    there is none. *)
Fixpoint find_by (name : string) (m : list (string * V)) : string :=
  match m with
  | [] => ""
  | (k, v) :: rest =>
      if String.eqb (name_of v) name then k else find_by name rest
  end.
End Find.

Definition find_brand_id (d : AppData) (brand_name : string) : string :=
  find_by id brand_name (brands_map d).

(** [find_or_create_brand_id]; [fresh] is what [new_id()] returns. *)
Definition find_or_create_brand_id (fresh : string) (d : AppData)
    (brand_name : string) : string * AppData :=
  let bid := find_brand_id d brand_name in
  if negb (String.eqb bid "") then (bid, d)
  else (fresh, with_brands_map (OrderedDict.set fresh brand_name (brands_map d)) d).

Definition find_tag_id (d : AppData) (tag_name : string) : string :=
  find_by id tag_name (tags_map d).

Definition find_or_create_tag_id (fresh : string) (d : AppData)
    (tag_name : string) : string * AppData :=
  let tid := find_tag_id d tag_name in
  if negb (String.eqb tid "") then (tid, d)
  else (fresh, with_tags_map (OrderedDict.set fresh tag_name (tags_map d)) d).

Definition find_outlet_by_name (d : AppData) (name : string) : string :=
  find_by outlet_name name (outlets_map d).

Definition find_or_create_outlet (fresh : string) (d : AppData) (name : string)
  : string * AppData :=
  if String.eqb (PyStr.strip name) "" then ("", d)
  else
    let oid := find_outlet_by_name d (PyStr.strip name) in
    if negb (String.eqb oid "") then (oid, d)
    else (fresh,
          with_outlets_map
            (OrderedDict.set fresh
               {| outlet_name := PyStr.strip name; outlet_region := "" |}
               (outlets_map d)) d).

Definition get_outlet_info (d : AppData) (outlet_id : string) : OutletInfo :=
  default {| outlet_name := ""; outlet_region := "" |}
    (OrderedDict.get outlet_id (outlets_map d)).

Definition get_outlet_display (d : AppData) (outlet_id : string) : string :=
  let info := get_outlet_info d outlet_id in
  if negb (String.eqb (outlet_region info) "")
  then outlet_name info +:+ " (" +:+ outlet_region info +:+ ")"
  else outlet_name info.

(** ** Reference tables: add, rename, reorder ([ManageDataDialog]) *)

Section Table.
Context {V : Type}.

(** [current_map.clear(); for k, v in items: current_map[k] = v] *)
Definition rebuild (items : list (string * V)) : list (string * V) :=
  foldl (fun m kv => OrderedDict.set kv.1 kv.2 m) [] items.

(** [items[i], items[j] = items[j], items[i]]; an index out of range
    raises. *)
Definition swap_items (i j : nat) (items : list (string * V))
  : option (list (string * V)) :=
  match items !! j, items !! i with
  | Some x, Some y => Some (<[j := y]> (<[i := x]> items))
  | _, _ => None
  end.

(** The body of [_move_up] behind its guard, for a row [idx]. *)
Definition moved_up (idx : nat) (m : list (string * V))
  : option (list (string * V)) :=
  rebuild <$> swap_items idx (idx - 1) m.

(** The body of [_move_down] behind its guard. *)
Definition moved_down (idx : nat) (m : list (string * V))
  : option (list (string * V)) :=
  rebuild <$> swap_items idx (idx + 1) m.

(** The body of [_apply_sort_to_map] for a mode other than "custom";
    [name_of] and [count_of] are [_get_item_name] and [_count_usage]. *)
Definition sorted_table (mode : string) (name_of : string -> string)
    (count_of : string -> Z) (m : list (string * V))
  : option (list (string * V)) :=
  let sorted :=
    if String.eqb mode "name" then
      py_sorted atom_ltb
        ((fun kv => (AStr (PyStr.lower (name_of kv.1)), kv)) <$> m)
    else if String.eqb mode "count" then
      py_sorted (tuple_ltb atom_eqb atom_ltb)
        ((fun kv => ([ANum (inject_Z (- count_of kv.1));
                      AStr (PyStr.lower (name_of kv.1))], kv)) <$> m)
    else Some m in
  rebuild <$> sorted.
End Table.

(** An operation on the table of the tab, whatever the type of its
    values; [None] when the operation raises. *)
Definition update_current_map (t : tab)
    (f : forall V : Type, list (string * V) -> option (list (string * V)))
    (d : AppData) : option AppData :=
  match t with
  | Brands => (fun m => with_brands_map m d) <$> f _ (brands_map d)
  | Tags => (fun m => with_tags_map m d) <$> f _ (tags_map d)
  | Concentrations =>
      (fun m => with_concentrations_map m d) <$> f _ (concentrations_map d)
  | Outlets => (fun m => with_outlets_map m d) <$> f _ (outlets_map d)
  | PurchaseTypes =>
      (fun m => with_purchase_types_map m d) <$> f _ (purchase_types_map d)
  end.

Definition finish (r : option AppData) (d : AppData) : outcome * AppData :=
  match r with
  | Some d' => (Completed, d')
  | None => (Raised, d)
  end.

(** [_move_up]: [selection] is [listbox.curselection()]; [Cancelled] is a
    return that changes nothing. *)
Definition _move_up (t : tab) (clock : nat -> Z) (selection : list nat)
    (d : AppData) : outcome * AppData :=
  match selection with
  | [] => (Cancelled, d)
  | idx :: _ =>
      if (idx =? 0)%nat then (Cancelled, d)
      else
        then_save clock
          (finish (update_current_map t (fun V => moved_up idx) d) d)
  end.

(** [_move_down]; [item_ids] is the list of row ids the dialog holds. *)
Definition _move_down (t : tab) (clock : nat -> Z) (item_ids : list string)
    (selection : list nat) (d : AppData) : outcome * AppData :=
  match selection with
  | [] => (Cancelled, d)
  | idx :: _ =>
      if (Z.of_nat (length item_ids) - 1 <=? Z.of_nat idx) then (Cancelled, d)
      else
        then_save clock
          (finish (update_current_map t (fun V => moved_down idx) d) d)
  end.

(** [_apply_sort_to_map] for the [sort_mode] of the dialog; mode "custom"
    returns before anything is done. *)
Definition _apply_sort_to_map (t : tab) (clock : nat -> Z) (sort_mode : string)
    (d : AppData) : outcome * AppData :=
  if String.eqb sort_mode "custom" then (Cancelled, d)
  else
    then_save clock
      (finish
         (update_current_map t
            (fun V => sorted_table sort_mode (fun k => _get_item_name t k d)
                        (fun k => _count_usage t k d)) d) d).

(** [name in current_map.values()]: a name equals no outlet record. *)
Definition item_is (name : string) (i : item) : bool :=
  match i with
  | Name s => String.eqb s name
  | Outlet _ => false
  end.

(** [_add_new]: [fresh] is what [new_id()] returns, [name] and [region]
    the answers of the two dialogs, [clock] the clock read by the final
    [save]. *)
Definition _add_new (t : tab) (clock : nat -> Z) (fresh : string)
    (name region : option string) (d : AppData) : outcome * AppData :=
  match name with
  | None | Some "" => (Cancelled, d)
  | Some name =>
      let name := PyStr.strip name in
      match t with
      | Outlets =>
          let region := PyStr.strip (default "" region) in
          (Completed,
           save clock
             (with_outlets_map
                (OrderedDict.set fresh
                   {| outlet_name := name; outlet_region := region |}
                   (outlets_map d)) d))
      | _ =>
          if existsb (fun kv => item_is name kv.2) (_get_current_map t d)
          then (Warned "Exists" ["'" +:+ name +:+ "' already exists."], d)
          else (Completed, save clock (store_kept t fresh name d))
      end
  end.

(** [_rename_selected]: [selected_ids] are the ids of the selected rows,
    [new_name] and [new_region] the answers of the dialogs, [clock] the
    clock read by the final [save]. *)
Definition _rename_selected (t : tab) (clock : nat -> Z)
    (selected_ids : list string) (new_name new_region : option string)
    (d : AppData) : outcome * AppData :=
  match selected_ids with
  | [item_id] =>
      match t with
      | Outlets =>
          match OrderedDict.get item_id (outlets_map d) with
          | None => (Cancelled, d)
          | Some outlet =>
              match new_name with
              | None | Some "" => (Cancelled, d)
              | Some new_name =>
                  let new_name := PyStr.strip new_name in
                  let new_region := PyStr.strip (default "" new_region) in
                  (Completed,
                   save clock
                     (with_outlets_map
                        (OrderedDict.set item_id
                           {| outlet_name := new_name;
                              outlet_region := new_region |}
                           (outlets_map d)) d))
              end
          end
      | _ =>
          let old_name :=
            match OrderedDict.get item_id (_get_current_map t d) with
            | Some (Name s) => s
            | _ => ""
            end in
          match new_name with
          | None | Some "" => (Cancelled, d)
          | Some new_name =>
              if String.eqb (PyStr.strip new_name) old_name then (Cancelled, d)
              else (Completed,
                    save clock (store_kept t item_id (PyStr.strip new_name) d))
          end
      end
  | _ => (Warned "Select One" ["Please select exactly one item to rename."], d)
  end.

(** What a find-or-create on a table owes for the name it was asked: an
    id that is not empty, holds the name and is what the look-up returns
    from now on; the entries the table had are as they were; the table is
    left alone when an entry had the name, and gets one entry at its end
    otherwise. *)
Definition found_or_created {V : Type} (name_of : V -> string)
    (m m' : list (string * V)) (name id : string) : Prop :=
  id <> ""
  /\ (exists v, OrderedDict.get id m' = Some v /\ name_of v = name)
  /\ find_by name_of name m' = id
  /\ (forall k, k ∈ OrderedDict.keys m ->
        OrderedDict.get k m' = OrderedDict.get k m)
  /\ ((exists k v, OrderedDict.get k m = Some v /\ name_of v = name) -> m' = m)
  /\ ((forall k v, OrderedDict.get k m = Some v -> name_of v <> name) ->
      exists v, m' = m ++ [(id, v)]).

(** ** The preview of the filter dialog ([FilterDialog]) *)

Module FilterDialog.
Section Preview.
Context {F : PyFloat}.

(** [self.app.get_brand_name(p.brand_id) if self.app else ""] *)
Definition brand_name_of (app : option AppData) (p : Perfume.t) : string :=
  match app with
  | Some d => get_brand_name d (Perfume.brand_id p)
  | None => ""
  end.

(** [[self.app.get_tag_name(tid) for tid in p.tag_ids] if self.app else []] *)
Definition tag_names_of (app : option AppData) (p : Perfume.t) : list string :=
  match app with
  | Some d => get_tag_name d <$> Perfume.tag_ids p
  | None => []
  end.

Definition states_pass (app : option AppData) (p : Perfume.t)
    (config : FilterConfig) : bool :=
  if is_nil (states config) then true
  else
    let tag_names := tag_names_of app p in
    let '(state, owned_ml) := derive_state p (Some tag_names) in
    (PyStr.mem "owned" (states config) && Qlt_bool 0 owned_ml)
    || (PyStr.mem "tested" (states config) && PyStr.contains "Tested" state)
    || (PyStr.mem "wishlist" (states config) && String.eqb state "Wishlist").

(** The body of a score-range block of the dialog: the range test alone. *)
Definition range_pass (lo hi : Q) (exclude : bool) (score : Q) : bool :=
  let in_range := Qle_bool lo score && Qle_bool score hi in
  if exclude then negb in_range else negb (negb in_range).

Definition range_block (lo hi full : Q) (exclude : bool)
    (score : gmap string Z -> list string -> option Q)
    (votes : gmap string Z) (keys : list string) : option bool :=
  if range_active lo hi full exclude then
    match score votes keys with
    | Some s => Some (range_pass lo hi exclude s)
    | None => None
    end
  else Some true.

Definition tags_pass (app : option AppData) (p : Perfume.t)
    (config : FilterConfig) : bool :=
  if is_nil (tags config) then true
  else
    let p_tags := tag_names_of app p in
    if String.eqb (tags_logic config) "and"
    then forallb (fun t => PyStr.mem t p_tags) (tags config)
    else existsb (fun t => PyStr.mem t p_tags) (tags config).

(** [FilterDialog._matches_filter]; [app] is the [app] attribute of the
    dialog, which may be [None]. *)
Definition _matches_filter (app : option AppData) (p : Perfume.t)
    (config : FilterConfig) : option bool :=
  if negb (is_nil (brands config))
     && negb (PyStr.mem (brand_name_of app p) (brands config))
  then Some false
  else if negb (states_pass app p config) then Some false
  else if negb (when_pass p config) then Some false
  else
    match range_block (rating_min config) (rating_max config) 5
            (rating_exclude config) calculate_rating_score
            (block_votes (Perfume.fragrantica p) "rating_votes") RATING_5 with
    | None => None
    | Some false => Some false
    | Some true =>
    match range_block (longevity_min config) (longevity_max config) 5
            (longevity_exclude config) calculate_longevity_score
            (block_votes (Perfume.fragrantica p) "longevity_votes") LONGEVITY_5 with
    | None => None
    | Some false => Some false
    | Some true =>
    match range_block (sillage_min config) (sillage_max config) 4
            (sillage_exclude config) calculate_sillage_score
            (block_votes (Perfume.fragrantica p) "sillage_votes") SILLAGE_4 with
    | None => None
    | Some false => Some false
    | Some true =>
    match range_block (value_min config) (value_max config) 5
            (value_exclude config) calculate_value_score
            (block_votes (Perfume.fragrantica p) "value_votes") VALUE_5 with
    | None => None
    | Some false => Some false
    | Some true =>
        if negb (gender_pass p config) then Some false
        else if negb (tags_pass app p config) then Some false
        else Some (votes_pass p config)
    end end end end.

(** [_count_matches]: the number the dialog shows as "Result". *)
Fixpoint _count_matches (app : option AppData) (perfumes : list Perfume.t)
    (config : FilterConfig) : option Z :=
  match perfumes with
  | [] => Some 0
  | p :: rest =>
      match _matches_filter app p config, _count_matches app rest config with
      | Some b, Some count => Some ((if b then 1 else 0) + count)
      | _, _ => None
      end
  end.

End Preview.
End FilterDialog.

(** What the block of facet [f] of the dialog answers for the score [s]. *)
Definition preview_facet_ok (config : FilterConfig) (f : range_facet) (s : Q)
  : bool :=
  if facet_active config f
  then FilterDialog.range_pass (facet_min config f) (facet_max config f)
         (facet_exclude config f) s
  else true.

(** [config] with another [tags_logic]. *)
Definition with_tags_logic (logic : string) (c : FilterConfig) : FilterConfig :=
  {| brands := brands c; states := states c; seasons := seasons c; times := times c;
     rating_min := rating_min c; rating_max := rating_max c;
     rating_exclude := rating_exclude c;
     longevity_min := longevity_min c; longevity_max := longevity_max c;
     longevity_exclude := longevity_exclude c;
     sillage_min := sillage_min c; sillage_max := sillage_max c;
     sillage_exclude := sillage_exclude c;
     value_min := value_min c; value_max := value_max c;
     value_exclude := value_exclude c;
     gender_preference := gender_preference c; tags := tags c;
     tags_logic := logic;
     has_my_vote := has_my_vote c; has_fragrantica := has_fragrantica c |}.

Definition with_tags (ts : list string) (c : FilterConfig) : FilterConfig :=
  {| brands := brands c; states := states c; seasons := seasons c; times := times c;
     rating_min := rating_min c; rating_max := rating_max c;
     rating_exclude := rating_exclude c;
     longevity_min := longevity_min c; longevity_max := longevity_max c;
     longevity_exclude := longevity_exclude c;
     sillage_min := sillage_min c; sillage_max := sillage_max c;
     sillage_exclude := sillage_exclude c;
     value_min := value_min c; value_max := value_max c;
     value_exclude := value_exclude c;
     gender_preference := gender_preference c; tags := ts;
     tags_logic := tags_logic c;
     has_my_vote := has_my_vote c; has_fragrantica := has_fragrantica c |}.

(** ** Stored vote data *)

(** [VOTE_BLOCKS], without the titles. *)
Definition VOTE_BLOCKS : list (string * list string) :=
  [("rating_votes", RATING_5); ("season_time_votes", SEASON_TIME_6);
   ("longevity_votes", LONGEVITY_5); ("sillage_votes", SILLAGE_4);
   ("gender_votes", GENDER_5); ("value_votes", VALUE_5)].

Definition MY_PREFIX : string := "my_".

(** Every count of a block is 0 or more. *)
Definition counts_ok (v : gmap string Z) : bool :=
  forallb (fun kv => 0 <=? kv.2) (map_to_list v).

(** What the program stores under a block key: nothing, or a block of
    counts that are 0 or more. *)
Definition block_ok (d : gmap string entry) (block : string) : bool :=
  match d !! block with
  | None => true
  | Some (Votes v) => counts_ok v
  | Some _ => false
  end.

(** A perfume whose community and personal vote blocks are as the program
    stores them. *)
Definition well_formed (p : Perfume.t) : bool :=
  forallb (fun b => block_ok (Perfume.fragrantica p) b.1
                    && block_ok (Perfume.my_votes p) (MY_PREFIX +:+ b.1))
    VOTE_BLOCKS.

(** ** The main list ([App._refresh_list]) *)

Section MainList.
Context {F : PyFloat}.

(** The text a search query is looked up in. *)
Definition search_blob (d : AppData) (p : Perfume.t) : string :=
  let brand_name := get_brand_name d (Perfume.brand_id p) in
  let tag_names := get_tag_name d <$> Perfume.tag_ids p in
  let note_contents :=
    (fun n => Note.title n +:+ " " +:+ Note.content n) <$> Perfume.notes p in
  PyStr.lower
    (PyStr.join " " [brand_name; Perfume.name p; PyStr.join " " tag_names;
                     PyStr.join " " note_contents]).

(** The test of the loop body of [_refresh_list]: the perfume is kept. *)
Definition shown (d : AppData) (q : string) (config : FilterConfig)
    (p : Perfume.t) : option bool :=
  match _matches_filter d p config with
  | None => None
  | Some false => Some false
  | Some true =>
      if negb (String.eqb q "") then Some (PyStr.contains q (search_blob d p))
      else Some true
  end.

Fixpoint filtered (d : AppData) (q : string) (config : FilterConfig)
    (ps : list Perfume.t) : option (list Perfume.t) :=
  match ps with
  | [] => Some []
  | p :: rest =>
      match shown d q config p, filtered d q config rest with
      | Some b, Some l => Some (if b then p :: l else l)
      | _, _ => None
      end
  end.

(** [tree.insert("", "end", iid=p.id, ...)] for each perfume in turn, on
    the emptied tree: an id that is already an item is refused, and the
    root, under which the rows are inserted, is the item with the empty
    id. *)
Definition rows_inserted (ids : list string) : bool :=
  bool_decide (NoDup ids) && negb (PyStr.mem "" ids).

(** [_refresh_list]: the ids of the rows of the tree, in order
    ([filtered_ids]); [search] is the text of the search box. *)
Definition _refresh_list (d : AppData) (search : string)
    (filter_config : FilterConfig) (sort_config : SortConfig)
  : option (list string) :=
  let q := PyStr.lower (PyStr.strip search) in
  match filtered d q filter_config (perfumes d) with
  | None => None
  | Some l =>
      match _sort_perfumes d l sort_config with
      | None => None
      | Some sorted_perfumes =>
          let ids := Perfume.id <$> sorted_perfumes in
          if rows_inserted ids then Some ids else None
      end
  end.

End MainList.

(** The sort dimension that reads the score of a range facet. *)
Definition facet_dimension (f : range_facet) : string :=
  match f with
  | OnRating => "rating"
  | OnLongevity => "longevity"
  | OnSillage => "sillage"
  | OnValue => "value"
  end.
(** * Properties *)

(** ** Strings and rendering *)

Lemma mem_true (x : string) (xs : list string) :
  PyStr.mem x xs = true <-> x ∈ xs.
Proof.
  unfold PyStr.mem. rewrite existsb_exists. split.
  - intros (y & Hy & E). apply String.eqb_eq in E. subst y.
    by apply list_elem_of_In.
  - intros H. exists x. split; [by apply list_elem_of_In | apply String.eqb_refl].
Qed.

Lemma mem_false (x : string) (xs : list string) :
  PyStr.mem x xs = false <-> x ∉ xs.
Proof.
  rewrite <- mem_true. destruct (PyStr.mem x xs); split; congruence.
Qed.

Lemma exact_float_laws : PyFloatLaws exact_float.
Proof.
  split; simpl; intros; first [assumption | reflexivity].
Qed.

Example general_50 : Fmt.general 50 = "50". Proof. reflexivity. Qed.
Example general_2_5 : Fmt.general (5 # 2) = "2.5". Proof. reflexivity. Qed.
Example general_third : Fmt.general (1 # 3) = "0.333333". Proof. reflexivity. Qed.
Example general_big : Fmt.general 1234567 = "1.23457e+06". Proof. vm_compute. reflexivity. Qed.
Example general_carry : Fmt.general (1999999 # 2) = "1e+06". Proof. vm_compute. reflexivity. Qed.
Example general_small : Fmt.general (1 # 100000) = "1e-05". Proof. vm_compute. reflexivity. Qed.
Example general_small_fixed : Fmt.general (1 # 10000) = "0.0001". Proof. vm_compute. reflexivity. Qed.
Example general_neg : Fmt.general (- (29 # 4)) = "-7.25". Proof. vm_compute. reflexivity. Qed.
Example general_100000 : Fmt.general 100000 = "100000". Proof. vm_compute. reflexivity. Qed.
Example fixed_2 : Fmt.fixed 2 (10 # 3) = "3.33". Proof. vm_compute. reflexivity. Qed.
Example fixed_2_tie : Fmt.fixed 2 (1 # 8) = "0.12". Proof. vm_compute. reflexivity. Qed.
Example fixed_2_five : Fmt.fixed 2 5 = "5.00". Proof. vm_compute. reflexivity. Qed.

(** ** Facts about tallies and weights *)

Lemma total_votes_nonneg (votes : gmap string Z) (keys : list string) :
  (forall k, k ∈ keys -> 0 <= vote_count votes k) ->
  0 <= total_votes votes keys.
Proof.
  induction keys as [|k keys IH]; simpl; intros H; [lia|].
  assert (0 <= vote_count votes k) by (apply H; left).
  assert (0 <= total_votes votes keys) by (apply IH; intros; apply H; by right).
  lia.
Qed.

Lemma total_votes_zero (votes : gmap string Z) (keys : list string) :
  (forall k, k ∈ keys -> vote_count votes k = 0) ->
  total_votes votes keys = 0.
Proof.
  induction keys as [|k keys IH]; simpl; intros H; [done|].
  rewrite (H k) by left. rewrite IH; [done|]. intros; apply H; by right.
Qed.

Lemma total_votes_zero_inv (votes : gmap string Z) (keys : list string) :
  (forall k, k ∈ keys -> 0 <= vote_count votes k) ->
  total_votes votes keys = 0 ->
  forall k, k ∈ keys -> vote_count votes k = 0.
Proof.
  induction keys as [|k0 keys IH]; simpl; intros Hnn Ht k Hk.
  - by apply elem_of_nil in Hk.
  - assert (0 <= vote_count votes k0) by (apply Hnn; left).
    assert (0 <= total_votes votes keys)
      by (apply total_votes_nonneg; intros; apply Hnn; by right).
    apply elem_of_cons in Hk as [-> | Hk]; [lia|].
    apply IH; [intros; apply Hnn; by right | lia | done].
Qed.

Lemma total_votes_pos (votes : gmap string Z) (keys : list string) :
  (forall k, k ∈ keys -> 0 <= vote_count votes k) ->
  0 < total_votes votes keys <-> exists k, k ∈ keys /\ 0 < vote_count votes k.
Proof.
  intros Hnn. split.
  - induction keys as [|k0 keys IH]; simpl; intros Ht; [lia|].
    destruct (decide (0 < vote_count votes k0)) as [Hp | Hz].
    + exists k0. split; [left | done].
    + assert (0 <= vote_count votes k0) by (apply Hnn; left).
      destruct IH as (k & Hk & Hpos); [intros; apply Hnn; by right | lia |].
      exists k. split; [by right | done].
  - intros (k & Hk & Hpos).
    pose proof (total_votes_nonneg _ _ Hnn) as H0.
    destruct (decide (total_votes votes keys = 0)) as [Hz | Hz]; [|lia].
    pose proof (total_votes_zero_inv _ _ Hnn Hz k Hk). lia.
Qed.

Lemma weights_from_notin (keys : list string) (i : Z) (acc : gmap string Z) (k : string) :
  k ∉ keys -> weights_from i keys acc !! k = acc !! k.
Proof.
  revert i acc. induction keys as [|k0 keys IH]; simpl; intros i acc Hk; [done|].
  apply not_elem_of_cons in Hk as [Hne Hk].
  rewrite IH by done. by rewrite lookup_insert_ne.
Qed.

(** Every key receives a weight between its lowest and highest position. *)
Lemma weights_from_bounds (keys : list string) (i : Z) (acc : gmap string Z) (k : string) :
  k ∈ keys ->
  exists w, weights_from i keys acc !! k = Some w
            /\ i + 1 <= w <= i + Z.of_nat (length keys).
Proof.
  revert i acc. induction keys as [|k0 keys IH]; simpl; intros i acc Hk.
  - by apply elem_of_nil in Hk.
  - destruct (decide (k ∈ keys)) as [Hin | Hnin].
    + destruct (IH (i + 1) (<[k0 := i + 1]> acc) Hin) as (w & Hw & Hb).
      exists w. split; [done | lia].
    + apply elem_of_cons in Hk as [-> | Hk]; [|done].
      exists (i + 1). rewrite weights_from_notin by done.
      rewrite lookup_insert_eq. split; [done | lia].
Qed.

(** Without repeated keys the weight is the 1-based position. *)
Lemma weights_from_lookup (keys : list string) (i : Z) (acc : gmap string Z)
    (n : nat) (k : string) :
  NoDup keys -> keys !! n = Some k ->
  weights_from i keys acc !! k = Some (i + Z.of_nat n + 1).
Proof.
  revert i acc n. induction keys as [|k0 keys IH]; simpl; intros i acc n Hnd Hn.
  - done.
  - apply NoDup_cons in Hnd as [Hk0 Hnd]. destruct n as [|n]; simpl in Hn.
    + injection Hn as ->. rewrite weights_from_notin by done.
      rewrite lookup_insert_eq. f_equal. lia.
    + rewrite (IH (i + 1) _ n) by done. f_equal. lia.
Qed.

Lemma rating_weights_bounds (keys : list string) :
  length keys = 5%nat ->
  exists weights, rating_weights keys = Some weights
    /\ forall k, k ∈ keys -> exists w, weights !! k = Some w /\ 1 <= w <= 5.
Proof.
  intros Hlen.
  destruct keys as [|k0 [|k1 [|k2 [|k3 [|k4 [|? ?]]]]]]; try discriminate.
  eexists. split; [reflexivity|].
  intros k Hk. rewrite !lookup_insert.
  repeat (destruct (decide _) as [?|?]);
    try (eexists; split; [reflexivity | lia]).
  repeat (apply elem_of_cons in Hk as [-> | Hk]; [congruence|]).
  by apply elem_of_nil in Hk.
Qed.

Lemma weighted_sum_bounds (votes weights : gmap string Z) (keys : list string)
    (lo hi : Z) :
  (forall k, k ∈ keys -> 0 <= vote_count votes k) ->
  (forall k, k ∈ keys -> exists w, weights !! k = Some w /\ lo <= w <= hi) ->
  exists ws, weighted_sum votes weights keys = Some ws
    /\ lo * total_votes votes keys <= ws <= hi * total_votes votes keys.
Proof.
  induction keys as [|k keys IH]; simpl; intros Hnn Hw.
  - exists 0. split; [done | lia].
  - destruct (Hw k) as (w & -> & Hb); [left|].
    destruct IH as (ws & -> & Hws);
      [intros; apply Hnn; by right | intros; apply Hw; by right |].
    simpl. eexists. split; [reflexivity|].
    assert (0 <= vote_count votes k) by (apply Hnn; left). nia.
Qed.

Lemma max_votes_zero (votes : gmap string Z) (keys : list string) :
  keys <> [] ->
  (forall k, k ∈ keys -> vote_count votes k = 0) ->
  max_votes votes keys = Some 0.
Proof.
  induction keys as [|k keys IH]; [done|]. intros _ Hz. simpl.
  rewrite (Hz k) by left.
  destruct keys as [|k' keys']; [done|].
  rewrite IH; [done | done | intros; apply Hz; by right].
Qed.

Section ScoreFacts.
Context {F : PyFloat} {L : PyFloatLaws F}.

(** A quotient of integers between two small integers stays between them
    after rounding. *)
Lemma true_div_bounds (ws total lo hi : Z) :
  0 < total -> lo * total <= ws <= hi * total ->
  Z.abs lo <= 2 ^ 53 -> Z.abs hi <= 2 ^ 53 ->
  (inject_Z lo <= true_div ws total <= inject_Z hi)%Q.
Proof.
  intros Ht [Hlo Hhi] Hl Hh. unfold true_div.
  assert (0 < inject_Z total)%Q as Hq by (rewrite <- (Zlt_Qlt 0); lia).
  split.
  - rewrite <- (fl_int lo) by done. apply fl_mono.
    apply Qle_shift_div_l; [done|].
    rewrite <- inject_Z_mult, <- Zle_Qle. done.
  - rewrite <- (fl_int hi) by done. apply fl_mono.
    apply Qle_shift_div_r; [done|].
    rewrite <- inject_Z_mult, <- Zle_Qle. done.
Qed.

Lemma position_score_spec (votes : gmap string Z) (keys : list string) :
  (forall k, k ∈ keys -> 0 <= vote_count votes k) ->
  Z.of_nat (length keys) <= 2 ^ 53 ->
  score_spec (position_score votes keys) votes keys.
Proof.
  intros Hnn Hlen. unfold score_spec, position_score.
  pose proof (total_votes_nonneg _ _ Hnn) as H0.
  destruct (Z.eqb_spec (total_votes votes keys) 0) as [Hz | Hz].
  - exists 0%Q. split; [done|]. by left.
  - destruct (weighted_sum_bounds votes (position_weights keys) keys
                1 (Z.of_nat (length keys)) Hnn) as (ws & -> & Hws).
    { intros k Hk.
      destruct (weights_from_bounds keys 0 ∅ k Hk) as (w & Hw & Hb).
      exists w. split; [done | lia]. }
    simpl. eexists. split; [reflexivity|]. right. split; [lia|].
    apply (true_div_bounds ws _ 1 (Z.of_nat (length keys))); lia.
Qed.

Lemma rating_score_spec (votes : gmap string Z) (keys : list string) :
  (forall k, k ∈ keys -> 0 <= vote_count votes k) ->
  length keys = 5%nat ->
  score_spec (calculate_rating_score votes keys) votes keys.
Proof.
  intros Hnn Hlen. unfold score_spec, calculate_rating_score.
  pose proof (total_votes_nonneg _ _ Hnn) as H0.
  destruct (Z.eqb_spec (total_votes votes keys) 0) as [Hz | Hz].
  - exists 0%Q. split; [done|]. by left.
  - destruct (rating_weights_bounds keys Hlen) as (weights & -> & Hw).
    destruct (weighted_sum_bounds votes weights keys 1 5 Hnn Hw)
      as (ws & Hsum & Hws).
    simpl. rewrite Hsum. simpl. eexists. split; [reflexivity|]. right. split; [lia|].
    rewrite Hlen. apply (true_div_bounds ws _ 1 5); lia.
Qed.

Lemma score_of_spec (c : category)
    (f : gmap string Z -> list string -> option Q) (votes : gmap string Z) :
  score_of c = Some f ->
  (forall k, k ∈ keys_of c -> 0 <= vote_count votes k) ->
  score_spec (f votes (keys_of c)) votes (keys_of c).
Proof.
  intros Hf Hnn.
  destruct c; simpl in Hf; try discriminate; injection Hf as <-;
    first [ apply rating_score_spec; [done | reflexivity]
          | apply position_score_spec; [done | simpl; lia] ].
Qed.

End ScoreFacts.

Lemma vote_count_tally_nonneg (l : list (string * Z)) (k : string) :
  Forall (fun kv => 0 <= kv.2) l -> 0 <= vote_count (tally l) k.
Proof.
  unfold vote_count, tally. induction 1 as [|[k0 v0] l Hv Hl IH]; simpl.
  - by rewrite lookup_empty.
  - destruct (decide (k0 = k)) as [-> | Hne].
    + by rewrite lookup_insert_eq.
    + by rewrite lookup_insert_ne.
Qed.

Lemma Qlt_bool_iff (a b : Q) : Qlt_bool a b = true <-> (a < b)%Q.
Proof.
  unfold Qlt_bool. rewrite negb_true_iff.
  destruct (Qle_bool b a) eqn:E.
  - apply Qle_bool_iff in E. split; [done|]. intros H.
    exfalso. by apply (Qlt_not_le a b).
  - split; [|done]. intros _. apply Qnot_le_lt. intros H.
    apply Qle_bool_iff in H. congruence.
Qed.

(** ** Scores *)

(** Every score function returns on its own option list, whatever the
    tally. *)
Lemma score_of_total {F : PyFloat} (c : category)
    (f : gmap string Z -> list string -> option Q) (votes : gmap string Z) :
  score_of c = Some f -> is_Some (f votes (keys_of c)).
Proof.
  intros Hf.
  destruct c; simpl in Hf; try discriminate; injection Hf as <-;
    unfold calculate_rating_score, calculate_longevity_score,
      calculate_sillage_score, calculate_gender_score, calculate_value_score,
      position_score;
    simpl keys_of; destruct (_ =? 0); eauto.
Qed.

(** C1, as the code has it: with the option order [eternal, long, moderate,
    weak, poor], one vote for "eternal" scores 1 and one vote for "poor"
    scores 5 (the docstring of [calculate_longevity_summary] and the
    specification say 5 and 1). *)
Theorem longevity_single_vote_scores {F : PyFloat} {L : PyFloatLaws F} :
  (exists s,
      calculate_longevity_score
        (tally [("eternal", 1); ("long", 0); ("moderate", 0); ("weak", 0); ("poor", 0)])
        LONGEVITY_5 = Some s /\ (s == 1)%Q)
  /\ (exists s,
      calculate_longevity_score
        (tally [("eternal", 0); ("long", 0); ("moderate", 0); ("weak", 0); ("poor", 1)])
        LONGEVITY_5 = Some s /\ (s == 5)%Q).
Proof.
  split; eexists; (split; [vm_compute; reflexivity|]).
  - apply (fl_int 1). vm_compute. discriminate.
  - apply (fl_int 5). vm_compute. discriminate.
Qed.

Lemma longevity_single_vote_scores_witness :
  (exists s,
      @calculate_longevity_score exact_float
        (tally [("eternal", 1); ("long", 0); ("moderate", 0); ("weak", 0); ("poor", 0)])
        LONGEVITY_5 = Some s /\ (s == 1)%Q)
  /\ (exists s,
      @calculate_longevity_score exact_float
        (tally [("eternal", 0); ("long", 0); ("moderate", 0); ("weak", 0); ("poor", 1)])
        LONGEVITY_5 = Some s /\ (s == 5)%Q).
Proof.
  exact (@longevity_single_vote_scores exact_float exact_float_laws).
Defined.

(** C5: for each of the six categories, a tally that gives every declared
    option the count 0 has the summary "—", and the score 0.0 where the
    category has a score function. *)
Theorem zero_tally_has_no_data {F : PyFloat} (c : category) (votes : gmap string Z) :
  (forall k, k ∈ keys_of c -> vote_count votes k = 0) ->
  summary_of c votes (keys_of c) = Some NO_DATA
  /\ (forall f, score_of c = Some f -> f votes (keys_of c) = Some 0%Q).
Proof.
  intros Hz. pose proof (total_votes_zero _ _ Hz) as Ht. split.
  - destruct c; cbn [summary_of keys_of] in Ht |- *;
      unfold calculate_rating_summary, calculate_longevity_summary,
        calculate_sillage_summary, calculate_gender_summary,
        calculate_value_summary, numeric_summary, nearest_summary;
      try (rewrite Ht; reflexivity).
    unfold calculate_when_summary.
    destruct (_ || _); [done|].
    rewrite (max_votes_zero votes SEASON_TIME_6); [done | done | done].
  - intros f Hf.
    destruct c; cbn [score_of keys_of] in Hf, Ht |- *;
      try discriminate; injection Hf as <-;
      unfold calculate_rating_score, calculate_longevity_score,
        calculate_sillage_score, calculate_gender_score, calculate_value_score,
        position_score;
      rewrite Ht; reflexivity.
Qed.

Lemma zero_tally_has_no_data_witness :
  @calculate_rating_summary exact_float
    (tally [("love", 0); ("hate", 0); ("other", 7)]) RATING_5 = Some NO_DATA
  /\ @calculate_rating_score exact_float
       (tally [("love", 0); ("hate", 0); ("other", 7)]) RATING_5 = Some 0%Q.
Proof.
  destruct (@zero_tally_has_no_data exact_float Rating
              (tally [("love", 0); ("hate", 0); ("other", 7)])) as [Hsum Hscore].
  - intros k Hk. cbn in Hk.
    repeat (apply elem_of_cons in Hk as [-> | Hk]; [reflexivity|]).
    by apply elem_of_nil in Hk.
  - split; [exact Hsum | exact (Hscore _ eq_refl)].
Defined.

(** C10: under non-negative counts the score of a category with N options
    is 0 exactly when every count is 0 and lies in [1, N] otherwise; so the
    score is positive, and the filter's [has_data] test true, exactly when
    some option has a vote. *)
Theorem score_zero_or_within_scale {F : PyFloat} {L : PyFloatLaws F}
    (c : category) (f : gmap string Z -> list string -> option Q)
    (votes : gmap string Z) :
  score_of c = Some f ->
  (forall k, k ∈ keys_of c -> 0 <= vote_count votes k) ->
  exists s, f votes (keys_of c) = Some s
    /\ ((forall k, k ∈ keys_of c -> vote_count votes k = 0) /\ s = 0%Q
        \/ (exists k, k ∈ keys_of c /\ 0 < vote_count votes k)
           /\ (1 <= s <= inject_Z (Z.of_nat (length (keys_of c))))%Q)
    /\ ((0 < s)%Q <-> exists k, k ∈ keys_of c /\ 0 < vote_count votes k)
    /\ (Qlt_bool 0 s = true <-> exists k, k ∈ keys_of c /\ 0 < vote_count votes k).
Proof.
  intros Hf Hnn.
  destruct (score_of_spec c f votes Hf Hnn) as (s & Hs & Hcases).
  exists s. split; [done|].
  pose proof (total_votes_pos votes (keys_of c) Hnn) as Hpos.
  assert ((0 < s)%Q <-> exists k, k ∈ keys_of c /\ 0 < vote_count votes k) as Hiff.
  { destruct Hcases as [[Ht ->] | [Ht [Hlo Hhi]]].
    - split; [intros H; by apply Qlt_irrefl in H|].
      intros H. apply Hpos in H. lia.
    - split; [intros _; by apply Hpos|].
      intros _. apply Qlt_le_trans with 1%Q; [reflexivity | done]. }
  split; [|split; [done | by rewrite Qlt_bool_iff]].
  destruct Hcases as [[Ht ->] | [Ht Hb]].
  - left. split; [|done]. by apply total_votes_zero_inv.
  - right. split; [by apply Hpos | done].
Qed.

Lemma score_zero_or_within_scale_witness :
  exists s,
    @calculate_sillage_score exact_float
      (tally [("enormous", 2); ("intimate", 5)]) (keys_of Sillage) = Some s
    /\ ((forall k, k ∈ keys_of Sillage ->
           vote_count (tally [("enormous", 2); ("intimate", 5)]) k = 0) /\ s = 0%Q
        \/ (exists k, k ∈ keys_of Sillage
              /\ 0 < vote_count (tally [("enormous", 2); ("intimate", 5)]) k)
           /\ (1 <= s <= inject_Z (Z.of_nat (length (keys_of Sillage))))%Q)
    /\ ((0 < s)%Q <->
        exists k, k ∈ keys_of Sillage
          /\ 0 < vote_count (tally [("enormous", 2); ("intimate", 5)]) k)
    /\ (Qlt_bool 0 s = true <->
        exists k, k ∈ keys_of Sillage
          /\ 0 < vote_count (tally [("enormous", 2); ("intimate", 5)]) k).
Proof.
  apply (@score_zero_or_within_scale exact_float exact_float_laws Sillage).
  - reflexivity.
  - intros k _. apply vote_count_tally_nonneg.
    repeat constructor; simpl; lia.
Defined.

(** ** The "when to wear" summary *)

Section WhenSummary.
Context {F : PyFloat} {L : PyFloatLaws F}.

Lemma fl_proper (x y : Q) : (x == y)%Q -> (fl x == fl y)%Q.
Proof.
  intros E. apply Qle_antisym; apply fl_mono; rewrite E; apply Qle_refl.
Qed.

(** The literal [0.6] lies between 9/16 and 5/8. *)
Lemma lit_0_6_bounds : (9 # 16 <= lit_0_6 <= 5 # 8)%Q.
Proof.
  unfold lit_0_6. split.
  - rewrite <- (fl_dyadic 9 4) by (vm_compute; discriminate).
    apply fl_mono. vm_compute. discriminate.
  - rewrite <- (fl_dyadic 5 3) by (vm_compute; discriminate).
    apply fl_mono. vm_compute. discriminate.
Qed.

(** The threshold for a maximum of 100 votes lies between 56.25 and
    62.5. *)
Lemma threshold_100_bounds : (225 # 4 <= threshold_of 100 <= 125 # 2)%Q.
Proof.
  unfold threshold_of. destruct lit_0_6_bounds as [Hlo Hhi].
  assert (fl (inject_Z 100) == 100)%Q as E100
    by (apply (fl_int 100); vm_compute; discriminate).
  split.
  - rewrite <- (fl_dyadic 225 2) by (vm_compute; discriminate).
    apply fl_mono. rewrite E100.
    apply Qle_trans with (100 * (9 # 16))%Q; [vm_compute; discriminate|].
    apply Qmult_le_l; [reflexivity | done].
  - rewrite <- (fl_dyadic 125 1) by (vm_compute; discriminate).
    apply fl_mono. rewrite E100.
    apply Qle_trans with (100 * (5 # 8))%Q; [|vm_compute; discriminate].
    apply Qmult_le_l; [reflexivity | done].
Qed.

End WhenSummary.

Example when_summary_three_seasons :
  @calculate_when_summary exact_float
    (tally [("spring", 100); ("summer", 100); ("fall", 100); ("winter", 0);
            ("day", 70); ("night", 0)]) SEASON_TIME_6
  = Some "except winter | day".
Proof. vm_compute. reflexivity. Qed.

Example gender_summary_nearest :
  @calculate_gender_summary exact_float
    (tally [("male", 3); ("more_female", 100)]) GENDER_5 = Some "more female".
Proof. vm_compute. reflexivity. Qed.

Example rating_summary_two_decimals :
  @calculate_rating_summary exact_float
    (tally [("love", 3); ("like", 1); ("hate", 2)]) RATING_5 = Some "3.50".
Proof. vm_compute. reflexivity. Qed.

Example rating_single_vote :
  @calculate_rating_score exact_float (tally [("love", 1)]) RATING_5 = Some 5%Q
  /\ @calculate_rating_score exact_float (tally [("hate", 1)]) RATING_5 = Some 1%Q.
Proof. split; vm_compute; reflexivity. Qed.

(** C8, as the code has it: day and night, at 50 votes, are below the
    threshold of 0.6 * 100, so the summary of the tally is "year-round"
    with no time part. *)
Theorem when_summary_even_year {F : PyFloat} {L : PyFloatLaws F} :
  calculate_when_summary even_year SEASON_TIME_6 = Some "year-round".
Proof.
  destruct threshold_100_bounds as [Hlo Hhi].
  assert (Qle_bool (threshold_of 100) (inject_Z 100) = true) as H100.
  { apply Qle_bool_iff.
    apply Qle_trans with (125 # 2)%Q; [done | vm_compute; discriminate]. }
  assert (Qle_bool (threshold_of 100) (inject_Z 50) = false) as H50.
  { apply not_true_is_false. intros H. apply Qle_bool_iff in H.
    assert (225 # 4 <= inject_Z 50)%Q as H'
      by (by apply Qle_trans with (threshold_of 100)).
    vm_compute in H'. by apply H'. }
  unfold calculate_when_summary.
  replace (bool_decide (even_year = ∅)
           || forallb (fun kv => kv.2 =? 0) (map_to_list even_year))
    with false by (vm_compute; reflexivity).
  replace (max_votes even_year SEASON_TIME_6) with (Some 100)
    by (vm_compute; reflexivity).
  cbn [mbind option_bind]. change (100 =? 0) with false. cbv iota.
  unfold SEASON_TIME_6. cbn [List.filter].
  replace (vote_count even_year "spring") with 100 by (vm_compute; reflexivity).
  replace (vote_count even_year "summer") with 100 by (vm_compute; reflexivity).
  replace (vote_count even_year "fall") with 100 by (vm_compute; reflexivity).
  replace (vote_count even_year "winter") with 100 by (vm_compute; reflexivity).
  replace (vote_count even_year "day") with 50 by (vm_compute; reflexivity).
  replace (vote_count even_year "night") with 50 by (vm_compute; reflexivity).
  rewrite H100, H50. reflexivity.
Qed.

Lemma when_summary_even_year_witness :
  @calculate_when_summary exact_float even_year SEASON_TIME_6 = Some "year-round".
Proof.
  exact (@when_summary_even_year exact_float exact_float_laws).
Defined.

(** The summary of that tally is not "year-round | anytime". *)
Lemma when_summary_even_year_not_anytime :
  @calculate_when_summary exact_float even_year SEASON_TIME_6
  <> Some "year-round | anytime".
Proof.
  vm_compute. discriminate.
Qed.

(** ** Derived state and the filter *)

Lemma derive_state_not_wishlist {F : PyFloat} (p : Perfume.t)
    (tag_names : option (list string)) :
  (derive_state p tag_names).1 <> "Wishlist".
Proof.
  unfold derive_state.
  destruct (existsb _ (Perfume.events p)), (existsb _ (Perfume.events p)),
    (Qlt_bool 0 _), (_ || _); simpl; discriminate.
Qed.

Example derive_state_label :
  @derive_state exact_float
    (Perfume.mk "p" "No 5" "idA" "" [] [] 0 0
       [Event.mk "e1" "p" "skin" "" "" (Some (5 # 2)) None "" "" "" "";
        Event.mk "e2" "p" "buy" "" "" (Some 50%Q) None "" "" "I Want more" ""]
       [] [] ∅ ∅) None
  = ("Tested | On-skin | Owned 52.5ml | Want", 105 # 2).
Proof. vm_compute. reflexivity. Qed.

Example derive_state_new :
  @derive_state exact_float (plain_perfume "No 5" "idA" []) (Some ["fresh"])
  = ("New", 0%Q).
Proof. vm_compute. reflexivity. Qed.

(** C3: [derive_state] never yields the label "Wishlist", so a filter whose
    states are exactly ["wishlist"] keeps no perfume, whatever its other
    facets (in particular when they are at their defaults). *)
Theorem wishlist_is_never_derived {F : PyFloat} (d : AppData) (p : Perfume.t) :
  (forall tag_names, (derive_state p tag_names).1 <> "Wishlist")
  /\ (forall config, states config = ["wishlist"] ->
        _matches_filter d p config = Some false).
Proof.
  split; [apply derive_state_not_wishlist|].
  intros config Hst. unfold _matches_filter.
  destruct (negb (is_nil (brands config)) && _); [done|].
  assert (states_pass d p config = false) as ->; [|done].
  unfold states_pass. rewrite Hst. cbn [is_nil].
  pose proof (derive_state_not_wishlist p
                (Some (get_tag_name d <$> Perfume.tag_ids p))) as Hne.
  destruct (derive_state p _) as [state owned_ml]. simpl in Hne.
  change (PyStr.mem "owned" ["wishlist"]) with false.
  change (PyStr.mem "tested" ["wishlist"]) with false.
  change (PyStr.mem "wishlist" ["wishlist"]) with true.
  cbn [andb orb]. apply not_true_is_false. intros E.
  by apply String.eqb_eq in E.
Qed.

Lemma wishlist_is_never_derived_witness :
  (@derive_state exact_float (plain_perfume "No 5" "idA" []) (Some [])).1
  <> "Wishlist"
  /\ @_matches_filter exact_float no_data (plain_perfume "No 5" "idA" [])
       wishlist_only = Some false.
Proof.
  destruct (@wishlist_is_never_derived exact_float no_data
              (plain_perfume "No 5" "idA" [])) as [Hlabel Hfilter].
  split; [apply Hlabel | apply Hfilter; reflexivity].
Defined.

Section FilterFacts.
Context {F : PyFloat}.

Lemma facet_score_total (p : Perfume.t) (f : range_facet) :
  is_Some (facet_score p f).
Proof.
  destruct f; cbn [facet_score].
  - by apply (score_of_total Rating calculate_rating_score).
  - by apply (score_of_total Longevity calculate_longevity_score).
  - by apply (score_of_total Sillage calculate_sillage_score).
  - by apply (score_of_total Value calculate_value_score).
Qed.

(** The body of a range block, in words: include mode keeps a perfume
    that has data and is in range, exclude mode keeps every other one. *)
Lemma range_pass_iff (lo hi : Q) (exclude : bool) (s : Q) :
  range_pass lo hi exclude s = true <->
  if exclude then ~ ((0 < s)%Q /\ (lo <= s)%Q /\ (s <= hi)%Q)
  else (0 < s)%Q /\ (lo <= s)%Q /\ (s <= hi)%Q.
Proof.
  unfold range_pass.
  pose proof (Qlt_bool_iff 0 s) as Hd.
  pose proof (Qle_bool_iff lo s) as Hl.
  pose proof (Qle_bool_iff s hi) as Hh.
  destruct exclude, (Qlt_bool 0 s), (Qle_bool lo s), (Qle_bool s hi);
    simpl; intuition congruence.
Qed.

Lemma range_block_facet (config : FilterConfig) (f : range_facet)
    (score : gmap string Z -> list string -> option Q)
    (votes : gmap string Z) (keys : list string) (s : Q) :
  score votes keys = Some s ->
  range_block (facet_min config f) (facet_max config f) (facet_full f)
    (facet_exclude config f) score votes keys
  = Some (facet_ok config f s).
Proof.
  intros Hs. unfold range_block, facet_ok, facet_active. rewrite Hs.
  by destruct (range_active _ _ _ _).
Qed.

(** [_matches_filter] keeps a perfume exactly when every block does. *)
Lemma matches_filter_closed (d : AppData) (p : Perfume.t) (config : FilterConfig)
    (sR sL sS sV : Q) :
  facet_score p OnRating = Some sR ->
  facet_score p OnLongevity = Some sL ->
  facet_score p OnSillage = Some sS ->
  facet_score p OnValue = Some sV ->
  _matches_filter d p config =
  Some (negb (negb (is_nil (brands config))
              && negb (PyStr.mem (get_brand_name d (Perfume.brand_id p))
                         (brands config)))
        && states_pass d p config
        && when_pass p config
        && facet_ok config OnRating sR
        && facet_ok config OnLongevity sL
        && facet_ok config OnSillage sS
        && facet_ok config OnValue sV
        && gender_pass p config
        && tags_pass d p config
        && votes_pass p config).
Proof.
  intros HR HL HS HV. cbn [facet_score] in HR, HL, HS, HV.
  pose proof (range_block_facet config OnRating _ _ _ sR HR) as ER.
  pose proof (range_block_facet config OnLongevity _ _ _ sL HL) as EL.
  pose proof (range_block_facet config OnSillage _ _ _ sS HS) as ES.
  pose proof (range_block_facet config OnValue _ _ _ sV HV) as EV.
  cbn [facet_min facet_max facet_full facet_exclude] in ER, EL, ES, EV.
  unfold _matches_filter.
  destruct (negb (is_nil (brands config)) && _); [done|].
  destruct (states_pass d p config); [|done].
  destruct (when_pass p config); [|done].
  rewrite ER. cbn [mbind option_bind].
  destruct (facet_ok config OnRating sR); [|done].
  rewrite EL. cbn [mbind option_bind].
  destruct (facet_ok config OnLongevity sL); [|done].
  rewrite ES. cbn [mbind option_bind].
  destruct (facet_ok config OnSillage sS); [|done].
  rewrite EV. cbn [mbind option_bind].
  destruct (facet_ok config OnValue sV); [|done].
  destruct (gender_pass p config); [|done].
  by destruct (tags_pass d p config).
Qed.

(** The filter always answers. *)
Lemma matches_filter_total (d : AppData) (p : Perfume.t) (config : FilterConfig) :
  is_Some (_matches_filter d p config).
Proof.
  destruct (facet_score_total p OnRating) as [sR HR].
  destruct (facet_score_total p OnLongevity) as [sL HL].
  destruct (facet_score_total p OnSillage) as [sS HS].
  destruct (facet_score_total p OnValue) as [sV HV].
  rewrite (matches_filter_closed d p config sR sL sS sV) by done. eauto.
Qed.

(** A kept perfume passed the block of every facet. *)
Lemma matches_filter_facet (d : AppData) (p : Perfume.t) (config : FilterConfig)
    (f : range_facet) (s : Q) :
  facet_score p f = Some s ->
  _matches_filter d p config = Some true -> facet_ok config f s = true.
Proof.
  intros Hs.
  destruct (facet_score_total p OnRating) as [sR HR].
  destruct (facet_score_total p OnLongevity) as [sL HL].
  destruct (facet_score_total p OnSillage) as [sS HS].
  destruct (facet_score_total p OnValue) as [sV HV].
  rewrite (matches_filter_closed d p config sR sL sS sV) by done.
  intros [= H]. repeat (apply andb_prop in H as [H ?]).
  destruct f; congruence.
Qed.

(** With one range facet set and everything else at its default, the
    block of that facet decides alone. *)
Lemma matches_filter_only_range (d : AppData) (p : Perfume.t) (f : range_facet)
    (lo hi : Q) (exclude : bool) (s : Q) :
  facet_score p f = Some s ->
  _matches_filter d p (only_range f lo hi exclude)
  = Some (facet_ok (only_range f lo hi exclude) f s).
Proof.
  intros Hs.
  destruct (facet_score_total p OnRating) as [sR HR].
  destruct (facet_score_total p OnLongevity) as [sL HL].
  destruct (facet_score_total p OnSillage) as [sS HS].
  destruct (facet_score_total p OnValue) as [sV HV].
  rewrite (matches_filter_closed d p _ sR sL sS sV) by done.
  f_equal. destruct f;
    repeat match goal with
           | H1 : ?x = Some _, H2 : ?x = Some _ |- _ =>
               rewrite H1 in H2; injection H2 as <-
           end;
    unfold facet_ok, facet_active, states_pass, when_pass, gender_pass,
      tags_pass, votes_pass;
    cbn; repeat rewrite andb_true_r; reflexivity.
Qed.

End FilterFacts.

(** C4: for an active score-range facet with bounds [lo, hi] and the
    community score [s] of its category, let has_data be [0 < s] and
    in_range be [lo <= s <= hi].  A perfume the filter keeps satisfies
    "has_data and in_range" in include mode and its negation in exclude
    mode; a perfume that does not is rejected; with the other facets at
    their defaults the condition is also sufficient.  So a score of 0 is
    always rejected in include mode and always passes the facet in exclude
    mode. *)
Theorem range_facet_semantics {F : PyFloat} (d : AppData) (p : Perfume.t)
    (config : FilterConfig) (f : range_facet) :
  facet_active config f = true ->
  exists s, facet_score p f = Some s /\
    let lo := facet_min config f in
    let hi := facet_max config f in
    let exclude := facet_exclude config f in
    let pass :=
      if exclude then ~ ((0 < s)%Q /\ (lo <= s)%Q /\ (s <= hi)%Q)
      else (0 < s)%Q /\ (lo <= s)%Q /\ (s <= hi)%Q in
    (_matches_filter d p config = Some true -> pass)
    /\ (~ pass -> _matches_filter d p config = Some false)
    /\ (_matches_filter d p (only_range f lo hi exclude) = Some true <-> pass)
    /\ ((s == 0)%Q ->
        if exclude then pass else _matches_filter d p config = Some false).
Proof.
  intros Hact. destruct (facet_score_total p f) as [s Hs].
  exists s. split; [done|]. cbv zeta.
  pose proof (range_pass_iff (facet_min config f) (facet_max config f)
                (facet_exclude config f) s) as Hiff.
  assert (_matches_filter d p config = Some true ->
          range_pass (facet_min config f) (facet_max config f)
            (facet_exclude config f) s = true) as Hnec.
  { intros Hm. pose proof (matches_filter_facet d p config f s Hs Hm) as Hok.
    unfold facet_ok in Hok. by rewrite Hact in Hok. }
  assert (range_pass (facet_min config f) (facet_max config f)
            (facet_exclude config f) s <> true ->
          _matches_filter d p config = Some false) as Hrej.
  { intros Hn. destruct (matches_filter_total d p config) as [[] Hb]; [|done].
    by apply Hnec in Hb. }
  split; [|split; [|split]].
  - intros Hm. apply Hiff. by apply Hnec.
  - intros Hn. apply Hrej. intros Hp. by apply Hiff in Hp.
  - rewrite (matches_filter_only_range d p f _ _ _ s Hs).
    unfold facet_ok.
    replace (facet_active (only_range f (facet_min config f) (facet_max config f)
                             (facet_exclude config f)) f)
      with (facet_active config f) by (by destruct f).
    rewrite Hact.
    replace (facet_min (only_range f _ _ _) f) with (facet_min config f)
      by (by destruct f).
    replace (facet_max (only_range f _ _ _) f) with (facet_max config f)
      by (by destruct f).
    replace (facet_exclude (only_range f _ _ _) f) with (facet_exclude config f)
      by (by destruct f).
    rewrite <- Hiff. split; [by intros [= ->] | by intros ->].
  - intros Hz. destruct (facet_exclude config f) eqn:Hex.
    + intros [Hpos _]. rewrite Hz in Hpos. by apply Qlt_irrefl in Hpos.
    + apply Hrej. intros Hp. apply Hiff in Hp as [Hpos _].
      rewrite Hz in Hpos. by apply Qlt_irrefl in Hpos.
Qed.

Lemma range_facet_semantics_witness :
  exists s,
    @facet_score exact_float (plain_perfume "No 5" "idA" []) OnRating = Some s /\
    let config := only_range OnRating 3 5 false in
    let lo := facet_min config OnRating in
    let hi := facet_max config OnRating in
    let exclude := facet_exclude config OnRating in
    let pass :=
      if exclude then ~ ((0 < s)%Q /\ (lo <= s)%Q /\ (s <= hi)%Q)
      else (0 < s)%Q /\ (lo <= s)%Q /\ (s <= hi)%Q in
    (@_matches_filter exact_float no_data (plain_perfume "No 5" "idA" []) config
     = Some true -> pass)
    /\ (~ pass ->
        @_matches_filter exact_float no_data (plain_perfume "No 5" "idA" []) config
        = Some false)
    /\ (@_matches_filter exact_float no_data (plain_perfume "No 5" "idA" [])
          (only_range OnRating lo hi exclude) = Some true <-> pass)
    /\ ((s == 0)%Q ->
        if exclude then pass
        else @_matches_filter exact_float no_data (plain_perfume "No 5" "idA" [])
               config = Some false).
Proof.
  apply (@range_facet_semantics exact_float no_data
           (plain_perfume "No 5" "idA" []) (only_range OnRating 3 5 false) OnRating).
  reflexivity.
Defined.

(** ** Sort *)

Lemma mapM_Some {A B : Type} (f : A -> B) (l : list A) :
  mapM (fun x => Some (f x)) l = Some (f <$> l).
Proof.
  induction l as [|x l IH]; [done|]. cbn. by rewrite IH.
Qed.

Section Rekeying.
Context {K A : Type} (ltb : K -> K -> option bool) (kf1 kf2 : A -> K).
Hypothesis same_order :
  forall x y, ltb (kf2 x) (kf2 y) = ltb (kf1 x) (kf1 y).

Lemma insert_by_rekey (x : A) (l : list A) :
  match insert_by ltb (kf1 x, x) (keyed kf1 l) with
  | Some l1 =>
      exists l', l1 = keyed kf1 l'
        /\ insert_by ltb (kf2 x, x) (keyed kf2 l) = Some (keyed kf2 l')
  | None => insert_by ltb (kf2 x, x) (keyed kf2 l) = None
  end.
Proof.
  induction l as [|y l IH]; cbn [keyed fmap list_fmap insert_by fst].
  - by exists [x].
  - fold (keyed kf1 l). fold (keyed kf2 l). rewrite same_order.
    destruct (ltb (kf1 y) (kf1 x)) as [[]|].
    + destruct (insert_by ltb (kf1 x, x) (keyed kf1 l)) as [m|]; cbn.
      * destruct IH as (l' & -> & ->). by exists (y :: l').
      * by rewrite IH.
    + by exists (x :: y :: l).
    + done.
Qed.

Lemma sort_by_rekey (l : list A) :
  match sort_by ltb (keyed kf1 l) with
  | Some l1 =>
      exists l', l1 = keyed kf1 l'
        /\ sort_by ltb (keyed kf2 l) = Some (keyed kf2 l')
  | None => sort_by ltb (keyed kf2 l) = None
  end.
Proof.
  induction l as [|x l IH]; cbn [keyed fmap list_fmap sort_by].
  - by exists [].
  - fold (keyed kf1 l). fold (keyed kf2 l).
    destruct (sort_by ltb (keyed kf1 l)) as [m|].
    + destruct IH as (l' & -> & ->). apply insert_by_rekey.
    + by rewrite IH.
Qed.

Lemma snd_keyed (kf : A -> K) (l : list A) : snd <$> keyed kf l = l.
Proof.
  unfold keyed. rewrite <- list_fmap_compose. apply list_fmap_id.
Qed.

(** Two key functions that order every pair alike sort alike. *)
Lemma py_sorted_rekey (l : list A) :
  py_sorted ltb (keyed kf2 l) = py_sorted ltb (keyed kf1 l).
Proof.
  unfold py_sorted. pose proof (sort_by_rekey l) as H.
  destruct (sort_by ltb (keyed kf1 l)) as [m|].
  - destruct H as (l' & -> & ->). by rewrite !snd_keyed.
  - by rewrite H.
Qed.

End Rekeying.

Lemma mapM_ext_Some {A B : Type} (g : A -> option B) (f : A -> B) (l : list A) :
  (forall x, g x = Some (f x)) -> mapM g l = Some (f <$> l).
Proof.
  intros Hg. induction l as [|x l IH]; [done|]. cbn. by rewrite Hg, IH.
Qed.

Section SortFacts.
Context {F : PyFloat}.

(** Sorting on one dimension whose value never raises. *)
Lemma sort_perfumes_single (d : AppData) (ps : list Perfume.t)
    (dimension order : string) (kf : Perfume.t -> list atom) :
  (forall p, _get_sort_value d p dimension order = Some (kf p)) ->
  _sort_perfumes d ps (sort_on dimension order)
  = py_sorted key_ltb (keyed (fun p => [kf p]) ps).
Proof.
  intros Hv. unfold _sort_perfumes, sort_on. cbn [dimensions].
  rewrite (mapM_ext_Some _ (fun p => ([kf p], p))); [done|].
  intros p. unfold sort_key. cbn. by rewrite Hv.
Qed.

(** The flag appended for "desc" is the same on every key, so it never
    decides a comparison. *)
Lemma flagged_key_order (a b : string) :
  key_ltb [[AStr a; ABool true]] [[AStr b; ABool true]]
  = key_ltb [[AStr a]] [[AStr b]].
Proof.
  unfold key_ltb. cbn. by destruct (String.eqb a b).
Qed.

Lemma sort_name_desc (d : AppData) (ps : list Perfume.t) :
  _sort_perfumes d ps (sort_on "name" "desc")
  = _sort_perfumes d ps (sort_on "name" "asc").
Proof.
  rewrite (sort_perfumes_single d ps "name" "desc"
             (fun p => [AStr (PyStr.lower (Perfume.name p)); ABool true]))
    by done.
  rewrite (sort_perfumes_single d ps "name" "asc"
             (fun p => [AStr (PyStr.lower (Perfume.name p))])) by done.
  apply py_sorted_rekey. intros x y. apply flagged_key_order.
Qed.

Lemma sort_brand_desc (d : AppData) (ps : list Perfume.t) :
  _sort_perfumes d ps (sort_on "brand" "desc")
  = _sort_perfumes d ps (sort_on "brand" "asc").
Proof.
  rewrite (sort_perfumes_single d ps "brand" "desc"
             (fun p => [AStr (PyStr.lower (get_brand_name d (Perfume.brand_id p)));
                        ABool true])) by done.
  rewrite (sort_perfumes_single d ps "brand" "asc"
             (fun p => [AStr (PyStr.lower (get_brand_name d (Perfume.brand_id p)))]))
    by done.
  apply py_sorted_rekey. intros x y. apply flagged_key_order.
Qed.

End SortFacts.

(** *** The sort never raises *)

Lemma atom_ltb_total (a b : atom) :
  kind_of a = kind_of b -> is_Some (atom_ltb a b).
Proof. destruct a, b; cbn; intros H; try discriminate; eauto. Qed.

Lemma tuple_atoms_ltb_total (x y : list atom) :
  map kind_of x = map kind_of y -> is_Some (tuple_ltb atom_eqb atom_ltb x y).
Proof.
  revert y. induction x as [|a x IH]; intros [|b y] H; cbn; try discriminate; eauto.
  injection H as Hab Hxy.
  destruct (atom_eqb a b); [by apply IH | by apply atom_ltb_total].
Qed.

Lemma key_ltb_total (x y : list (list atom)) :
  shape_of x = shape_of y -> is_Some (key_ltb x y).
Proof.
  unfold key_ltb, shape_of. revert y.
  induction x as [|a x IH]; intros [|b y] H; cbn; try discriminate; eauto.
  injection H as Hab Hxy.
  destruct (tuple_eqb atom_eqb a b); [by apply IH | by apply tuple_atoms_ltb_total].
Qed.

Section SortTotal.
Context {F : PyFloat}.

(** Every dimension yields a value, of the kinds its order-mode fixes. *)
Lemma get_sort_value_shape (d : AppData) (p : Perfume.t) (dimension order : string) :
  exists v, _get_sort_value d p dimension order = Some v
    /\ map kind_of v = value_shape dimension order.
Proof.
  unfold _get_sort_value, value_shape, by_score.
  destruct (String.eqb dimension "brand"); cbn [orb].
  { destruct (String.eqb order "asc"); eauto. }
  destruct (String.eqb dimension "name"); cbn [orb].
  { destruct (String.eqb order "asc"); eauto. }
  destruct (String.eqb dimension "rating").
  { destruct (score_of_total Rating calculate_rating_score
                (block_votes (Perfume.fragrantica p) "rating_votes") eq_refl)
      as [s Hs]. cbn [keys_of] in Hs. rewrite Hs. cbn.
    destruct (String.eqb order "desc"); eauto. }
  destruct (String.eqb dimension "longevity").
  { destruct (score_of_total Longevity calculate_longevity_score
                (block_votes (Perfume.fragrantica p) "longevity_votes") eq_refl)
      as [s Hs]. cbn [keys_of] in Hs. rewrite Hs. cbn.
    destruct (String.eqb order "desc"); eauto. }
  destruct (String.eqb dimension "sillage").
  { destruct (score_of_total Sillage calculate_sillage_score
                (block_votes (Perfume.fragrantica p) "sillage_votes") eq_refl)
      as [s Hs]. cbn [keys_of] in Hs. rewrite Hs. cbn.
    destruct (String.eqb order "desc"); eauto. }
  destruct (String.eqb dimension "gender").
  { destruct (score_of_total Gender calculate_gender_score
                (block_votes (Perfume.fragrantica p) "gender_votes") eq_refl)
      as [s Hs]. cbn [keys_of] in Hs. rewrite Hs. cbn.
    destruct (String.eqb order "female_first"); [eauto|].
    destruct (String.eqb order "male_first"); eauto. }
  destruct (String.eqb dimension "value").
  { destruct (score_of_total Value calculate_value_score
                (block_votes (Perfume.fragrantica p) "value_votes") eq_refl)
      as [s Hs]. cbn [keys_of] in Hs. rewrite Hs. cbn.
    destruct (String.eqb order "desc"); eauto. }
  destruct (String.eqb dimension "state"); [|eauto].
  destruct (derive_state p _). eauto.
Qed.

Lemma sort_key_shape (d : AppData) (config : SortConfig) (p : Perfume.t) :
  exists k, sort_key d config p = Some k
    /\ shape_of k = key_shape config.
Proof.
  unfold sort_key, key_shape, shape_of.
  induction (dimensions config) as [|[dim order] dims IH]; cbn; [eauto|].
  destruct (get_sort_value_shape d p dim order) as (v & -> & Hv).
  destruct IH as (k & -> & Hk). cbn. eexists. split; [done|].
  cbn. by rewrite Hv, Hk.
Qed.

Lemma insert_by_total (shape : list (list kind)) (x : list (list atom) * Perfume.t)
    (l : list (list (list atom) * Perfume.t)) :
  shape_of x.1 = shape ->
  Forall (fun y => shape_of y.1 = shape) l ->
  exists l', insert_by key_ltb x l = Some l'
    /\ Forall (fun y => shape_of y.1 = shape) l'.
Proof.
  intros Hx. induction 1 as [|y l Hy Hl IH]; cbn.
  - eexists. split; [done|]. by constructor.
  - destruct (key_ltb_total y.1 x.1) as [[] Hcmp]; [congruence| |]; rewrite Hcmp.
    + destruct IH as (l' & -> & Hl'). cbn. eexists. split; [done|].
      by constructor.
    + eexists. split; [done|]. by repeat constructor.
Qed.

Lemma sort_by_total (shape : list (list kind))
    (l : list (list (list atom) * Perfume.t)) :
  Forall (fun y => shape_of y.1 = shape) l ->
  exists l', sort_by key_ltb l = Some l'
    /\ Forall (fun y => shape_of y.1 = shape) l'.
Proof.
  induction 1 as [|x l Hx Hl IH]; cbn.
  - eexists. split; [done|]. constructor.
  - destruct IH as (l' & -> & Hl'). by apply insert_by_total.
Qed.

(** [_sort_perfumes] returns a list for every configuration: the keys of
    one configuration have one shape, so no comparison mixes a string with
    a number. *)
Lemma sort_perfumes_total (d : AppData) (ps : list Perfume.t) (config : SortConfig) :
  is_Some (_sort_perfumes d ps config).
Proof.
  unfold _sort_perfumes. destruct (dimensions config) as [|dim dims]; [eauto|].
  assert (exists keyed,
             mapM (fun p => k ← sort_key d config p; Some (k, p)) ps = Some keyed
             /\ Forall (fun y => shape_of y.1 = key_shape config) keyed)
    as (keyed & -> & Hshape).
  { induction ps as [|p ps IH]; cbn; [eauto|].
    destruct (sort_key_shape d config p) as (k & -> & Hk).
    destruct IH as (keyed & -> & Hkeyed). cbn. eexists. split; [done|].
    by constructor. }
  cbn. unfold py_sorted.
  destruct (sort_by_total _ _ Hshape) as (l' & -> & _). eauto.
Qed.

End SortTotal.

(** On a score dimension "desc" does reverse, and a later dimension breaks
    ties. *)
Example sort_rating_desc_then_name :
  option_map (map Perfume.name)
    (@_sort_perfumes exact_float no_data
       [rated_perfume "b" [("like", 2)]; rated_perfume "c" [("love", 1)];
        rated_perfume "A" [("like", 7)]]
       {| dimensions := [("rating", "desc"); ("name", "asc")] |})
  = Some ["c"; "A"; "b"].
Proof. vm_compute. reflexivity. Qed.

(** C2, as the code has it: on the name and on the brand dimension the
    order-mode "desc" sorts exactly like "asc"; sorted by [(name, desc)],
    the perfume named "a" comes before the one named "b", in whichever
    order they are given. *)
Theorem name_desc_sorts_ascending {F : PyFloat} :
  (forall d ps, _sort_perfumes d ps (sort_on "name" "desc")
                = _sort_perfumes d ps (sort_on "name" "asc"))
  /\ (forall d ps, _sort_perfumes d ps (sort_on "brand" "desc")
                   = _sort_perfumes d ps (sort_on "brand" "asc"))
  /\ _sort_perfumes no_data
       [plain_perfume "a" "" []; plain_perfume "b" "" []] (sort_on "name" "desc")
     = Some [plain_perfume "a" "" []; plain_perfume "b" "" []]
  /\ _sort_perfumes no_data
       [plain_perfume "b" "" []; plain_perfume "a" "" []] (sort_on "name" "desc")
     = Some [plain_perfume "a" "" []; plain_perfume "b" "" []].
Proof.
  split; [apply sort_name_desc|]. split; [apply sort_brand_desc|].
  split; vm_compute; reflexivity.
Qed.

(** ** Ordered dictionaries *)

Section OrderedDictFacts.
Context {V : Type}.
Implicit Types (d : list (string * V)) (k : string).

Lemma get_set_eq d k (v : V) :
  OrderedDict.get k (OrderedDict.set k v d) = Some v.
Proof.
  induction d as [|[k' v'] d IH]; cbn.
  - by rewrite String.eqb_refl.
  - destruct (String.eqb k' k) eqn:E; cbn; by rewrite E.
Qed.

Lemma get_set_ne d k k' (v : V) :
  k <> k' -> OrderedDict.get k' (OrderedDict.set k v d) = OrderedDict.get k' d.
Proof.
  intros Hne. induction d as [|[k0 v0] d IH]; cbn.
  - by apply String.eqb_neq in Hne as ->.
  - destruct (String.eqb k0 k) eqn:E; cbn; [|by rewrite IH].
    apply String.eqb_eq in E as ->.
    by apply String.eqb_neq in Hne as ->.
Qed.

Lemma get_remove_eq d k : OrderedDict.get k (OrderedDict.remove k d) = None.
Proof.
  unfold OrderedDict.remove. induction d as [|[k0 v0] d IH]; [done|].
  rewrite filter_cons. cbn. case_decide as Hk; [|done].
  cbn. by apply String.eqb_neq in Hk as ->.
Qed.

Lemma get_remove_ne d k k' :
  k <> k' -> OrderedDict.get k' (OrderedDict.remove k d) = OrderedDict.get k' d.
Proof.
  intros Hne. unfold OrderedDict.remove.
  induction d as [|[k0 v0] d IH]; [done|].
  rewrite filter_cons. cbn. case_decide as Hk; cbn.
  - by rewrite IH.
  - rewrite IH. destruct (String.eqb k0 k') eqn:E; [|done].
    apply String.eqb_eq in E. destruct Hk. congruence.
Qed.

Lemma elem_of_keys d k :
  k ∈ OrderedDict.keys d <-> is_Some (OrderedDict.get k d).
Proof.
  unfold OrderedDict.keys. induction d as [|[k0 v0] d IH]; cbn.
  - split; [by intros ?%elem_of_nil | by intros [? ?]].
  - rewrite elem_of_cons, IH. destruct (String.eqb k0 k) eqn:E.
    + apply String.eqb_eq in E as ->. split; eauto.
    + apply String.eqb_neq in E. split; [intros [->|]; done | by right].
Qed.

Lemma keys_set_present d k (v : V) :
  is_Some (OrderedDict.get k d) ->
  OrderedDict.keys (OrderedDict.set k v d) = OrderedDict.keys d.
Proof.
  unfold OrderedDict.keys. induction d as [|[k0 v0] d IH]; cbn.
  - by intros [? ?].
  - destruct (String.eqb k0 k) eqn:E; cbn; [done|].
    intros H. by rewrite IH.
Qed.

Lemma keys_remove d k :
  OrderedDict.keys (OrderedDict.remove k d)
  = filter (fun k' => k' <> k) (OrderedDict.keys d).
Proof.
  unfold OrderedDict.keys, OrderedDict.remove.
  induction d as [|[k0 v0] d IH]; [done|].
  rewrite fmap_cons, !filter_cons. cbn.
  case_decide; cbn; by rewrite IH.
Qed.

Lemma del_Some d k :
  is_Some (OrderedDict.get k d) ->
  OrderedDict.del k d = Some (OrderedDict.remove k d).
Proof. unfold OrderedDict.del. by intros [? ->]. Qed.

Context {W : Type} (f : V -> W).

Lemma get_fmap d k :
  OrderedDict.get k (prod_map id f <$> d) = f <$> OrderedDict.get k d.
Proof.
  induction d as [|[k0 v0] d IH]; cbn; [done|].
  by destruct (String.eqb k0 k).
Qed.

Lemma set_fmap d k (v : V) :
  prod_map id f <$> OrderedDict.set k v d
  = OrderedDict.set k (f v) (prod_map id f <$> d).
Proof.
  induction d as [|[k0 v0] d IH]; cbn; [done|].
  destruct (String.eqb k0 k); cbn; [done | by rewrite IH].
Qed.

Lemma remove_fmap d k :
  prod_map id f <$> OrderedDict.remove k d
  = OrderedDict.remove k (prod_map id f <$> d).
Proof.
  unfold OrderedDict.remove. induction d as [|[k0 v0] d IH]; [done|].
  rewrite fmap_cons, !filter_cons. cbn.
  case_decide; cbn; by rewrite IH.
Qed.

Lemma del_fmap d k :
  fmap (M := option) (fmap (prod_map id f)) (OrderedDict.del k d)
  = OrderedDict.del k (prod_map id f <$> d).
Proof.
  unfold OrderedDict.del. rewrite get_fmap.
  destruct (OrderedDict.get k d); cbn; [|done]. by rewrite remove_fmap.
Qed.

End OrderedDictFacts.

(** ** [dict.fromkeys] *)

Lemma elem_of_fromkeys_from (seen l : list string) (x : string) :
  x ∈ fromkeys_from seen l <-> x ∈ l /\ x ∉ seen.
Proof.
  revert seen. induction l as [|y l IH]; intros seen; cbn.
  - split; [by intros ?%elem_of_nil | by intros [?%elem_of_nil _]].
  - destruct (PyStr.mem y seen) eqn:E.
    + apply mem_true in E. rewrite IH, elem_of_cons.
      split; [tauto|]. intros [[-> | ?] ?]; tauto.
    + apply mem_false in E. rewrite !elem_of_cons, IH, not_elem_of_cons.
      split.
      * intros [-> | [? [? ?]]]; tauto.
      * intros [[-> | ?] ?]; [tauto|].
        destruct (decide (x = y)) as [-> | ?]; tauto.
Qed.

Lemma NoDup_fromkeys_from (seen l : list string) : NoDup (fromkeys_from seen l).
Proof.
  revert seen. induction l as [|y l IH]; intros seen; cbn; [constructor|].
  destruct (PyStr.mem y seen); [done|].
  constructor; [|done].
  rewrite elem_of_fromkeys_from, not_elem_of_cons. tauto.
Qed.

Lemma NoDup_fromkeys (l : list string) : NoDup (fromkeys l).
Proof. apply NoDup_fromkeys_from. Qed.

Lemma elem_of_fromkeys (l : list string) (x : string) : x ∈ fromkeys l <-> x ∈ l.
Proof.
  unfold fromkeys. rewrite elem_of_fromkeys_from.
  split; [tauto|]. intros ?. split; [done | apply not_elem_of_nil].
Qed.

(** A list without repetition is its own [fromkeys]. *)
Lemma fromkeys_from_NoDup (seen l : list string) :
  NoDup l -> (forall x, x ∈ l -> x ∉ seen) -> fromkeys_from seen l = l.
Proof.
  revert seen. induction l as [|y l IH]; intros seen Hnd Hs; cbn; [done|].
  apply NoDup_cons in Hnd as [Hy Hnd].
  assert (PyStr.mem y seen = false) as -> by (apply mem_false, Hs; left).
  f_equal. apply IH; [done|]. intros x Hx.
  rewrite not_elem_of_cons. split; [congruence | apply Hs; by right].
Qed.

Lemma fromkeys_NoDup (l : list string) : NoDup l -> fromkeys l = l.
Proof.
  intros Hnd. apply fromkeys_from_NoDup; [done|]. intros; apply not_elem_of_nil.
Qed.

(** First-seen order: an id at the end is appended when it is new and
    dropped when it was seen. *)
Lemma fromkeys_from_snoc (seen l : list string) (x : string) :
  fromkeys_from seen (l ++ [x])
  = fromkeys_from seen l ++ (if PyStr.mem x seen || PyStr.mem x l then [] else [x]).
Proof.
  revert seen. induction l as [|y l IH]; intros seen; cbn.
  - rewrite orb_false_r. by destruct (PyStr.mem x seen).
  - destruct (PyStr.mem y seen) eqn:E.
    + rewrite IH. f_equal.
      destruct (String.eqb x y) eqn:Exy; [|done].
      apply String.eqb_eq in Exy as ->. by rewrite E.
    + rewrite IH. cbn. f_equal. f_equal.
      destruct (String.eqb x y); cbn; [by rewrite orb_true_r | done].
Qed.

Lemma fromkeys_snoc (l : list string) (x : string) :
  fromkeys (l ++ [x]) = if PyStr.mem x l then fromkeys l else fromkeys l ++ [x].
Proof.
  unfold fromkeys. rewrite fromkeys_from_snoc. cbn.
  destruct (PyStr.mem x l); [apply app_nil_r | done].
Qed.

(** Removing repetitions before a substitution changes nothing once they
    are removed after it. *)
Lemma fromkeys_from_fmap (g : string -> string) (seen seen' l : list string) :
  (forall x, x ∈ seen -> g x ∈ seen') ->
  fromkeys_from seen' (g <$> fromkeys_from seen l) = fromkeys_from seen' (g <$> l).
Proof.
  revert seen seen'. induction l as [|y l IH]; intros seen seen' Hg; cbn; [done|].
  destruct (PyStr.mem y seen) eqn:E.
  - apply mem_true in E.
    assert (PyStr.mem (g y) seen' = true) as -> by (by apply mem_true, Hg).
    by apply IH.
  - cbn. destruct (PyStr.mem (g y) seen') eqn:E'.
    + apply mem_true in E'. apply IH.
      intros x [-> | Hx]%elem_of_cons; [done | by apply Hg].
    + f_equal. apply IH.
      intros x [-> | Hx]%elem_of_cons; [left | right; by apply Hg].
Qed.

Lemma fromkeys_fmap_fromkeys (g : string -> string) (l : list string) :
  fromkeys (g <$> fromkeys l) = fromkeys (g <$> l).
Proof.
  apply fromkeys_from_fmap. by intros x ?%elem_of_nil.
Qed.

(** ** The tables of the dialog *)

Lemma current_map_store_kept (t : tab) (k keep : string) (d : AppData) :
  _get_current_map t (store_kept t k keep d)
  = OrderedDict.set k (kept_item t keep) (_get_current_map t d).
Proof. destruct t; cbn; unfold named; apply set_fmap. Qed.

Lemma perfumes_store_kept (t : tab) (k keep : string) (d : AppData) :
  perfumes (store_kept t k keep d) = perfumes d.
Proof. by destruct t. Qed.

Lemma current_map_with_perfumes (t : tab) (ps : list Perfume.t) (d : AppData) :
  _get_current_map t (with_perfumes ps d) = _get_current_map t d.
Proof. by destruct t. Qed.

(** [save] stamps the perfumes and changes nothing else. *)
Lemma current_map_save (t : tab) (clock : nat -> Z) (d : AppData) :
  _get_current_map t (save clock d) = _get_current_map t d.
Proof. by destruct t. Qed.

Lemma perfumes_save (clock : nat -> Z) (d : AppData) :
  perfumes (save clock d)
  = imap (fun i p => Perfume.set_updated_at (clock i) p) (perfumes d).
Proof. done. Qed.

Lemma lookup_save (clock : nat -> Z) (d : AppData) (i : nat) :
  perfumes (save clock d) !! i
  = Perfume.set_updated_at (clock i) <$> perfumes d !! i.
Proof. rewrite perfumes_save. by rewrite list_lookup_imap. Qed.

Lemma length_save (clock : nat -> Z) (d : AppData) :
  length (perfumes (save clock d)) = length (perfumes d).
Proof. rewrite perfumes_save. apply length_imap. Qed.

Lemma refs_set_updated_at (t : tab) (v : Z) (p : Perfume.t) :
  refs_of t (Perfume.set_updated_at v p) = refs_of t p.
Proof. by destruct t. Qed.

Lemma stamp_twice (clock1 clock2 : nat -> Z) (ps : list Perfume.t) :
  imap (fun i p => Perfume.set_updated_at (clock2 i) p)
    (imap (fun i p => Perfume.set_updated_at (clock1 i) p) ps)
  = imap (fun i p => Perfume.set_updated_at (clock2 i) p) ps.
Proof.
  revert clock1 clock2. induction ps as [|p ps IH]; intros clock1 clock2;
    [done|].
  cbn [imap]. f_equal. exact (IH (clock1 ∘ S) (clock2 ∘ S)).
Qed.

Lemma save_twice (clock1 clock2 : nat -> Z) (d : AppData) :
  save clock2 (save clock1 d) = save clock2 d.
Proof.
  unfold save at 1. rewrite perfumes_save, stamp_twice.
  by destruct d.
Qed.

Lemma del_item_present (t : tab) (sid : string) (d : AppData) :
  is_Some (OrderedDict.get sid (_get_current_map t d)) ->
  exists d', del_item t sid d = Some d'
    /\ perfumes d' = perfumes d
    /\ _get_current_map t d' = OrderedDict.remove sid (_get_current_map t d).
Proof.
  destruct t; cbn; unfold named; rewrite get_fmap;
    intros H%fmap_is_Some; rewrite (del_Some _ _ H); cbn;
    (eexists; split; [reflexivity|]; split; [done|]; cbn; unfold named;
     apply remove_fmap).
Qed.

Lemma del_item_absent (t : tab) (sid : string) (d : AppData) :
  OrderedDict.get sid (_get_current_map t d) = None -> del_item t sid d = None.
Proof.
  destruct t; cbn; unfold named; rewrite get_fmap; intros H%fmap_None;
    unfold OrderedDict.del; by rewrite H.
Qed.

Lemma nontargets_cons (target sid : string) (sids : list string) :
  nontargets target (sid :: sids)
  = if String.eqb sid target then nontargets target sids
    else sid :: nontargets target sids.
Proof. unfold nontargets. cbn. by destruct (String.eqb sid target). Qed.

Lemma elem_of_nontargets (target : string) (sids : list string) (x : string) :
  x ∈ nontargets target sids <-> x ∈ sids /\ x <> target.
Proof.
  unfold nontargets. rewrite list_elem_of_In, filter_In, <- list_elem_of_In.
  rewrite negb_true_iff, String.eqb_neq. done.
Qed.

Lemma nontargets_selection (target : string) (rest : list string) :
  target ∉ rest -> nontargets target (target :: rest) = rest.
Proof.
  intros Hn. rewrite nontargets_cons, String.eqb_refl.
  unfold nontargets. induction rest as [|x rest IH]; [done|].
  apply not_elem_of_cons in Hn as [Hne Hn]. cbn.
  assert (String.eqb x target = false) as -> by (apply String.eqb_neq; congruence).
  cbn. by rewrite IH.
Qed.

Lemma filter_all {A : Type} (P : A -> Prop) `{!forall x, Decision (P x)}
    (l : list A) :
  (forall x, P x) -> filter P l = l.
Proof.
  intros HP. induction l as [|x l IH]; [done|].
  by rewrite filter_cons_True, IH.
Qed.

(** The loop of the merge succeeds on distinct ids of the table; it maps
    [redirect_all] over the perfumes and filters the merged ids out of the
    table. *)
Lemma merge_loop_ok (t : tab) (target : string) (sids : list string) (d : AppData) :
  NoDup sids ->
  (forall sid, sid ∈ sids -> sid <> target ->
     is_Some (OrderedDict.get sid (_get_current_map t d))) ->
  exists d', merge_loop t target sids d = (Completed, d')
    /\ perfumes d' = redirect_all t target sids <$> perfumes d
    /\ _get_current_map t d'
       = filter (fun kv => kv.1 ∉ nontargets target sids) (_get_current_map t d).
Proof.
  revert d. induction sids as [|sid sids IH]; intros d Hnd Hin.
  - exists d. split; [done|]. split.
    + unfold redirect_all. cbn. by rewrite list_fmap_id.
    + symmetry. apply filter_all. intros; apply not_elem_of_nil.
  - apply NoDup_cons in Hnd as [Hsid Hnd]. cbn [merge_loop].
    rewrite nontargets_cons. destruct (String.eqb sid target) eqn:E.
    + destruct (IH d Hnd) as (d' & Hd' & Hps & Hm).
      { intros s Hs. apply Hin. by right. }
      exists d'. split; [done|]. split; [|done].
      rewrite Hps. apply list_fmap_ext. intros i p _.
      unfold redirect_all. cbn. by rewrite E.
    + apply String.eqb_neq in E.
      destruct (del_item_present t sid
                  (with_perfumes (redirect_perfume t sid target <$> perfumes d) d))
        as (d2 & Hdel & Hps2 & Hm2).
      { rewrite current_map_with_perfumes. apply Hin; [left | done]. }
      rewrite Hdel. rewrite current_map_with_perfumes in Hm2.
      destruct (IH d2 Hnd) as (d' & Hd' & Hps & Hm).
      { intros s Hs Hst. rewrite Hm2, get_remove_ne by congruence.
        apply Hin; [by right | done]. }
      exists d'. split; [done|]. split.
      * rewrite Hps, Hps2. cbn. rewrite <- list_fmap_compose.
        apply list_fmap_ext. intros i p _. unfold redirect_all. cbn.
        by apply String.eqb_neq in E as ->.
      * rewrite Hm, Hm2. unfold OrderedDict.remove.
        rewrite list_filter_filter. apply list_filter_iff.
        intros [k v]. cbn. rewrite not_elem_of_cons. tauto.
Qed.

(** One pass, read on the ids of the table's field. *)
Lemma refs_redirect (t : tab) (sid target : string) (p : Perfume.t) :
  refs_of t (redirect_perfume t sid target p)
  = if list_valued t then merge_ids sid target (refs_of t p)
    else substitute sid target (refs_of t p).
Proof.
  destruct t; cbn; unfold merge_ids.
  - by destruct (String.eqb (Perfume.brand_id p) sid).
  - by destruct (PyStr.mem sid (Perfume.tag_ids p)).
  - by destruct (String.eqb (Perfume.concentration_id p) sid).
  - by destruct (PyStr.mem sid (Perfume.outlet_ids p)).
  - unfold substitute. rewrite <- !list_fmap_compose.
    apply list_fmap_ext. intros i e _. cbn.
    by destruct (String.eqb (Event.purchase_type_id e) sid).
Qed.

(** A pass leaves the ids of the other tables alone. *)
Lemma refs_redirect_other (t t' : tab) (sid target : string) (p : Perfume.t) :
  t' <> t -> refs_of t' (redirect_perfume t sid target p) = refs_of t' p.
Proof.
  intros Hne. destruct t, t'; try done; cbn;
    first [ by destruct (String.eqb _ sid) | by destruct (PyStr.mem sid _) | done ].
Qed.

Lemma id_redirect (t : tab) (sid target : string) (p : Perfume.t) :
  Perfume.id (redirect_perfume t sid target p) = Perfume.id p.
Proof.
  destruct t; cbn;
    first [ by destruct (String.eqb _ sid) | by destruct (PyStr.mem sid _) | done ].
Qed.

Lemma redirect_all_cons (t : tab) (target sid : string) (sids : list string)
    (p : Perfume.t) :
  redirect_all t target (sid :: sids) p
  = redirect_all t target sids
      (if String.eqb sid target then p else redirect_perfume t sid target p).
Proof. done. Qed.

Lemma refs_redirect_all_other (t t' : tab) (target : string) (sids : list string)
    (p : Perfume.t) :
  t' <> t -> refs_of t' (redirect_all t target sids p) = refs_of t' p.
Proof.
  intros Hne. revert p. induction sids as [|sid sids IH]; intros p; [done|].
  rewrite redirect_all_cons, IH.
  destruct (String.eqb sid target); [done | by apply refs_redirect_other].
Qed.

Lemma id_redirect_all (t : tab) (target : string) (sids : list string)
    (p : Perfume.t) :
  Perfume.id (redirect_all t target sids p) = Perfume.id p.
Proof.
  revert p. induction sids as [|sid sids IH]; intros p; [done|].
  rewrite redirect_all_cons, IH.
  destruct (String.eqb sid target); [done | apply id_redirect].
Qed.

Lemma mem_cons (x y : string) (l : list string) :
  PyStr.mem x (y :: l) = String.eqb x y || PyStr.mem x l.
Proof. done. Qed.

(** Substituting one id and then the others is substituting them all. *)
Lemma retarget_substitute (merged : list string) (sid target x : string) :
  retarget merged target (if String.eqb x sid then target else x)
  = retarget (sid :: merged) target x.
Proof.
  unfold retarget. rewrite mem_cons.
  destruct (String.eqb x sid); cbn; [|done].
  by destruct (PyStr.mem target merged).
Qed.

(** The passes over a scalar field or over the events. *)
Lemma substitute_all (target : string) (sids refs : list string) :
  foldl (fun r sid => if String.eqb sid target then r else substitute sid target r)
    refs sids
  = retarget (nontargets target sids) target <$> refs.
Proof.
  revert refs. induction sids as [|sid sids IH]; intros refs; cbn [foldl].
  - unfold retarget. cbn. by rewrite list_fmap_id.
  - rewrite IH, nontargets_cons. destruct (String.eqb sid target); [done|].
    unfold substitute. rewrite <- list_fmap_compose.
    apply list_fmap_ext. intros i x _. apply retarget_substitute.
Qed.

Lemma existsb_mem_false (merged refs : list string) :
  existsb (fun s => PyStr.mem s refs) merged = false <->
  forall s, s ∈ merged -> s ∉ refs.
Proof.
  split.
  - intros H s Hs. apply mem_false.
    destruct (PyStr.mem s refs) eqn:E; [|done].
    assert (existsb (fun s => PyStr.mem s refs) merged = true) as H'; [|congruence].
    apply existsb_exists. exists s. split; [by apply list_elem_of_In | done].
  - intros H. apply not_true_is_false. intros (s & Hs & Hm)%existsb_exists.
    apply mem_true in Hm. apply list_elem_of_In in Hs. by apply (H s).
Qed.

(** The passes over a list field. *)
Lemma merge_ids_all (target : string) (sids refs : list string) :
  foldl (fun r sid => if String.eqb sid target then r else merge_ids sid target r)
    refs sids
  = if existsb (fun s => PyStr.mem s refs) (nontargets target sids)
    then fromkeys (retarget (nontargets target sids) target <$> refs)
    else refs.
Proof.
  revert refs. induction sids as [|sid sids IH]; intros refs; cbn [foldl]; [done|].
  rewrite IH, nontargets_cons. destruct (String.eqb sid target); [done|].
  set (merged := nontargets target sids). cbn [existsb].
  unfold merge_ids. destruct (PyStr.mem sid refs) eqn:Esid; cbn [orb].
  - destruct (existsb _ merged) eqn:Ex.
    + unfold substitute. rewrite fromkeys_fmap_fromkeys, <- list_fmap_compose.
      f_equal. apply list_fmap_ext. intros i x _. apply retarget_substitute.
    + unfold substitute. f_equal. apply list_fmap_ext. intros i x Hx.
      rewrite <- retarget_substitute. unfold retarget at 1.
      destruct (String.eqb x sid) eqn:Exs.
      * by destruct (PyStr.mem target merged).
      * destruct (PyStr.mem x merged) eqn:Em; [|done].
        apply mem_true in Em. apply String.eqb_neq in Exs.
        pose proof (proj1 (existsb_mem_false _ _) Ex x Em) as Hnot.
        destruct Hnot. apply elem_of_fromkeys, list_elem_of_fmap.
        exists x. split.
        { by apply String.eqb_neq in Exs as ->. }
        { apply list_elem_of_lookup. eauto. }
  - apply mem_false in Esid.
    assert (retarget (sid :: merged) target <$> refs = retarget merged target <$> refs)
      as ->; [|done].
    apply list_fmap_ext. intros i x Hx. rewrite <- retarget_substitute.
    assert (String.eqb x sid = false) as ->; [|done].
    apply String.eqb_neq. intros ->. apply Esid, list_elem_of_lookup. eauto.
Qed.

(** All passes, read on the ids of the table's field. *)
Lemma refs_redirect_all (t : tab) (target : string) (sids : list string)
    (p : Perfume.t) :
  refs_of t (redirect_all t target sids p)
  = merged_refs t (nontargets target sids) target (refs_of t p).
Proof.
  unfold merged_refs.
  destruct (list_valued t) eqn:Et.
  - rewrite <- merge_ids_all. revert p.
    induction sids as [|sid sids IH]; intros p; [done|].
    rewrite redirect_all_cons, IH. cbn [foldl].
    destruct (String.eqb sid target); [done|]. by rewrite refs_redirect, Et.
  - rewrite <- substitute_all. revert p.
    induction sids as [|sid sids IH]; intros p; [done|].
    rewrite redirect_all_cons, IH. cbn [foldl].
    destruct (String.eqb sid target); [done|]. by rewrite refs_redirect, Et.
Qed.

Lemma elem_of_retarget (merged : list string) (target : string)
    (refs : list string) (y : string) :
  y ∈ retarget merged target <$> refs <->
  (y = target /\ exists x, x ∈ merged /\ x ∈ refs) \/ (y ∈ refs /\ y ∉ merged).
Proof.
  rewrite list_elem_of_fmap. unfold retarget. split.
  - intros (x & -> & Hx). destruct (PyStr.mem x merged) eqn:E.
    + apply mem_true in E. left. eauto.
    + apply mem_false in E. by right.
  - intros [[-> (x & Hm & Hx)] | [Hy Hn]].
    + exists x. split; [|done]. by apply mem_true in Hm as ->.
    + exists y. split; [|done]. by apply mem_false in Hn as ->.
Qed.

Lemma elem_of_merged_refs (t : tab) (merged : list string) (target : string)
    (refs : list string) (y : string) :
  y ∈ merged_refs t merged target refs <->
  (y = target /\ exists x, x ∈ merged /\ x ∈ refs) \/ (y ∈ refs /\ y ∉ merged).
Proof.
  unfold merged_refs. destruct (list_valued t).
  - destruct (existsb _ merged) eqn:Ex.
    + rewrite elem_of_fromkeys. apply elem_of_retarget.
    + pose proof (proj1 (existsb_mem_false _ _) Ex) as Hnone. split.
      * intros Hy. right. split; [done|]. intros Hm. by apply (Hnone y).
      * intros [[_ (x & Hm & Hx)] | [Hy _]]; [by apply Hnone in Hm | done].
  - apply elem_of_retarget.
Qed.

(** No merged id is left among the ids a perfume holds. *)
Lemma merged_refs_clean (t : tab) (merged : list string) (target : string)
    (refs : list string) (s : string) :
  target ∉ merged -> s ∈ merged -> s ∉ merged_refs t merged target refs.
Proof.
  intros Ht Hs. rewrite elem_of_merged_refs.
  intros [[-> _] | [_ Hn]]; done.
Qed.

(** A list field stays free of repetitions, and becomes so when it held a
    merged id. *)
Lemma merged_refs_NoDup (t : tab) (merged : list string) (target : string)
    (refs : list string) :
  list_valued t = true ->
  NoDup refs \/ (exists x, x ∈ merged /\ x ∈ refs) ->
  NoDup (merged_refs t merged target refs).
Proof.
  intros Ht H. unfold merged_refs. rewrite Ht.
  destruct (existsb _ merged) eqn:Ex; [apply NoDup_fromkeys|].
  destruct H as [H | (x & Hm & Hx)]; [done|].
  by apply (proj1 (existsb_mem_false _ _) Ex) in Hm.
Qed.

(** A perfume that held no merged id keeps its ids as they were. *)
Lemma merged_refs_untouched (t : tab) (merged : list string) (target : string)
    (refs : list string) :
  (forall x, x ∈ merged -> x ∉ refs) -> merged_refs t merged target refs = refs.
Proof.
  intros H. unfold merged_refs.
  assert (retarget merged target <$> refs = refs) as Hsame.
  { rewrite <- (list_fmap_id refs) at 2. apply list_fmap_ext. intros i x Hx.
    unfold retarget. destruct (PyStr.mem x merged) eqn:E; [|done].
    apply mem_true in E. destruct (H x E). apply list_elem_of_lookup. eauto. }
  destruct (list_valued t); [|done].
  by apply existsb_mem_false in H as ->.
Qed.

(** C6: merging two or more distinct ids of a table under a non-empty kept
    name (target = first id) completes, and afterwards
    - every perfume holds, in the field of that table, the ids it held with
      each merged id replaced by the target, position by position for the
      brand, the concentration and the purchase types of its events, and as
      the first occurrences in order ([fromkeys]) for a tag or outlet list
      that held a merged id; the ids of the other tables are untouched;
    - so a perfume or event that referenced a merged id references the
      target, no merged id is referenced any more, and a tag or outlet list
      has no repetition if it had none or if it held a merged id;
    - the table maps the target to the kept name (as the dialog trims it),
      holds no merged id, and maps every other id as before. *)
Theorem merge_redirects_references (t : tab) (clock : nat -> Z)
    (target : string) (rest : list string) (keep : string) (d : AppData) :
  rest <> [] ->
  NoDup (target :: rest) ->
  (forall sid, sid ∈ target :: rest ->
     sid ∈ OrderedDict.keys (_get_current_map t d)) ->
  keep <> "" ->
  exists d',
    _merge_selected t clock (target :: rest) (Some keep) d = (Completed, d')
    /\ length (perfumes d') = length (perfumes d)
    /\ (forall i p, perfumes d !! i = Some p ->
          exists p', perfumes d' !! i = Some p'
            /\ Perfume.id p' = Perfume.id p
            /\ refs_of t p' = merged_refs t rest target (refs_of t p)
            /\ (forall t', t' <> t -> refs_of t' p' = refs_of t' p)
            /\ ((exists x, x ∈ rest /\ x ∈ refs_of t p) -> target ∈ refs_of t p')
            /\ (forall sid, sid ∈ rest -> sid ∉ refs_of t p')
            /\ (list_valued t = true ->
                NoDup (refs_of t p) \/ (exists x, x ∈ rest /\ x ∈ refs_of t p) ->
                NoDup (refs_of t p')))
    /\ OrderedDict.get target (_get_current_map t d')
       = Some (kept_item t (PyStr.strip keep))
    /\ (forall sid, sid ∈ rest ->
          OrderedDict.get sid (_get_current_map t d') = None)
    /\ (forall k, k ∉ target :: rest ->
          OrderedDict.get k (_get_current_map t d')
          = OrderedDict.get k (_get_current_map t d)).
Proof.
  intros Hrest Hnd Hkeys Hkeep.
  pose proof Hnd as [Htarget Hnd']%NoDup_cons.
  set (d0 := store_kept t target (PyStr.strip keep) d).
  assert (_merge_selected t clock (target :: rest) (Some keep) d
          = then_save clock (merge_loop t target (target :: rest) d0)) as Hrun.
  { unfold _merge_selected. destruct rest as [|r rest']; [done|].
    cbn [length Nat.ltb Nat.leb]. by destruct keep. }
  destruct (merge_loop_ok t target (target :: rest) d0 Hnd)
    as (d1 & Hloop & Hps & Hmap).
  { intros sid Hsid Hne. unfold d0.
    rewrite current_map_store_kept, get_set_ne by congruence.
    by apply elem_of_keys, Hkeys. }
  rewrite nontargets_selection in Hmap by done.
  unfold d0 in Hps, Hmap.
  rewrite perfumes_store_kept in Hps. rewrite current_map_store_kept in Hmap.
  rewrite Hloop in Hrun. cbn [then_save] in Hrun.
  rewrite <- (current_map_save t clock d1) in Hmap.
  exists (save clock d1). split; [done|].
  split; [by rewrite length_save, Hps, length_fmap|].
  split; [|split; [|split]].
  - intros i p Hi.
    exists (Perfume.set_updated_at (clock i)
              (redirect_all t target (target :: rest) p)).
    split; [by rewrite lookup_save, Hps, list_lookup_fmap, Hi|].
    split; [apply id_redirect_all|].
    assert (refs_of t (Perfume.set_updated_at (clock i)
                         (redirect_all t target (target :: rest) p))
            = merged_refs t rest target (refs_of t p)) as Hrefs
      by (by rewrite refs_set_updated_at, refs_redirect_all,
               nontargets_selection).
    split; [done|].
    split; [intros t' Hne; rewrite refs_set_updated_at;
            by apply refs_redirect_all_other|].
    rewrite Hrefs. split; [|split].
    + intros Hx. apply elem_of_merged_refs. by left.
    + intros sid Hsid. by apply merged_refs_clean.
    + apply merged_refs_NoDup.
  - rewrite Hmap. clear Hmap Hps Hloop Hrun.
    assert (is_Some (OrderedDict.get target (_get_current_map t d))) as [v Hv]
      by (apply elem_of_keys, Hkeys; left).
    revert Hv. generalize (_get_current_map t d). intros m Hv.
    induction m as [|[k v'] m IH]; [done|]. cbn in Hv |- *.
    destruct (String.eqb k target) eqn:E.
    + apply String.eqb_eq in E as ->.
      rewrite filter_cons_True by done. cbn. by rewrite String.eqb_refl.
    + rewrite filter_cons. case_decide; cbn; [rewrite E|]; by apply IH.
  - intros sid Hsid. rewrite Hmap.
    generalize (OrderedDict.set target (kept_item t (PyStr.strip keep))
                  (_get_current_map t d)). intros m.
    induction m as [|[k v] m IH]; [done|].
    rewrite filter_cons. case_decide as Hk; cbn in Hk |- *; [|done].
    rewrite IH. assert (String.eqb k sid = false) as ->; [|done].
    apply String.eqb_neq. congruence.
  - intros k Hk. apply not_elem_of_cons in Hk as [Hkt Hkr]. rewrite Hmap.
    rewrite <- (get_set_ne (_get_current_map t d) target k
                  (kept_item t (PyStr.strip keep))) by congruence.
    generalize (OrderedDict.set target (kept_item t (PyStr.strip keep))
                  (_get_current_map t d)). intros m.
    induction m as [|[k0 v] m IH]; [done|].
    rewrite filter_cons. case_decide as Hk0; cbn in Hk0 |- *.
    + by rewrite IH.
    + rewrite IH. assert (String.eqb k0 k = false) as ->; [|done].
      apply String.eqb_neq. intros ->. tauto.
Qed.

Lemma merge_redirects_references_witness :
  exists d',
    _merge_selected Brands (fun _ => 0) ["idA"; "idB"] (Some "Chanel") shelf
    = (Completed, d')
    /\ length (perfumes d') = length (perfumes shelf)
    /\ (forall i p, perfumes shelf !! i = Some p ->
          exists p', perfumes d' !! i = Some p'
            /\ Perfume.id p' = Perfume.id p
            /\ refs_of Brands p' = merged_refs Brands ["idB"] "idA" (refs_of Brands p)
            /\ (forall t', t' <> Brands -> refs_of t' p' = refs_of t' p)
            /\ ((exists x, x ∈ ["idB"] /\ x ∈ refs_of Brands p) ->
                "idA" ∈ refs_of Brands p')
            /\ (forall sid, sid ∈ ["idB"] -> sid ∉ refs_of Brands p')
            /\ (list_valued Brands = true ->
                NoDup (refs_of Brands p)
                \/ (exists x, x ∈ ["idB"] /\ x ∈ refs_of Brands p) ->
                NoDup (refs_of Brands p')))
    /\ OrderedDict.get "idA" (_get_current_map Brands d')
       = Some (kept_item Brands (PyStr.strip "Chanel"))
    /\ (forall sid, sid ∈ ["idB"] ->
          OrderedDict.get sid (_get_current_map Brands d') = None)
    /\ (forall k, k ∉ ["idA"; "idB"] ->
          OrderedDict.get k (_get_current_map Brands d')
          = OrderedDict.get k (_get_current_map Brands shelf)).
Proof.
  apply (merge_redirects_references Brands (fun _ => 0) "idA" ["idB"] "Chanel"
           shelf).
  - discriminate.
  - apply NoDup_cons. split; [|apply NoDup_singleton].
    intros H%list_elem_of_singleton. discriminate.
  - intros sid Hsid. apply elem_of_keys.
    apply elem_of_cons in Hsid as [-> | Hsid]; [vm_compute; eauto|].
    apply list_elem_of_singleton in Hsid as ->. vm_compute. eauto.
  - discriminate.
Defined.

(** The claim of C6 does not hold as it is worded: merging the tags t1 and
    t2 of [shelf] under the name " citrus " leaves the tag list of P3, which
    held neither, with its repetition, and stores the trimmed name. *)
Lemma merge_keeps_untouched_repetition :
  let d' := (_merge_selected Tags (fun _ => 0) ["t1"; "t2"] (Some " citrus ")
               shelf).2 in
  (exists p, p ∈ perfumes d' /\ ~ NoDup (Perfume.tag_ids p))
  /\ OrderedDict.get "t1" (tags_map d') <> Some " citrus ".
Proof.
  split.
  - exists (plain_perfume "P3" "idC" ["x"; "x"]). split.
    + vm_compute. do 2 right. left.
    + cbn. intros [Hx _]%NoDup_cons. apply Hx. left.
  - vm_compute. discriminate.
Qed.

(** C9, as the code has it: a merge of a single id is turned away with a
    warning before any name is asked for, and nothing changes: not the
    table, not the name stored for the id, not a perfume or an event. *)
Theorem merge_of_one_id_changes_nothing (t : tab) (clock : nat -> Z)
    (item_id : string) (keep : option string) (d : AppData) :
  _merge_selected t clock [item_id] keep d
  = (Warned "Select Multiple" ["Please select 2 or more items to merge."], d).
Proof. reflexivity. Qed.

(** The claim of C9 does not hold as it is worded: after merging the single
    brand idA of [shelf] under the name "Chanel", the table still maps idA
    to "Chanell". *)
Lemma merge_of_one_id_keeps_old_name :
  let d' := (_merge_selected Brands (fun _ => 0) ["idA"] (Some "Chanel")
               shelf).2 in
  OrderedDict.get "idA" (_get_current_map Brands d') = Some (Name "Chanell")
  /\ OrderedDict.get "idA" (_get_current_map Brands d')
     <> Some (kept_item Brands "Chanel").
Proof.
  split; [reflexivity | vm_compute; discriminate].
Qed.

(** ** Usage counts and deletion *)

Lemma count_if_pos {A : Type} (test : A -> bool) (l : list A) :
  0 < count_if test l <-> exists x, x ∈ l /\ test x = true.
Proof.
  unfold count_if. induction l as [|y l IH]; cbn.
  - split; [lia | by intros (x & ?%elem_of_nil & _)].
  - destruct (test y) eqn:E; cbn.
    + split; [|lia]. intros _. exists y. split; [left | done].
    + rewrite IH. split.
      * intros (x & Hx & Ht). exists x. split; [by right | done].
      * intros (x & [-> | Hx]%elem_of_cons & Ht); [congruence | eauto].
Qed.

Lemma count_if_app {A : Type} (test : A -> bool) (l1 l2 : list A) :
  count_if test (l1 ++ l2) = count_if test l1 + count_if test l2.
Proof.
  unfold count_if. rewrite List.filter_app, length_app. lia.
Qed.

Lemma count_if_fmap {A B : Type} (g : A -> B) (test : B -> bool) (l : list A) :
  count_if test (g <$> l) = count_if (fun x => test (g x)) l.
Proof.
  unfold count_if. induction l as [|x l IH]; [done|]. cbn.
  destruct (test (g x)); cbn; lia.
Qed.

Lemma count_if_bind {A B : Type} (g : A -> list B) (test : B -> bool) (l : list A) :
  count_if test (l ≫= g)
  = foldr (fun x acc => count_if test (g x) + acc) 0 l.
Proof.
  induction l as [|x l IH]; [done|]. cbn. by rewrite count_if_app, IH.
Qed.

(** [_count_usage] counts, for a tag or an outlet, the perfumes whose list
    holds the id, and for a brand, a concentration or a purchase type, the
    perfumes or events whose field is the id. *)
Lemma count_usage_refs (t : tab) (item_id : string) (d : AppData) :
  _count_usage t item_id d
  = if list_valued t
    then count_if (fun p => PyStr.mem item_id (refs_of t p)) (perfumes d)
    else count_if (fun x => String.eqb x item_id) (perfumes d ≫= refs_of t).
Proof.
  destruct t; cbn [_count_usage list_valued refs_of]; try done.
  - rewrite count_if_bind. unfold count_if.
    induction (perfumes d) as [|p ps IH]; [done|]. cbn.
    destruct (String.eqb (Perfume.brand_id p) item_id); cbn in *; lia.
  - rewrite count_if_bind. unfold count_if.
    induction (perfumes d) as [|p ps IH]; [done|]. cbn.
    destruct (String.eqb (Perfume.concentration_id p) item_id); cbn in *; lia.
  - rewrite !count_if_bind.
    induction (perfumes d) as [|p ps IH]; [done|]. cbn.
    by rewrite IH, count_if_fmap.
Qed.

(** An id is in use exactly when some perfume holds it. *)
Lemma count_usage_pos (t : tab) (item_id : string) (d : AppData) :
  0 < _count_usage t item_id d <->
  exists p, p ∈ perfumes d /\ item_id ∈ refs_of t p.
Proof.
  rewrite count_usage_refs. destruct (list_valued t).
  - rewrite count_if_pos. by setoid_rewrite mem_true.
  - rewrite count_if_pos. split.
    + intros (x & (p & Hx & Hp)%list_elem_of_bind & ->%String.eqb_eq). eauto.
    + intros (p & Hp & Hx). exists item_id.
      split; [apply list_elem_of_bind; eauto | apply String.eqb_refl].
Qed.

Lemma count_usage_perfumes (t : tab) (k : string) (d1 d2 : AppData) :
  perfumes d1 = perfumes d2 -> _count_usage t k d1 = _count_usage t k d2.
Proof. intros H. destruct t; cbn; by rewrite H. Qed.

Lemma count_if_imap {A B : Type} (f : nat -> A -> B) (test : B -> bool)
    (test' : A -> bool) (l : list A) :
  (forall i x, test (f i x) = test' x) ->
  count_if test (imap f l) = count_if test' l.
Proof.
  revert f. induction l as [|x l IH]; intros f Hf; [done|].
  cbn [imap]. unfold count_if in *. cbn. rewrite Hf.
  destruct (test' x); cbn [length]; rewrite ?Nat2Z.inj_succ;
    rewrite (IH (f ∘ S)); auto; intros i y; apply Hf.
Qed.

Lemma bind_imap {A B : Type} (f : nat -> A -> A) (g : A -> list B) (l : list A) :
  (forall i x, g (f i x) = g x) -> imap f l ≫= g = l ≫= g.
Proof.
  revert f. induction l as [|x l IH]; intros f Hf; [done|].
  cbn. rewrite Hf. f_equal. apply (IH (f ∘ S)). intros i y. apply Hf.
Qed.

(** The stamp of [save] changes no usage count. *)
Lemma count_usage_save (t : tab) (k : string) (clock : nat -> Z) (d : AppData) :
  _count_usage t k (save clock d) = _count_usage t k d.
Proof.
  rewrite !count_usage_refs, perfumes_save. destruct (list_valued t).
  - apply count_if_imap. intros i p. by rewrite refs_set_updated_at.
  - f_equal. apply bind_imap. intros i p. apply refs_set_updated_at.
Qed.

(** C7: deleting an id that is in use is turned away with a warning that
    names the item and its usage count, and nothing changes; deleting an
    id of the table that is not in use, once confirmed, removes its entry
    and nothing else, but for the time the final save stamps on every
    perfume.  The usage count of a tag or outlet is the number of
    perfumes whose list holds it; that of a brand, a concentration or a
    purchase type is the number of perfumes, or of events, whose field is
    the id. *)
Theorem delete_only_when_unused (t : tab) (clock : nat -> Z) (item_id : string)
    (d : AppData) :
  (0 < _count_usage t item_id d ->
   forall confirmed,
     _delete_selected t clock [item_id] confirmed d
     = (Warned "Cannot Delete"
          ["Still in use:"; "";
           _get_item_name t item_id d +:+ " ("
           +:+ PyStr.of_Z (_count_usage t item_id d) +:+ ")"], d))
  /\ (_count_usage t item_id d = 0 ->
      item_id ∈ OrderedDict.keys (_get_current_map t d) ->
      exists d',
        _delete_selected t clock [item_id] true d = (Completed, d')
        /\ perfumes d' = perfumes (save clock d)
        /\ (forall i p, perfumes d !! i = Some p ->
              perfumes d' !! i = Some (Perfume.set_updated_at (clock i) p))
        /\ (forall t' k, _count_usage t' k d' = _count_usage t' k d)
        /\ _get_current_map t d' = OrderedDict.remove item_id (_get_current_map t d)
        /\ OrderedDict.get item_id (_get_current_map t d') = None
        /\ forall k, k <> item_id ->
             OrderedDict.get k (_get_current_map t d')
             = OrderedDict.get k (_get_current_map t d))
  /\ _count_usage t item_id d
     = (if list_valued t
        then count_if (fun p => PyStr.mem item_id (refs_of t p)) (perfumes d)
        else count_if (fun x => String.eqb x item_id) (perfumes d ≫= refs_of t))
  /\ (0 < _count_usage t item_id d <->
      exists p, p ∈ perfumes d /\ item_id ∈ refs_of t p).
Proof.
  split; [|split; [|split; [apply count_usage_refs | apply count_usage_pos]]].
  - intros Hused confirmed. unfold _delete_selected, used_items.
    cbn [omap list_omap]. cbv zeta.
    apply Z.ltb_lt in Hused. by rewrite Hused.
  - intros Hunused Hin. apply elem_of_keys in Hin.
    destruct (del_item_present t item_id d Hin) as (d1 & Hdel & Hps & Hm).
    exists (save clock d1). split.
    + unfold _delete_selected, used_items, unused_items.
      cbn [omap list_omap delete_loop]. cbv zeta.
      rewrite Hunused. cbn. by rewrite Hdel.
    + split; [by rewrite !perfumes_save, Hps|].
      split; [intros i p Hi; by rewrite lookup_save, Hps, Hi|].
      split.
      { intros t' k. rewrite count_usage_save.
        by apply count_usage_perfumes. }
      rewrite current_map_save, Hm. split; [done|]. split.
      * apply get_remove_eq.
      * intros k Hk. by apply get_remove_ne.
Qed.

Lemma delete_only_when_unused_witness :
  (_delete_selected Brands (fun _ => 1700000000) ["idA"] true shelf
   = (Warned "Cannot Delete" ["Still in use:"; ""; "Chanell (1)"], shelf))
  /\ (exists d',
        _delete_selected Brands (fun _ => 1700000000) ["idD"] true shelf
        = (Completed, d')
        /\ perfumes d' = perfumes (save (fun _ => 1700000000) shelf)
        /\ OrderedDict.get "idD" (_get_current_map Brands d') = None).
Proof.
  split.
  - destruct (delete_only_when_unused Brands (fun _ => 1700000000) "idA" shelf)
      as (Hused & _).
    apply (Hused eq_refl true).
  - destruct (delete_only_when_unused Brands (fun _ => 1700000000) "idD" shelf)
      as (_ & Hunused & _).
    destruct Hunused as (d' & Hrun & Hps & _ & _ & _ & Hgone & _).
    + reflexivity.
    + apply elem_of_keys. vm_compute. eauto.
    + exists d'. by repeat split.
Defined.

(** * Further properties of the code *)

(** A list of distinct literals has no repetition. *)
Ltac distinct_literals :=
  repeat (apply NoDup_cons_2;
          [ let H := fresh in
            intros H;
            repeat (apply elem_of_cons in H as [H | H]; [discriminate|]);
            by apply elem_of_nil in H
          | ]);
  apply NoDup_nil_2.

(** ** Normalization and sample size *)

Lemma vote_le_total (votes : gmap string Z) (keys : list string) (k : string) :
  (forall k', k' ∈ keys -> 0 <= vote_count votes k') ->
  k ∈ keys -> vote_count votes k <= total_votes votes keys.
Proof.
  induction keys as [|k0 keys IH]; intros Hnn Hk; [by apply elem_of_nil in Hk|].
  cbn. assert (0 <= vote_count votes k0) by (apply Hnn; left).
  assert (0 <= total_votes votes keys)
    by (apply total_votes_nonneg; intros; apply Hnn; by right).
  apply elem_of_cons in Hk as [-> | Hk]; [lia|].
  assert (vote_count votes k <= total_votes votes keys)
    by (apply IH; [intros; apply Hnn; by right | done]).
  lia.
Qed.

(** The maximum is a count of some key and bounds every count. *)
Lemma max_votes_spec (votes : gmap string Z) (keys : list string) :
  keys <> [] ->
  exists m, max_votes votes keys = Some m
    /\ (forall k, k ∈ keys -> vote_count votes k <= m)
    /\ (exists k, k ∈ keys /\ vote_count votes k = m).
Proof.
  induction keys as [|k0 keys IH]; [done|]. intros _. cbn.
  destruct keys as [|k1 keys'].
  - cbn. exists (vote_count votes k0). split; [done|]. split.
    + intros k ->%list_elem_of_singleton. lia.
    + exists k0. split; [left | done].
  - destruct IH as (m & -> & Hub & (km & Hkm & Hm)); [done|].
    eexists. split; [done|]. split.
    + intros k [-> | Hk]%elem_of_cons; [lia|]. specialize (Hub k Hk). lia.
    + destruct (Z.max_spec (vote_count votes k0) m) as [[_ ->] | [_ ->]].
      * exists km. split; [by right | done].
      * exists k0. split; [left | done].
Qed.

Section NormalizeFacts.
Context {F : PyFloat} {L : PyFloatLaws F}.

(** X1: with non-negative counts, [normalize_votes_sum] returns one
    fraction per option, each between 0 and 1, the fraction of an option
    being its count over the total; when no option has a vote every
    fraction is 0. *)
Theorem normalize_sum_fractions (votes : gmap string Z) (keys : list string) :
  (forall k, k ∈ keys -> 0 <= vote_count votes k) ->
  length (normalize_votes_sum votes keys) = length keys
  /\ Forall (fun x => (0 <= x <= 1)%Q) (normalize_votes_sum votes keys)
  /\ (total_votes votes keys = 0 ->
      Forall (fun x => x = 0%Q) (normalize_votes_sum votes keys))
  /\ (0 < total_votes votes keys ->
      forall i k, keys !! i = Some k ->
        normalize_votes_sum votes keys !! i
        = Some (true_div (vote_count votes k) (total_votes votes keys))).
Proof.
  intros Hnn. unfold normalize_votes_sum.
  pose proof (total_votes_nonneg _ _ Hnn) as H0.
  destruct (Z.leb_spec (total_votes votes keys) 0) as [Hz | Hpos].
  - split; [apply length_replicate|]. split; [|split].
    + apply Forall_replicate. split; [apply Qle_refl | vm_compute; discriminate].
    + intros _. by apply Forall_replicate.
    + lia.
  - split; [apply length_fmap|]. split; [|split].
    + apply Forall_fmap, Forall_forall. intros k Hk. cbn.
      apply (true_div_bounds _ _ 0 1); [done | | vm_compute; discriminate
                                        | vm_compute; discriminate].
      pose proof (vote_le_total votes keys k Hnn Hk).
      specialize (Hnn k Hk). lia.
    + lia.
    + intros _ i k Hi. by rewrite list_lookup_fmap, Hi.
Qed.

(** X2: with non-negative counts, [normalize_votes_max] returns one
    fraction per option, each between 0 and 1, and when some option has a
    vote an option with the highest count has the fraction 1. *)
Theorem normalize_max_fractions (votes : gmap string Z) (keys : list string) :
  (forall k, k ∈ keys -> 0 <= vote_count votes k) ->
  length (normalize_votes_max votes keys) = length keys
  /\ Forall (fun x => (0 <= x <= 1)%Q) (normalize_votes_max votes keys)
  /\ ((exists k, k ∈ keys /\ 0 < vote_count votes k) ->
      exists i k x, keys !! i = Some k
        /\ (forall k', k' ∈ keys -> vote_count votes k' <= vote_count votes k)
        /\ normalize_votes_max votes keys !! i = Some x /\ (x == 1)%Q).
Proof.
  intros Hnn. unfold normalize_votes_max, max_votes_or_zero.
  destruct keys as [|k0 keys'] eqn:Hkeys.
  { cbn. split; [done|]. split; [constructor|].
    by intros (k & ?%elem_of_nil & _). }
  rewrite <- Hkeys in *. assert (keys <> []) as Hne by (by rewrite Hkeys).
  clear Hkeys.
  destruct (max_votes_spec votes keys Hne) as (m & -> & Hub & (km & Hkm & Hm)).
  change (default 0 (Some m)) with m.
  destruct (Z.leb_spec m 0) as [Hz | Hpos].
  - split; [apply length_replicate|]. split.
    + apply Forall_replicate. split; [apply Qle_refl | vm_compute; discriminate].
    + intros (k & Hk & Hkpos). specialize (Hub k Hk). lia.
  - split; [apply length_fmap|]. split.
    + apply Forall_fmap, Forall_forall. intros k Hk. cbn.
      apply (true_div_bounds _ _ 0 1); [done | | vm_compute; discriminate
                                        | vm_compute; discriminate].
      specialize (Hub k Hk). specialize (Hnn k Hk). lia.
    + intros _. apply list_elem_of_lookup in Hkm as [i Hi].
      exists i, km, (true_div (vote_count votes km) m).
      split; [done|]. split; [intros k' Hk'; rewrite Hm; by apply Hub|].
      split; [by rewrite list_lookup_fmap, Hi|].
      rewrite Hm. apply Qle_antisym;
        apply (true_div_bounds m m 1 1); first [lia | vm_compute; discriminate].
Qed.

End NormalizeFacts.


Lemma normalize_sum_fractions_witness :
  length (@normalize_votes_sum exact_float
            (tally [("love", 3); ("ok", 1)]) RATING_5) = length RATING_5
  /\ Forall (fun x => (0 <= x <= 1)%Q)
       (@normalize_votes_sum exact_float (tally [("love", 3); ("ok", 1)]) RATING_5).
Proof.
  destruct (@normalize_sum_fractions exact_float exact_float_laws
              (tally [("love", 3); ("ok", 1)]) RATING_5) as (Hlen & Hall & _).
  - intros k _. apply vote_count_tally_nonneg. repeat constructor; simpl; lia.
  - by split.
Defined.

Lemma normalize_max_fractions_witness :
  length (@normalize_votes_max exact_float
            (tally [("spring", 80); ("day", 100)]) SEASON_TIME_6)
  = length SEASON_TIME_6
  /\ Forall (fun x => (0 <= x <= 1)%Q)
       (@normalize_votes_max exact_float
          (tally [("spring", 80); ("day", 100)]) SEASON_TIME_6).
Proof.
  destruct (@normalize_max_fractions exact_float exact_float_laws
              (tally [("spring", 80); ("day", 100)]) SEASON_TIME_6)
    as (Hlen & Hall & _).
  - intros k _. apply vote_count_tally_nonneg. repeat constructor; simpl; lia.
  - by split.
Defined.


(** ** More on the scores *)

Lemma total_votes_only (votes : gmap string Z) (keys : list string) (k : string) :
  NoDup keys -> k ∈ keys ->
  (forall k', k' ∈ keys -> k' <> k -> vote_count votes k' = 0) ->
  total_votes votes keys = vote_count votes k.
Proof.
  induction keys as [|k0 keys IH]; intros Hnd Hk Hz; [by apply elem_of_nil in Hk|].
  apply NoDup_cons in Hnd as [Hk0 Hnd]. cbn.
  apply elem_of_cons in Hk as [-> | Hk].
  - rewrite total_votes_zero; [lia|]. intros k' Hk'. apply Hz; [by right|].
    intros ->. done.
  - rewrite (Hz k0); [|left | intros ->; done].
    rewrite IH; [lia | done | done |]. intros k' Hk' Hne. apply Hz; [by right | done].
Qed.

Lemma weighted_sum_zero (votes weights : gmap string Z) (keys : list string) :
  (forall k, k ∈ keys -> vote_count votes k = 0) ->
  (forall k, k ∈ keys -> is_Some (weights !! k)) ->
  weighted_sum votes weights keys = Some 0.
Proof.
  induction keys as [|k0 keys IH]; intros Hz Hw; [done|]. cbn.
  destruct (Hw k0) as [w ->]; [left|]. cbn.
  rewrite IH; [| intros; apply Hz; by right | intros; apply Hw; by right].
  cbn. rewrite (Hz k0) by left. done.
Qed.

Lemma weighted_sum_only (votes weights : gmap string Z) (keys : list string)
    (k : string) (w : Z) :
  NoDup keys -> k ∈ keys ->
  (forall k', k' ∈ keys -> k' <> k -> vote_count votes k' = 0) ->
  (forall k', k' ∈ keys -> is_Some (weights !! k')) ->
  weights !! k = Some w ->
  weighted_sum votes weights keys = Some (vote_count votes k * w).
Proof.
  induction keys as [|k0 keys IH]; intros Hnd Hk Hz Hall Hw;
    [by apply elem_of_nil in Hk|].
  apply NoDup_cons in Hnd as [Hk0 Hnd]. cbn.
  apply elem_of_cons in Hk as [-> | Hk].
  - rewrite Hw. cbn. rewrite weighted_sum_zero.
    + cbn. f_equal. lia.
    + intros k' Hk'. apply Hz; [by right|]. intros ->. done.
    + intros; apply Hall; by right.
  - destruct (Hall k0) as [w0 ->]; [left|]. cbn.
    rewrite IH; [| done | done | | intros; apply Hall; by right | done].
    + cbn. rewrite (Hz k0); [f_equal; lia | left | intros ->; done].
    + intros k' Hk' Hne. apply Hz; [by right | done].
Qed.

Lemma rating_weights_lookup (keys : list string) (i : nat) (k : string) :
  NoDup keys -> length keys = 5%nat -> keys !! i = Some k ->
  exists weights, rating_weights keys = Some weights
    /\ weights !! k = Some (5 - Z.of_nat i)
    /\ forall k', k' ∈ keys -> is_Some (weights !! k').
Proof.
  intros Hnd Hlen Hi.
  destruct (rating_weights_bounds keys Hlen) as (weights & Hw & Hall).
  exists weights. split; [done|]. split; [|intros k' Hk'; by destruct (Hall k' Hk') as (? & -> & _)].
  destruct keys as [|k0 [|k1 [|k2 [|k3 [|k4 [|? ?]]]]]]; try discriminate.
  cbn in Hw. injection Hw as <-.
  apply NoDup_cons in Hnd as [H0 Hnd]. apply NoDup_cons in Hnd as [H1 Hnd].
  apply NoDup_cons in Hnd as [H2 Hnd]. apply NoDup_cons in Hnd as [H3 _].
  repeat match goal with
         | H : _ ∉ _ :: _ |- _ => apply not_elem_of_cons in H as [? H]
         end.
  destruct i as [|[|[|[|[|i]]]]]; cbn in Hi; try discriminate; injection Hi as <-;
    repeat (rewrite lookup_insert_ne by congruence);
    rewrite lookup_insert_eq; f_equal; lia.
Qed.

Section ScoreMore.
Context {F : PyFloat} {L : PyFloatLaws F}.

Lemma true_div_exact (n w : Z) :
  0 < n -> Z.abs w <= 2 ^ 53 -> (true_div (n * w) n == inject_Z w)%Q.
Proof.
  intros Hn Hw. apply Qle_antisym; apply (true_div_bounds (n * w) n w w); lia.
Qed.

(** X4: when the votes of a tally all sit on one option, the option at
    0-based position [i] of a repetition-free list, the position-weighted
    score (longevity, sillage, gender, value) is [i + 1] and, on a list of
    five options, the rating score is [5 - i]. *)
Theorem single_option_score (votes : gmap string Z) (keys : list string)
    (i : nat) (k : string) :
  NoDup keys -> keys !! i = Some k ->
  Z.of_nat (length keys) <= 2 ^ 53 ->
  0 < vote_count votes k ->
  (forall k', k' ∈ keys -> k' <> k -> vote_count votes k' = 0) ->
  (exists s, position_score votes keys = Some s
     /\ (s == inject_Z (Z.of_nat i + 1))%Q)
  /\ (length keys = 5%nat ->
      exists s, calculate_rating_score votes keys = Some s
        /\ (s == inject_Z (5 - Z.of_nat i))%Q).
Proof.
  intros Hnd Hi Hlen Hpos Hz.
  assert (k ∈ keys) as Hk by (apply list_elem_of_lookup; eauto).
  pose proof (total_votes_only votes keys k Hnd Hk Hz) as Ht.
  pose proof (lookup_lt_Some _ _ _ Hi) as Hlt.
  split.
  - unfold position_score. rewrite Ht.
    destruct (Z.eqb_spec (vote_count votes k) 0) as [|_]; [lia|].
    rewrite (weighted_sum_only votes (position_weights keys) keys k
               (Z.of_nat i + 1)); [| done | done | done | |].
    + cbn. eexists. split; [done|]. apply true_div_exact; lia.
    + intros k' Hk'. unfold position_weights.
      destruct (weights_from_bounds keys 0 ∅ k' Hk') as (w & -> & _). eauto.
    + unfold position_weights. rewrite (weights_from_lookup keys 0 ∅ i k) by done.
      f_equal; lia.
  - intros H5. unfold calculate_rating_score. rewrite Ht.
    destruct (Z.eqb_spec (vote_count votes k) 0) as [|_]; [lia|].
    destruct (rating_weights_lookup keys i k Hnd H5 Hi) as (weights & -> & Hw & Hall).
    cbn. rewrite (weighted_sum_only votes weights keys k (5 - Z.of_nat i))
      by done.
    cbn. eexists. split; [done|]. apply true_div_exact; lia.
Qed.

End ScoreMore.

Lemma single_option_score_witness :
  exists s,
    @position_score exact_float (tally [("weak", 12)]) LONGEVITY_5 = Some s
    /\ (s == inject_Z (Z.of_nat 3 + 1))%Q.
Proof.
  apply (@single_option_score exact_float exact_float_laws
           (tally [("weak", 12)]) LONGEVITY_5 3 "weak").
  - unfold LONGEVITY_5. distinct_literals.
  - reflexivity.
  - vm_compute. discriminate.
  - vm_compute. reflexivity.
  - intros k' Hk' Hne. cbn in Hk'.
    repeat (apply elem_of_cons in Hk' as [-> | Hk']; [first [done | reflexivity]|]).
    by apply elem_of_nil in Hk'.
Defined.


Lemma vote_count_scaled (c : Z) (votes : gmap string Z) (k : string) :
  vote_count (scaled c votes) k = c * vote_count votes k.
Proof.
  unfold vote_count, scaled. rewrite lookup_fmap.
  destruct (votes !! k); cbn; lia.
Qed.

Lemma total_votes_scaled (c : Z) (votes : gmap string Z) (keys : list string) :
  total_votes (scaled c votes) keys = c * total_votes votes keys.
Proof.
  induction keys as [|k keys IH]; cbn; [lia|].
  rewrite vote_count_scaled, IH. lia.
Qed.

Lemma weighted_sum_scaled (c : Z) (votes weights : gmap string Z)
    (keys : list string) :
  weighted_sum (scaled c votes) weights keys
  = Z.mul c <$> weighted_sum votes weights keys.
Proof.
  induction keys as [|k keys IH]; cbn; [f_equal; lia|].
  destruct (weights !! k) as [w|]; cbn; [|done].
  rewrite IH. destruct (weighted_sum votes weights keys) as [s|]; cbn; [|done].
  rewrite vote_count_scaled. f_equal. lia.
Qed.

Section ScaleInvariance.
Context {F : PyFloat} {L : PyFloatLaws F}.

Lemma true_div_scaled (c ws total : Z) :
  c <> 0 -> total <> 0 ->
  (true_div (c * ws) (c * total) == true_div ws total)%Q.
Proof.
  intros Hc Ht. unfold true_div. apply fl_proper.
  rewrite !inject_Z_mult. field. split.
  - intros E. apply Ht. unfold Qeq in E. cbn in E. lia.
  - intros E. apply Hc. unfold Qeq in E. cbn in E. lia.
Qed.

(** X5: a score depends on the proportions of the votes only: multiplying
    every count of a tally by the same positive number leaves each of the
    five scores where it was. *)
Theorem score_scale_invariant (c : Z) (cat : category)
    (f : gmap string Z -> list string -> option Q) (votes : gmap string Z) :
  0 < c -> score_of cat = Some f ->
  exists s s', f votes (keys_of cat) = Some s
    /\ f (scaled c votes) (keys_of cat) = Some s' /\ (s == s')%Q.
Proof.
  intros Hc Hf. destruct (score_of_total cat f votes Hf) as [s Hs].
  exists s.
  assert (forall weights : option (gmap string Z),
             (let total := total_votes votes (keys_of cat) in
              if total =? 0 then Some 0%Q
              else w ← weights; ws ← weighted_sum votes w (keys_of cat);
                   Some (true_div ws total)) = Some s ->
             exists s',
               (let total := total_votes (scaled c votes) (keys_of cat) in
                if total =? 0 then Some 0%Q
                else w ← weights; ws ← weighted_sum (scaled c votes) w (keys_of cat);
                     Some (true_div ws total)) = Some s' /\ (s == s')%Q) as Hgen.
  { intros weights. cbv zeta. rewrite total_votes_scaled.
    destruct (Z.eqb_spec (total_votes votes (keys_of cat)) 0) as [Hz | Hnz].
    - rewrite Hz, Z.mul_0_r. intros [= <-]. by exists 0%Q.
    - destruct (Z.eqb_spec (c * total_votes votes (keys_of cat)) 0) as [|_]; [nia|].
      destruct weights as [w|]; cbn; [|done].
      rewrite weighted_sum_scaled.
      destruct (weighted_sum votes w (keys_of cat)) as [ws|]; cbn; [|done].
      intros [= <-]. eexists. split; [done|].
      symmetry. apply true_div_scaled; lia. }
  destruct cat; cbn [score_of] in Hf; try discriminate; injection Hf as <-.
  - destruct (Hgen (rating_weights RATING_5) Hs) as (s' & Hs' & Heq). by exists s'.
  - destruct (Hgen (Some (position_weights LONGEVITY_5)) Hs) as (s' & Hs' & Heq). by exists s'.
  - destruct (Hgen (Some (position_weights SILLAGE_4)) Hs) as (s' & Hs' & Heq). by exists s'.
  - destruct (Hgen (Some (position_weights GENDER_5)) Hs) as (s' & Hs' & Heq). by exists s'.
  - destruct (Hgen (Some (position_weights VALUE_5)) Hs) as (s' & Hs' & Heq). by exists s'.
Qed.

End ScaleInvariance.

Lemma score_scale_invariant_witness :
  exists s s',
    @calculate_value_score exact_float
      (tally [("good", 2); ("fair", 1)]) (keys_of Value) = Some s
    /\ @calculate_value_score exact_float
         (scaled 10 (tally [("good", 2); ("fair", 1)])) (keys_of Value) = Some s'
    /\ (s == s')%Q.
Proof.
  apply (@score_scale_invariant exact_float exact_float_laws 10 Value);
    [lia | reflexivity].
Defined.

Lemma weighted_sum_total (votes weights : gmap string Z) (keys : list string) :
  (forall k, k ∈ keys -> is_Some (weights !! k)) ->
  is_Some (weighted_sum votes weights keys).
Proof.
  induction keys as [|k keys IH]; intros Hw; cbn; [eauto|].
  destruct (Hw k) as [w ->]; [left|]. cbn.
  destruct IH as [s ->]; [intros; apply Hw; by right|]. cbn. eauto.
Qed.

Lemma position_weights_total (keys : list string) (k : string) :
  k ∈ keys -> is_Some (position_weights keys !! k).
Proof.
  intros Hk. unfold position_weights.
  destruct (weights_from_bounds keys 0 ∅ k Hk) as (w & -> & _). eauto.
Qed.

(** X6: on counts that are 0 or more the gender and value summaries
    return and never leave the option list: the result is "—" when the
    counts sum to 0; otherwise the weighted sum lies between the total and
    the total times the number of options, so the score divided out of them
    lies between 1 and that number, and the result is the display label of
    one of the options (the index computed from the score is clamped into
    the list). *)
Theorem nearest_summary_is_a_label {F : PyFloat} (votes : gmap string Z)
    (keys : list string) :
  (forall k, k ∈ keys -> 0 <= vote_count votes k) ->
  exists s, nearest_summary votes keys = Some s
    /\ (total_votes votes keys = 0 /\ s = NO_DATA
        \/ 0 < total_votes votes keys
           /\ (exists ws,
                 weighted_sum votes (position_weights keys) keys = Some ws
                 /\ total_votes votes keys <= ws
                    <= Z.of_nat (length keys) * total_votes votes keys)
           /\ exists k, k ∈ keys /\ s = display_label k).
Proof.
  intros Hnn. unfold nearest_summary.
  pose proof (total_votes_nonneg _ _ Hnn) as H0.
  destruct (Z.eqb_spec (total_votes votes keys) 0) as [Hz | Hnz].
  - exists NO_DATA. split; [done|]. by left.
  - destruct (weighted_sum_bounds votes (position_weights keys) keys
                1 (Z.of_nat (length keys)) Hnn) as (ws & Hws & Hb).
    { intros k Hk.
      destruct (weights_from_bounds keys 0 ∅ k Hk) as (w & Hw & Hwb).
      exists w. split; [done | lia]. }
    rewrite Hws. cbn [mbind option_bind].
    set (index := Z.max 0 (Z.min (Z.of_nat (length keys) - 1) _)).
    assert (keys <> []) as Hne by (intros ->; by apply Hnz).
    assert (0 < Z.of_nat (length keys)) as Hlen
      by (destruct keys; [done | cbn; lia]).
    assert (exists k, keys !! Z.to_nat index = Some k) as [k Hk].
    { apply lookup_lt_is_Some. unfold index. lia. }
    rewrite Hk. cbn. eexists. split; [done|]. right. split; [lia|].
    split; [exists ws; split; [done | lia]|].
    exists k. split; [|done]. apply list_elem_of_lookup. eauto.
Qed.

Lemma nearest_summary_is_a_label_witness :
  exists s,
    @calculate_gender_summary exact_float
      (tally [("male", 3); ("more_female", 100)]) GENDER_5 = Some s
    /\ exists k, k ∈ GENDER_5 /\ s = display_label k.
Proof.
  destruct (@nearest_summary_is_a_label exact_float
              (tally [("male", 3); ("more_female", 100)]) GENDER_5)
    as (s & Hs & Hcases).
  { intros k _. apply vote_count_tally_nonneg.
    repeat constructor; simpl; lia. }
  exists s. split; [exact Hs|].
  destruct Hcases as [[Hz _] | (_ & _ & Hk)]; [|exact Hk].
  vm_compute in Hz. discriminate Hz.
Defined.

(** ** More on the "when to wear" summary *)

Lemma first_check_no_votes (votes : gmap string Z) (k : string) :
  bool_decide (votes = ∅) || forallb (fun kv => kv.2 =? 0) (map_to_list votes) = true ->
  vote_count votes k = 0.
Proof.
  intros H. unfold vote_count. destruct (votes !! k) as [v|] eqn:Hk; [|done].
  cbn. apply orb_true_iff in H as [H | H].
  - apply bool_decide_eq_true in H. subst. by rewrite lookup_empty in Hk.
  - rewrite forallb_forall in H.
    assert (In (k, v) (map_to_list votes)) as Hin
      by (by apply list_elem_of_In, elem_of_map_to_list).
    apply H in Hin. cbn in Hin. lia.
Qed.

Section WhenSummaryMore.
Context {F : PyFloat} {L : PyFloatLaws F}.

(** The threshold never exceeds the maximum it is taken from. *)
Lemma threshold_le_max (m : Z) :
  0 < m <= 2 ^ 53 -> (threshold_of m <= inject_Z m)%Q.
Proof.
  intros Hm. unfold threshold_of. destruct lit_0_6_bounds as [_ Hhi].
  assert (fl (inject_Z m) == inject_Z m)%Q as Em by (apply fl_int; lia).
  rewrite <- Em at 2. apply fl_mono. rewrite Em.
  apply Qle_trans with (inject_Z m * 1)%Q; [|rewrite Qmult_1_r; apply Qle_refl].
  apply Qmult_le_l; [rewrite <- (Zlt_Qlt 0); lia|].
  apply Qle_trans with (5 # 8)%Q; [done | vm_compute; discriminate].
Qed.

(** X7: on the six declared options, with counts between 0 and 2^53, the
    "when to wear" summary always exists, and it is "—" exactly when no
    option has a vote: an option with the highest count always reaches
    the threshold. *)
Theorem when_summary_no_data_iff (votes : gmap string Z) :
  (forall k, k ∈ SEASON_TIME_6 -> 0 <= vote_count votes k <= 2 ^ 53) ->
  exists s, calculate_when_summary votes SEASON_TIME_6 = Some s
    /\ (s = NO_DATA <-> forall k, k ∈ SEASON_TIME_6 -> vote_count votes k = 0).
Proof.
  intros Hb. unfold calculate_when_summary.
  destruct (bool_decide (votes = ∅) || _) eqn:Hfirst.
  { exists NO_DATA. split; [done|]. split; [|done].
    intros _ k _. by apply first_check_no_votes. }
  destruct (max_votes_spec votes SEASON_TIME_6)
    as (m & Hmax & Hub & (km & Hkm & Hm)); [done|].
  rewrite Hmax. cbn [mbind option_bind].
  destruct (Z.eqb_spec m 0) as [Hz | Hnz].
  { exists NO_DATA. split; [done|]. split; [|done].
    intros _ k Hk. specialize (Hub k Hk). destruct (Hb k Hk). lia. }
  assert (0 < m <= 2 ^ 53) as Hm_range by (destruct (Hb km Hkm); lia).
  assert (~ forall k, k ∈ SEASON_TIME_6 -> vote_count votes k = 0) as Hsome.
  { intros Hall. specialize (Hall km Hkm). lia. }
  assert (exists k, k ∈ SEASON_TIME_6
            /\ Qle_bool (threshold_of m) (inject_Z (vote_count votes k)) = true)
    as Htop.
  { exists km. split; [done|]. rewrite Hm. apply Qle_bool_iff.
    by apply threshold_le_max. }
  cbv zeta. generalize dependent (threshold_of m). intros t Htop.
  clear Hfirst Hmax Hub Hm Hb Hm_range Hnz.
  assert (exists s,
             match
               List.filter (fun k => Qle_bool t (inject_Z (vote_count votes k)))
                 SEASON_TIME_6
             with
             | [] => Some NO_DATA
             | _ :: _ =>
                 season_part ←
                   (let seasons :=
                      List.filter (fun opt => PyStr.mem opt all_seasons)
                        (List.filter
                           (fun k => Qle_bool t (inject_Z (vote_count votes k)))
                           SEASON_TIME_6) in
                    if (length seasons =? 4)%nat then Some ["year-round"]
                    else if (length seasons =? 3)%nat then
                      missing ← head (List.filter
                                        (fun s => negb (PyStr.mem s seasons))
                                        all_seasons);
                      Some ["except " +:+ display_label missing]
                    else match seasons with
                         | [] => Some []
                         | _ => Some [PyStr.join ", " (display_label <$> seasons)]
                         end);
                 match
                   season_part ++
                   (let times :=
                      List.filter (fun opt => PyStr.mem opt ["day"; "night"])
                        (List.filter
                           (fun k => Qle_bool t (inject_Z (vote_count votes k)))
                           SEASON_TIME_6) in
                    if (length times =? 2)%nat then ["anytime"]
                    else match times with
                         | [] => []
                         | _ => [PyStr.join ", " (display_label <$> times)]
                         end)
                 with
                 | [] => Some NO_DATA
                 | parts => Some (PyStr.join " | " parts)
                 end
             end = Some s /\ s <> NO_DATA) as (s & Hs & Hne).
  { destruct Htop as (k & Hk & Hktop). unfold SEASON_TIME_6 in *.
    cbn [List.filter].
    destruct (Qle_bool t (inject_Z (vote_count votes "spring"))) eqn:E1,
      (Qle_bool t (inject_Z (vote_count votes "summer"))) eqn:E2,
      (Qle_bool t (inject_Z (vote_count votes "fall"))) eqn:E3,
      (Qle_bool t (inject_Z (vote_count votes "winter"))) eqn:E4,
      (Qle_bool t (inject_Z (vote_count votes "day"))) eqn:E5,
      (Qle_bool t (inject_Z (vote_count votes "night"))) eqn:E6;
      first
        [ exfalso;
          repeat (apply elem_of_cons in Hk as [-> | Hk]; [congruence|]);
          by apply elem_of_nil in Hk
        | clear; vm_compute; eexists; split; [reflexivity | discriminate] ]. }
  exists s. split; [exact Hs|]. split; [done | intros Hall; by destruct Hsome].
Qed.

End WhenSummaryMore.

Lemma when_summary_no_data_iff_witness :
  exists s,
    @calculate_when_summary exact_float even_year SEASON_TIME_6 = Some s
    /\ (s = NO_DATA <->
        forall k, k ∈ SEASON_TIME_6 -> vote_count even_year k = 0).
Proof.
  apply (@when_summary_no_data_iff exact_float exact_float_laws even_year).
  intros k _. split.
  - apply vote_count_tally_nonneg. repeat constructor; simpl; lia.
  - unfold vote_count, even_year, tally.
    destruct (list_to_map _ !! k) as [v|] eqn:Hv; cbn; [|lia].
    apply elem_of_list_to_map_2 in Hv.
    repeat (apply elem_of_cons in Hv as [Heq | Hv];
            [injection Heq as -> ->; lia|]).
    by apply elem_of_nil in Hv.
Defined.

(** ** Look-up by name *)

Section FindFacts.
Context {V : Type} (name_of : V -> string).
Implicit Types (m : list (string * V)) (k name : string).

Lemma get_elem_of m k (v : V) : OrderedDict.get k m = Some v -> (k, v) ∈ m.
Proof.
  induction m as [|[k' v'] m IH]; cbn; [done|].
  destruct (String.eqb_spec k' k) as [->|Hne].
  - intros [= ->]. apply elem_of_cons; by left.
  - intros H. apply elem_of_cons; right; auto.
Qed.

Lemma elem_of_get m k (v : V) :
  NoDup (OrderedDict.keys m) -> (k, v) ∈ m -> OrderedDict.get k m = Some v.
Proof.
  induction m as [|[k' v'] m IH]; cbn; intros Hnd Hin.
  - by apply elem_of_nil in Hin.
  - apply NoDup_cons in Hnd as [Hk' Hnd].
    apply elem_of_cons in Hin as [[= -> ->]|Hin].
    + by rewrite String.eqb_refl.
    + destruct (String.eqb_spec k' k) as [->|Hne]; [|auto].
      exfalso. apply Hk'. apply (list_elem_of_fmap_2 fst _ _ Hin).
Qed.

Lemma set_absent m k (v : V) :
  k ∉ OrderedDict.keys m -> OrderedDict.set k v m = m ++ [(k, v)].
Proof.
  induction m as [|[k' v'] m IH]; cbn; [done|].
  intros Hk. apply not_elem_of_cons in Hk as [Hne Hk].
  destruct (String.eqb_spec k' k) as [->|_]; [done|].
  by rewrite IH.
Qed.

Lemma find_by_cases name m :
  (Forall (fun kv => name_of kv.2 <> name) m /\ find_by name_of name m = "")
  \/ (exists v, (find_by name_of name m, v) ∈ m /\ name_of v = name).
Proof.
  induction m as [|[k v] m IH]; cbn.
  - left. by split.
  - destruct (String.eqb_spec (name_of v) name) as [Heq|Hne].
    + right. exists v. split; [apply elem_of_cons; by left|done].
    + destruct IH as [[Hall Hf]|(v' & Hin & Hv')].
      * left. split; [by constructor|done].
      * right. exists v'. split; [apply elem_of_cons; by right|done].
Qed.

Lemma find_by_app_absent name m m2 :
  Forall (fun kv => name_of kv.2 <> name) m ->
  find_by name_of name (m ++ m2) = find_by name_of name m2.
Proof.
  induction 1 as [|[k v] m Hne _ IH]; cbn; [done|].
  cbn in Hne. by destruct (String.eqb_spec (name_of v) name).
Qed.

Lemma find_or_create_table (fresh name : string) (v0 : V) m :
  name_of v0 = name ->
  NoDup (OrderedDict.keys m) -> "" ∉ OrderedDict.keys m ->
  fresh <> "" -> fresh ∉ OrderedDict.keys m ->
  let id := find_by name_of name m in
  found_or_created name_of m
    (if negb (String.eqb id "") then m else OrderedDict.set fresh v0 m)
    name (if negb (String.eqb id "") then id else fresh).
Proof.
  intros Hv0 Hnd Hempty Hfresh Hnew. cbn zeta.
  destruct (find_by_cases name m) as [[Hall Hf]|(v & Hin & Hv)].
  - rewrite Hf. cbn. rewrite (set_absent _ _ _ Hnew).
    split; [done|]. split.
    { exists v0. split; [|done]. rewrite <- (set_absent _ _ _ Hnew).
      apply get_set_eq. }
    split.
    { rewrite (find_by_app_absent _ _ _ Hall). cbn.
      by destruct (String.eqb_spec (name_of v0) name). }
    split.
    { intros k Hk. rewrite <- (set_absent _ _ _ Hnew). apply get_set_ne.
      intros ->. done. }
    split.
    { intros (k & v & Hget & Hv). exfalso.
      apply get_elem_of in Hget. rewrite Forall_forall in Hall.
      by apply (Hall _ Hget). }
    intros _. by exists v0.
  - assert (Hid : find_by name_of name m <> "").
    { intros Heq. apply Hempty. rewrite <- Heq.
      apply (list_elem_of_fmap_2 fst _ _ Hin). }
    destruct (String.eqb_spec (find_by name_of name m) "") as [|_]; [done|].
    cbn. split; [done|]. split.
    { exists v. split; [by apply elem_of_get|done]. }
    split; [done|]. split; [done|]. split; [done|].
    intros Hnone. exfalso. apply (Hnone _ _ (elem_of_get _ _ _ Hnd Hin) Hv).
Qed.

End FindFacts.

(** X8: asking for a brand or a tag by name gives an id that holds the
    name, whether the entry existed or is created: the id is not empty, the
    table gives the name back for it, a second request for the same name
    returns the same id and changes nothing, the entries that were there
    keep their values, and the rest of the data is untouched. A name that
    is present creates nothing; one that is absent is added at the end. *)
Theorem find_or_create_round_trip (fresh : string) (d : AppData) (name : string) :
  fresh <> "" ->
  (NoDup (OrderedDict.keys (brands_map d)) ->
   "" ∉ OrderedDict.keys (brands_map d) ->
   fresh ∉ OrderedDict.keys (brands_map d) ->
   let r := find_or_create_brand_id fresh d name in
   found_or_created id (brands_map d) (brands_map r.2) name r.1
   /\ get_brand_name r.2 r.1 = name
   /\ (forall fresh', find_or_create_brand_id fresh' r.2 name = r)
   /\ perfumes r.2 = perfumes d /\ tags_map r.2 = tags_map d
   /\ concentrations_map r.2 = concentrations_map d
   /\ outlets_map r.2 = outlets_map d
   /\ purchase_types_map r.2 = purchase_types_map d)
  /\ (NoDup (OrderedDict.keys (tags_map d)) ->
      "" ∉ OrderedDict.keys (tags_map d) ->
      fresh ∉ OrderedDict.keys (tags_map d) ->
      let r := find_or_create_tag_id fresh d name in
      found_or_created id (tags_map d) (tags_map r.2) name r.1
      /\ get_tag_name r.2 r.1 = name
      /\ (forall fresh', find_or_create_tag_id fresh' r.2 name = r)
      /\ perfumes r.2 = perfumes d /\ brands_map r.2 = brands_map d
      /\ concentrations_map r.2 = concentrations_map d
      /\ outlets_map r.2 = outlets_map d
      /\ purchase_types_map r.2 = purchase_types_map d).
Proof.
  intros Hfresh. split; intros Hnd Hempty Hnew; cbn zeta.
  - pose proof (find_or_create_table id fresh name name (brands_map d)
                  eq_refl Hnd Hempty Hfresh Hnew) as Hfc.
    cbn zeta in Hfc.
    unfold find_or_create_brand_id, find_brand_id.
    destruct (negb (String.eqb (find_by id name (brands_map d)) "")) eqn:E;
      cbn [fst snd with_brands_map brands_map perfumes tags_map
           concentrations_map outlets_map purchase_types_map].
    + split; [exact Hfc|].
      destruct Hfc as (_ & (v & Hget & Hv) & _).
      split; [unfold get_brand_name; rewrite Hget; exact Hv|].
      split; [|done]. intros fresh'. by rewrite E.
    + split; [exact Hfc|].
      destruct Hfc as (_ & (v & Hget & Hv) & Hfind & _).
      split; [unfold get_brand_name; cbn; rewrite Hget; exact Hv|].
      split; [|done]. intros fresh'.
      cbn [with_brands_map brands_map]. rewrite Hfind.
      destruct (String.eqb_spec fresh "") as [|_]; [done|]. done.
  - pose proof (find_or_create_table id fresh name name (tags_map d)
                  eq_refl Hnd Hempty Hfresh Hnew) as Hfc.
    cbn zeta in Hfc.
    unfold find_or_create_tag_id, find_tag_id.
    destruct (negb (String.eqb (find_by id name (tags_map d)) "")) eqn:E;
      cbn [fst snd with_tags_map brands_map perfumes tags_map
           concentrations_map outlets_map purchase_types_map].
    + split; [exact Hfc|].
      destruct Hfc as (_ & (v & Hget & Hv) & _).
      split; [unfold get_tag_name; rewrite Hget; exact Hv|].
      split; [|done]. intros fresh'. by rewrite E.
    + split; [exact Hfc|].
      destruct Hfc as (_ & (v & Hget & Hv) & Hfind & _).
      split; [unfold get_tag_name; cbn; rewrite Hget; exact Hv|].
      split; [|done]. intros fresh'.
      cbn [with_tags_map tags_map]. rewrite Hfind.
      destruct (String.eqb_spec fresh "") as [|_]; [done|]. done.
Qed.

Lemma find_or_create_round_trip_witness :
  let r := find_or_create_brand_id "id9" shelf "Hermes" in
  found_or_created id (brands_map shelf) (brands_map r.2) "Hermes" r.1
  /\ get_brand_name r.2 r.1 = "Hermes"
  /\ (find_or_create_brand_id "id9" shelf "Dior").1 = "idC".
Proof.
  assert (Hf : "id9" <> "") by discriminate.
  destruct (find_or_create_round_trip "id9" shelf "Hermes" Hf) as [Hb _].
  assert (Hnd : NoDup (OrderedDict.keys (brands_map shelf))).
  { cbn. distinct_literals. }
  assert (He : "" ∉ OrderedDict.keys (brands_map shelf)).
  { cbn. rewrite !not_elem_of_cons. repeat split; try discriminate.
    apply not_elem_of_nil. }
  assert (Hn : "id9" ∉ OrderedDict.keys (brands_map shelf)).
  { cbn. rewrite !not_elem_of_cons. repeat split; try discriminate.
    apply not_elem_of_nil. }
  destruct (Hb Hnd He Hn) as (H1 & H2 & _).
  split; [exact H1|]. split; [exact H2|]. reflexivity.
Defined.

(** X9: a location typed in an event form is looked up by its trimmed
    name: a blank name gives the empty id and adds nothing; any other name
    gives a non-empty id whose outlet has the trimmed name, found again by
    later look-ups, and an outlet that is created has an empty region. *)
Theorem find_or_create_outlet_trims (fresh : string) (d : AppData) (name : string) :
  fresh <> "" ->
  NoDup (OrderedDict.keys (outlets_map d)) ->
  "" ∉ OrderedDict.keys (outlets_map d) ->
  fresh ∉ OrderedDict.keys (outlets_map d) ->
  let r := find_or_create_outlet fresh d name in
  (r.1 = "" <-> PyStr.strip name = "")
  /\ (PyStr.strip name = "" -> r.2 = d)
  /\ (PyStr.strip name <> "" ->
      found_or_created outlet_name (outlets_map d) (outlets_map r.2)
        (PyStr.strip name) r.1
      /\ outlet_name (get_outlet_info r.2 r.1) = PyStr.strip name
      /\ (r.1 ∉ OrderedDict.keys (outlets_map d) ->
          get_outlet_display r.2 r.1 = PyStr.strip name)
      /\ (forall fresh', find_or_create_outlet fresh' r.2 name = r))
  /\ perfumes r.2 = perfumes d /\ brands_map r.2 = brands_map d
  /\ tags_map r.2 = tags_map d.
Proof.
  intros Hfresh Hnd Hempty Hnew. cbn zeta.
  unfold find_or_create_outlet, find_outlet_by_name.
  destruct (String.eqb_spec (PyStr.strip name) "") as [Hblank|Hname].
  { cbn. repeat split; done. }
  pose proof (find_or_create_table outlet_name fresh (PyStr.strip name)
                {| outlet_name := PyStr.strip name; outlet_region := "" |}
                (outlets_map d) eq_refl Hnd Hempty Hfresh Hnew) as Hfc.
  cbn zeta in Hfc.
  destruct (negb (String.eqb
                    (find_by outlet_name (PyStr.strip name) (outlets_map d)) ""))
    eqn:E; cbn [fst snd with_outlets_map brands_map perfumes tags_map
                concentrations_map outlets_map purchase_types_map].
  - pose proof Hfc as (Hid & (v & Hget & Hv) & Hfind & _).
    split; [split; [intros H; by rewrite H in Hid|done]|].
    split; [done|]. split; [|done]. intros _.
    split; [exact Hfc|].
    split; [unfold get_outlet_info; rewrite Hget; exact Hv|].
    split.
    { intros Hout. exfalso. apply Hout. apply elem_of_keys. by rewrite Hget. }
    intros fresh'.
    destruct (String.eqb_spec (PyStr.strip name) "") as [|_]; [done|].
    by rewrite E.
  - pose proof Hfc as (Hid & (v & Hget & Hv) & Hfind & _ & _ & _).
    split; [split; [done|done]|].
    split; [done|]. split; [|done]. intros _.
    split; [exact Hfc|].
    split; [unfold get_outlet_info; cbn; rewrite Hget; exact Hv|].
    split.
    { intros _. unfold get_outlet_display, get_outlet_info.
      cbn [with_outlets_map outlets_map]. by rewrite get_set_eq. }
    intros fresh'.
    destruct (String.eqb_spec (PyStr.strip name) "") as [|_]; [done|].
    cbn [with_outlets_map outlets_map]. rewrite Hfind.
    destruct (String.eqb_spec fresh "") as [|_]; [done|]. done.
Qed.

Lemma find_or_create_outlet_trims_witness :
  let r := find_or_create_outlet "o1" shelf "  Le Bon Marche " in
  (r.1 = "" <-> PyStr.strip "  Le Bon Marche " = "")
  /\ get_outlet_display r.2 r.1 = "Le Bon Marche".
Proof.
  assert (Hf : "o1" <> "") by discriminate.
  assert (Hnd : NoDup (OrderedDict.keys (outlets_map shelf))) by constructor.
  assert (He : "" ∉ OrderedDict.keys (outlets_map shelf)) by apply not_elem_of_nil.
  assert (Hn : "o1" ∉ OrderedDict.keys (outlets_map shelf)) by apply not_elem_of_nil.
  destruct (find_or_create_outlet_trims "o1" shelf "  Le Bon Marche " Hf Hnd He Hn)
    as (H1 & _). split; [exact H1|]. reflexivity.
Defined.

(** ** Reordering a table *)

Section TableFacts.
Context {V : Type}.
Implicit Types (m items : list (string * V)) (k : string).

Lemma get_app m1 m2 k :
  OrderedDict.get k (m1 ++ m2)
  = match OrderedDict.get k m1 with
    | Some v => Some v
    | None => OrderedDict.get k m2
    end.
Proof.
  induction m1 as [|[k' v'] m1 IH]; cbn; [done|].
  by destruct (String.eqb k' k).
Qed.

Lemma rebuild_from (acc items : list (string * V)) :
  NoDup (OrderedDict.keys (acc ++ items)) ->
  foldl (fun m kv => OrderedDict.set kv.1 kv.2 m) acc items = acc ++ items.
Proof.
  revert acc. induction items as [|[k v] items IH]; intros acc Hnd; cbn.
  - by rewrite app_nil_r.
  - rewrite set_absent.
    + rewrite IH; [by rewrite <- app_assoc|]. by rewrite <- app_assoc.
    + unfold OrderedDict.keys in Hnd. rewrite fmap_app in Hnd.
      apply NoDup_app in Hnd as (_ & Hdisj & _).
      intros Hin. apply (Hdisj _ Hin). cbn. apply elem_of_cons; by left.
Qed.

Lemma rebuild_NoDup items :
  NoDup (OrderedDict.keys items) -> rebuild items = items.
Proof. intros Hnd. unfold rebuild. by rewrite rebuild_from. Qed.

Lemma swap_adjacent (l1 l2 : list (string * V)) (a b : string * V) :
  swap_items (S (length l1)) (length l1) (l1 ++ a :: b :: l2)
  = Some (l1 ++ b :: a :: l2)
  /\ swap_items (length l1) (S (length l1)) (l1 ++ a :: b :: l2)
     = Some (l1 ++ b :: a :: l2).
Proof.
  unfold swap_items.
  assert (H0 : (l1 ++ a :: b :: l2) !! length l1 = Some a).
  { by rewrite list_lookup_middle. }
  assert (H1 : (l1 ++ a :: b :: l2) !! S (length l1) = Some b).
  { change (a :: b :: l2) with ([a] ++ b :: l2). rewrite app_assoc.
    rewrite list_lookup_middle; [done|]. rewrite length_app. cbn. lia. }
  rewrite H0, H1.
  assert (E1 : <[length l1 := b]> (l1 ++ a :: b :: l2) = l1 ++ b :: b :: l2).
  { rewrite insert_app_r_alt by lia. by rewrite Nat.sub_diag. }
  assert (E2 : <[S (length l1) := a]> (l1 ++ a :: b :: l2) = l1 ++ a :: a :: l2).
  { rewrite insert_app_r_alt by lia.
    replace (S (length l1) - length l1)%nat with 1%nat by lia. done. }
  split; f_equal.
  - rewrite E2. rewrite insert_app_r_alt by lia. by rewrite Nat.sub_diag.
  - rewrite E1. rewrite insert_app_r_alt by lia.
    replace (S (length l1) - length l1)%nat with 1%nat by lia. done.
Qed.

Lemma split_adjacent (m : list (string * V)) (j : nat) :
  (S j < length m)%nat ->
  exists l1 a b l2, m = l1 ++ a :: b :: l2 /\ length l1 = j.
Proof.
  intros Hlt.
  destruct (lookup_lt_is_Some_2 m j ltac:(lia)) as [a Ha].
  destruct (lookup_lt_is_Some_2 m (S j) Hlt) as [b Hb].
  exists (take j m), a, b, (drop (S (S j)) m). split.
  - rewrite <- (take_drop_middle m j a Ha) at 1. f_equal. f_equal.
    rewrite <- (take_drop_middle (drop (S j) m) 0 b).
    + cbn. by rewrite drop_drop, Nat.add_1_r.
    + rewrite lookup_drop. by rewrite Nat.add_0_r.
  - rewrite length_take. lia.
Qed.

Lemma swapped_keys_NoDup (l1 l2 : list (string * V)) (a b : string * V) :
  NoDup (OrderedDict.keys (l1 ++ a :: b :: l2)) ->
  NoDup (OrderedDict.keys (l1 ++ b :: a :: l2)).
Proof.
  intros Hnd. eapply NoDup_Permutation_proper; [|exact Hnd].
  unfold OrderedDict.keys. apply fmap_Permutation.
  apply Permutation_app_head. apply perm_swap.
Qed.

Lemma swapped_get (l1 l2 : list (string * V)) (a b : string * V) k :
  a.1 <> b.1 ->
  OrderedDict.get k (l1 ++ b :: a :: l2) = OrderedDict.get k (l1 ++ a :: b :: l2).
Proof.
  intros Hne. rewrite !get_app. destruct (OrderedDict.get k l1); [done|].
  destruct a as [ka va], b as [kb vb]. cbn in *.
  destruct (String.eqb_spec kb k) as [->|?], (String.eqb_spec ka k) as [->|?];
    done.
Qed.

Lemma adjacent_keys_differ (l1 l2 : list (string * V)) (a b : string * V) :
  NoDup (OrderedDict.keys (l1 ++ a :: b :: l2)) -> a.1 <> b.1.
Proof.
  unfold OrderedDict.keys. rewrite fmap_app. cbn.
  intros Hnd. apply NoDup_app in Hnd as (_ & _ & Hnd).
  apply NoDup_cons in Hnd as [Hin _]. intros Heq. apply Hin.
  rewrite Heq. apply elem_of_cons; by left.
Qed.

(** A row moved up, on a table without repeated keys: the two rows trade
    places, and moving the row down again restores the table. *)
Lemma moved_up_spec (m : list (string * V)) (idx : nat) :
  NoDup (OrderedDict.keys m) -> (0 < idx < length m)%nat ->
  exists l1 a b l2,
    m = l1 ++ a :: b :: l2 /\ length l1 = (idx - 1)%nat
    /\ moved_up idx m = Some (l1 ++ b :: a :: l2)
    /\ moved_down (idx - 1) (l1 ++ b :: a :: l2) = Some m
    /\ NoDup (OrderedDict.keys (l1 ++ b :: a :: l2))
    /\ forall k, OrderedDict.get k (l1 ++ b :: a :: l2) = OrderedDict.get k m.
Proof.
  intros Hnd Hidx.
  destruct (split_adjacent m (idx - 1) ltac:(lia)) as (l1 & a & b & l2 & -> & Hlen).
  exists l1, a, b, l2. split; [done|]. split; [done|].
  pose proof (swapped_keys_NoDup _ _ _ _ Hnd) as Hnd'.
  destruct (swap_adjacent l1 l2 a b) as [Hup _].
  destruct (swap_adjacent l1 l2 b a) as [_ Hdown].
  replace idx with (S (length l1)) by lia.
  replace (S (length l1) - 1)%nat with (length l1) by lia.
  unfold moved_up, moved_down.
  replace (S (length l1) - 1)%nat with (length l1) by lia.
  replace (length l1 + 1)%nat with (S (length l1)) by lia.
  rewrite Hup, Hdown. cbn.
  rewrite !rebuild_NoDup by done.
  split; [done|]. split; [done|]. split; [done|].
  intros k. apply swapped_get. by eapply adjacent_keys_differ.
Qed.

Lemma moved_down_spec (m : list (string * V)) (idx : nat) :
  NoDup (OrderedDict.keys m) -> (S idx < length m)%nat ->
  exists l1 a b l2,
    m = l1 ++ a :: b :: l2 /\ length l1 = idx
    /\ moved_down idx m = Some (l1 ++ b :: a :: l2)
    /\ moved_up (S idx) (l1 ++ b :: a :: l2) = Some m
    /\ NoDup (OrderedDict.keys (l1 ++ b :: a :: l2))
    /\ forall k, OrderedDict.get k (l1 ++ b :: a :: l2) = OrderedDict.get k m.
Proof.
  intros Hnd Hidx.
  destruct (split_adjacent m idx Hidx) as (l1 & a & b & l2 & -> & Hlen).
  exists l1, a, b, l2. split; [done|]. split; [done|].
  pose proof (swapped_keys_NoDup _ _ _ _ Hnd) as Hnd'.
  destruct (swap_adjacent l1 l2 a b) as [_ Hdown].
  destruct (swap_adjacent l1 l2 b a) as [Hup _].
  subst idx. unfold moved_up, moved_down.
  replace (S (length l1) - 1)%nat with (length l1) by lia.
  replace (length l1 + 1)%nat with (S (length l1)) by lia.
  rewrite Hup, Hdown. cbn.
  rewrite !rebuild_NoDup by done.
  split; [done|]. split; [done|]. split; [done|].
  intros k. apply swapped_get. by eapply adjacent_keys_differ.
Qed.

End TableFacts.

Section Natural.
Context {V W : Type} (h : V -> W).

Lemma rebuild_from_fmap (acc items : list (string * V)) :
  prod_map id h <$> foldl (fun m kv => OrderedDict.set kv.1 kv.2 m) acc items
  = foldl (fun m kv => OrderedDict.set kv.1 kv.2 m)
      (prod_map id h <$> acc) (prod_map id h <$> items).
Proof.
  revert acc. induction items as [|[k v] items IH]; intros acc; cbn; [done|].
  rewrite IH. by rewrite set_fmap.
Qed.

Lemma rebuild_fmap (items : list (string * V)) :
  prod_map id h <$> rebuild items = rebuild (prod_map id h <$> items).
Proof. unfold rebuild. by rewrite rebuild_from_fmap. Qed.

Lemma swap_items_fmap (i j : nat) (items : list (string * V)) :
  fmap (M := option) (fmap (prod_map id h)) (swap_items i j items)
  = swap_items i j (prod_map id h <$> items).
Proof.
  unfold swap_items. rewrite !list_lookup_fmap.
  destruct (items !! j) as [x|]; cbn; [|done].
  destruct (items !! i) as [y|]; cbn; [|done].
  by rewrite !list_fmap_insert.
Qed.

Lemma moved_up_fmap (idx : nat) (m : list (string * V)) :
  fmap (M := option) (fmap (prod_map id h)) (moved_up idx m)
  = moved_up idx (prod_map id h <$> m).
Proof.
  unfold moved_up. rewrite <- swap_items_fmap.
  destruct (swap_items idx (idx - 1) m); cbn; [|done].
  by rewrite rebuild_fmap.
Qed.

Lemma moved_down_fmap (idx : nat) (m : list (string * V)) :
  fmap (M := option) (fmap (prod_map id h)) (moved_down idx m)
  = moved_down idx (prod_map id h <$> m).
Proof.
  unfold moved_down. rewrite <- swap_items_fmap.
  destruct (swap_items idx (idx + 1) m); cbn; [|done].
  by rewrite rebuild_fmap.
Qed.

End Natural.

Section Payload.
Context {K A B : Type} (ltb : K -> K -> option bool) (h : A -> B).

Lemma insert_by_payload (x : K * A) (l : list (K * A)) :
  insert_by ltb (prod_map id h x) (prod_map id h <$> l)
  = fmap (M := option) (fmap (prod_map id h)) (insert_by ltb x l).
Proof.
  induction l as [|y l IH]; [done|].
  rewrite fmap_cons. destruct x as [kx ax], y as [ky ay].
  change (prod_map id h (kx, ax)) with (kx, h ax) in *.
  change (prod_map id h (ky, ay)) with (ky, h ay).
  cbn [insert_by fst]. destruct (ltb ky kx) as [[|]|]; [|done|done].
  rewrite IH. by destruct (insert_by ltb (kx, ax) l).
Qed.

Lemma sort_by_payload (l : list (K * A)) :
  sort_by ltb (prod_map id h <$> l)
  = fmap (M := option) (fmap (prod_map id h)) (sort_by ltb l).
Proof.
  induction l as [|x l IH]; [done|].
  rewrite fmap_cons. cbn [sort_by]. rewrite IH.
  destruct (sort_by ltb l) as [sorted|]; [|done].
  apply insert_by_payload.
Qed.

Lemma py_sorted_payload (l : list (K * A)) :
  py_sorted ltb (prod_map id h <$> l)
  = fmap (M := option) (fmap h) (py_sorted ltb l).
Proof.
  unfold py_sorted. rewrite sort_by_payload.
  destruct (sort_by ltb l) as [sorted|]; [|done].
  cbn. f_equal. rewrite <- !list_fmap_compose. apply list_fmap_ext.
  by intros ? [? ?] ?.
Qed.

End Payload.

Lemma sorted_table_fmap {V W : Type} (h : V -> W) (mode : string)
    (name_of : string -> string) (count_of : string -> Z)
    (m : list (string * V)) :
  fmap (M := option) (fmap (prod_map id h)) (sorted_table mode name_of count_of m)
  = sorted_table mode name_of count_of (prod_map id h <$> m).
Proof.
  unfold sorted_table.
  destruct (String.eqb mode "name").
  - rewrite <- list_fmap_compose.
    rewrite (list_fmap_ext _
               (prod_map id (prod_map id h)
                ∘ (fun kv : string * V => (AStr (PyStr.lower (name_of kv.1)), kv)))
               m) by (by intros ? [? ?] ?).
    rewrite list_fmap_compose, py_sorted_payload.
    destruct (py_sorted _ _); cbn; [|done]. by rewrite rebuild_fmap.
  - destruct (String.eqb mode "count").
    + rewrite <- list_fmap_compose.
      rewrite (list_fmap_ext _
                 (prod_map id (prod_map id h)
                  ∘ (fun kv : string * V =>
                       ([ANum (inject_Z (- count_of kv.1));
                         AStr (PyStr.lower (name_of kv.1))], kv)))
                 m) by (by intros ? [? ?] ?).
      rewrite list_fmap_compose, py_sorted_payload.
      destruct (py_sorted _ _); cbn; [|done]. by rewrite rebuild_fmap.
    + cbn. by rewrite rebuild_fmap.
Qed.

Lemma named_inj (m1 m2 : list (string * string)) : named m1 = named m2 -> m1 = m2.
Proof.
  unfold named. revert m2.
  induction m1 as [|[k v] m1 IH]; intros [|[k' v'] m2]; cbn; try done.
  intros [= -> -> H]. f_equal. by apply IH.
Qed.

Lemma outlets_inj (m1 m2 : list (string * OutletInfo)) :
  prod_map id Outlet <$> m1 = prod_map id Outlet <$> m2 -> m1 = m2.
Proof.
  revert m2.
  induction m1 as [|[k v] m1 IH]; intros [|[k' v'] m2]; cbn; try done.
  intros [= -> -> H]. f_equal. by apply IH.
Qed.

Lemma app_data_ext (d1 d2 : AppData) :
  perfumes d1 = perfumes d2 ->
  (forall t, _get_current_map t d1 = _get_current_map t d2) -> d1 = d2.
Proof.
  intros Hp Hm. destruct d1, d2. cbn in *.
  pose proof (named_inj _ _ (Hm Brands)).
  pose proof (named_inj _ _ (Hm Tags)).
  pose proof (named_inj _ _ (Hm Concentrations)).
  pose proof (outlets_inj _ _ (Hm Outlets)).
  pose proof (named_inj _ _ (Hm PurchaseTypes)).
  cbn in *. by subst.
Qed.

Lemma update_current_map_natural (t : tab)
    (f : forall V : Type, list (string * V) -> option (list (string * V)))
    (d : AppData) :
  (forall (V W : Type) (h : V -> W) (m : list (string * V)),
     fmap (M := option) (fmap (prod_map id h)) (f V m)
     = f W (prod_map id h <$> m)) ->
  match update_current_map t f d with
  | Some d' =>
      f item (_get_current_map t d) = Some (_get_current_map t d')
      /\ perfumes d' = perfumes d
      /\ (forall t', t' <> t -> _get_current_map t' d' = _get_current_map t' d)
  | None => f item (_get_current_map t d) = None
  end.
Proof.
  intros Hnat.
  destruct t; cbn [update_current_map _get_current_map]; unfold named.
  - rewrite <- (Hnat _ _ Name (brands_map d)).
    destruct (f string (brands_map d)); cbn; [|done].
    split; [done|]. split; [done|]. by intros [] ?.
  - rewrite <- (Hnat _ _ Name (tags_map d)).
    destruct (f string (tags_map d)); cbn; [|done].
    split; [done|]. split; [done|]. by intros [] ?.
  - rewrite <- (Hnat _ _ Name (concentrations_map d)).
    destruct (f string (concentrations_map d)); cbn; [|done].
    split; [done|]. split; [done|]. by intros [] ?.
  - rewrite <- (Hnat _ _ Outlet (outlets_map d)).
    destruct (f OutletInfo (outlets_map d)); cbn; [|done].
    split; [done|]. split; [done|]. by intros [] ?.
  - rewrite <- (Hnat _ _ Name (purchase_types_map d)).
    destruct (f string (purchase_types_map d)); cbn; [|done].
    split; [done|]. split; [done|]. by intros [] ?.
Qed.


Lemma tab_eq_cases (t t' : tab) : t' = t \/ t' <> t.
Proof. destruct t, t'; (by left) || (by right). Qed.

Lemma swapped_lookup {A : Type} (l1 l2 : list A) (a b : A) (i : nat) :
  (l1 ++ b :: a :: l2) !! i
  = if (i =? length l1)%nat then Some b
    else if (i =? S (length l1))%nat then Some a
    else (l1 ++ a :: b :: l2) !! i.
Proof.
  destruct (Nat.eqb_spec i (length l1)) as [->|Hne].
  { by rewrite list_lookup_middle. }
  destruct (Nat.eqb_spec i (S (length l1))) as [->|Hne'].
  { change (b :: a :: l2) with ([b] ++ a :: l2). rewrite app_assoc.
    rewrite list_lookup_middle; [done|]. rewrite length_app. cbn. lia. }
  destruct (decide (i < length l1)%nat).
  - by rewrite !lookup_app_l.
  - rewrite !lookup_app_r by lia.
    destruct (i - length l1)%nat as [|[|j]] eqn:E; [lia|lia|done].
Qed.

(** X10: moving a row of a reference table up trades it with the row
    above and loses nothing: every id keeps its value and its usage count,
    the other tables are untouched, and the perfumes change in nothing but
    the time the final save stamps on them. Moving the row down again
    gives the table back exactly: the data is what a save alone would have
    left. The first row cannot move up and the last cannot move down. *)
Theorem move_up_then_down_restores (t : tab) (clock : nat -> Z) (idx : nat)
    (d : AppData) :
  NoDup (OrderedDict.keys (_get_current_map t d)) ->
  (0 < idx < length (_get_current_map t d))%nat ->
  exists d1,
    _move_up t clock [idx] d = (Completed, d1)
    /\ perfumes d1 = perfumes (save clock d)
    /\ (forall t', t' <> t -> _get_current_map t' d1 = _get_current_map t' d)
    /\ _get_current_map t d1 !! (idx - 1)%nat = _get_current_map t d !! idx
    /\ _get_current_map t d1 !! idx = _get_current_map t d !! (idx - 1)%nat
    /\ (forall i, i <> idx -> i <> (idx - 1)%nat ->
          _get_current_map t d1 !! i = _get_current_map t d !! i)
    /\ (forall k, OrderedDict.get k (_get_current_map t d1)
                  = OrderedDict.get k (_get_current_map t d))
    /\ (forall k, _count_usage t k d1 = _count_usage t k d)
    /\ (forall clock',
          _move_down t clock' (OrderedDict.keys (_get_current_map t d1))
            [(idx - 1)%nat] d1
          = (Completed, save clock' d))
    /\ _move_up t clock [0%nat] d = (Cancelled, d)
    /\ _move_down t clock (OrderedDict.keys (_get_current_map t d))
         [(length (_get_current_map t d) - 1)%nat] d = (Cancelled, d).
Proof.
  intros Hnd Hidx.
  destruct (moved_up_spec _ idx Hnd Hidx)
    as (l1 & a & b & l2 & Hm & Hlen & Hup & Hdown & Hnd' & Hget).
  pose proof (update_current_map_natural t (fun V => moved_up idx) d
                (fun V W h m => moved_up_fmap h idx m)) as Hu.
  cbn beta in Hu. rewrite Hup in Hu.
  destruct (update_current_map t (fun V => moved_up idx) d) as [d0|] eqn:E1;
    [|done].
  destruct Hu as ([= Hcur0] & Hp0 & Hothers0).
  exists (save clock d0). unfold _move_up.
  destruct (Nat.eqb_spec idx 0) as [|_]; [lia|].
  rewrite E1. cbn [finish then_save].
  assert (Hcur : l1 ++ b :: a :: l2 = _get_current_map t (save clock d0))
    by (by rewrite current_map_save).
  assert (Hothers : forall t', t' <> t ->
            _get_current_map t' (save clock d0) = _get_current_map t' d).
  { intros t' Ht'. rewrite current_map_save. by apply Hothers0. }
  split; [done|].
  split; [by rewrite !perfumes_save, Hp0|]. split; [done|].
  assert (Ha : (l1 ++ a :: b :: l2) !! length l1 = Some a).
  { by rewrite list_lookup_middle. }
  assert (Hb : (l1 ++ a :: b :: l2) !! S (length l1) = Some b).
  { change (a :: b :: l2) with ([a] ++ b :: l2). rewrite app_assoc.
    rewrite list_lookup_middle; [done|]. rewrite length_app. cbn. lia. }
  assert (Hi1 : idx = S (length l1)) by lia.
  assert (Hi0 : (idx - 1)%nat = length l1) by lia.
  split.
  { rewrite <- Hcur, Hm, Hi0, Hi1.
    rewrite (swapped_lookup l1 l2 a b), Nat.eqb_refl. by rewrite Hb. }
  split.
  { rewrite <- Hcur, Hm, Hi0, Hi1.
    rewrite (swapped_lookup l1 l2 a b), Nat.eqb_refl.
    destruct (Nat.eqb_spec (S (length l1)) (length l1)) as [|_]; [lia|].
    by rewrite Ha. }
  split.
  { intros i Hi Hi'. rewrite <- Hcur, Hm.
    rewrite (swapped_lookup l1 l2 a b).
    destruct (Nat.eqb_spec i (length l1)) as [|_]; [lia|].
    destruct (Nat.eqb_spec i (S (length l1))) as [|_]; [lia|]. done. }
  split.
  { intros k. rewrite <- Hcur. apply Hget. }
  split.
  { intros k. rewrite count_usage_save. by apply count_usage_perfumes. }
  split.
  { intros clock'. unfold _move_down, OrderedDict.keys.
    rewrite length_fmap, <- Hcur.
    rewrite length_app. cbn [length].
    destruct (Z.leb_spec (Z.of_nat (length l1 + S (S (length l2))) - 1)
                (Z.of_nat (idx - 1))) as [Hle|_]; [lia|].
    pose proof (update_current_map_natural t (fun V => moved_down (idx - 1))
                  (save clock d0)
                  (fun V W h m => moved_down_fmap h (idx - 1) m)) as Hu2.
    cbn beta in Hu2. rewrite <- Hcur, Hdown in Hu2.
    destruct (update_current_map t (fun V => moved_down (idx - 1))
                (save clock d0)) as [d2|] eqn:E2; [|done].
    destruct Hu2 as ([= Hcur2] & Hp2 & Hothers2). cbn [finish then_save].
    f_equal. apply app_data_ext.
    - by rewrite !perfumes_save, Hp2, perfumes_save, stamp_twice, Hp0.
    - intros t'. rewrite !current_map_save.
      destruct (tab_eq_cases t t') as [->|Hne]; [done|].
      rewrite Hothers2 by done. by apply Hothers. }
  split; [done|].
  unfold _move_down, OrderedDict.keys. rewrite length_fmap.
  destruct (Z.leb_spec (Z.of_nat (length (_get_current_map t d)) - 1)
              (Z.of_nat (length (_get_current_map t d) - 1))) as [_|Hlt];
    [done|lia].
Qed.

Lemma move_up_then_down_restores_witness :
  exists d1,
    _move_up Brands (fun _ => 5) [2%nat] shelf = (Completed, d1)
    /\ OrderedDict.keys (brands_map d1) = ["idA"; "idC"; "idB"; "idD"]
    /\ _move_down Brands (fun _ => 9)
         (OrderedDict.keys (_get_current_map Brands d1)) [(2 - 1)%nat] d1
       = (Completed, save (fun _ => 9) shelf).
Proof.
  assert (Hnd : NoDup (OrderedDict.keys (_get_current_map Brands shelf))).
  { cbn. distinct_literals. }
  assert (Hidx : (0 < 2 < length (_get_current_map Brands shelf))%nat).
  { cbn. lia. }
  destruct (move_up_then_down_restores Brands (fun _ => 5) 2 shelf Hnd Hidx)
    as (d1 & Hup & _ & _ & _ & _ & _ & _ & _ & Hdown & _).
  exists d1. split; [exact Hup|]. split; [|exact (Hdown (fun _ => 9))].
  injection Hup as <-. reflexivity.
Defined.

(** ** Adding and renaming entries *)

Lemma current_map_values_named (m : list (string * string)) (name : string) :
  existsb (fun kv : string * item => item_is name kv.2) (named m) = true
  <-> Name name ∈ (snd <$> named m).
Proof.
  unfold named. induction m as [|[k v] m IH]; cbn.
  - split; [done|]. intros H. by apply elem_of_nil in H.
  - rewrite orb_true_iff, IH, elem_of_cons.
    destruct (String.eqb_spec v name) as [->|Hne]; [tauto|].
    split; [intros [|]; [done|tauto]|intros [[= ->]|]; [done|tauto]].
Qed.

Lemma current_map_values (t : tab) (d : AppData) (name : string) :
  t <> Outlets ->
  existsb (fun kv => item_is name kv.2) (_get_current_map t d) = true
  <-> Name name ∈ (snd <$> _get_current_map t d).
Proof. intros Ht. destruct t; try done; apply current_map_values_named. Qed.

Lemma kept_item_name (t : tab) (name : string) :
  t <> Outlets -> kept_item t name = Name name.
Proof. by destruct t. Qed.

Lemma others_store_kept (t t' : tab) (k keep : string) (d : AppData) :
  t' <> t -> _get_current_map t' (store_kept t k keep d) = _get_current_map t' d.
Proof. by destruct t, t'. Qed.

Lemma others_save_store_kept (t t' : tab) (clock : nat -> Z) (k keep : string)
    (d : AppData) :
  t' <> t ->
  _get_current_map t' (save clock (store_kept t k keep d))
  = _get_current_map t' d.
Proof. intros H. rewrite current_map_save. by apply others_store_kept. Qed.

(** X11: on the brand, tag, concentration and purchase-type tabs a name
    that is already in the table is refused with the "Exists" warning and
    nothing changes, so names that are distinct stay distinct; a new name
    is added, trimmed, at the end of the table under the fresh id, and the
    save that follows stamps the perfumes with its time and changes
    nothing else of them. The other tables, the entries already there and
    the usage counts are never touched. *)
Theorem add_new_keeps_names_distinct (t : tab) (clock : nat -> Z)
    (fresh : string) (name region : option string) (d : AppData) :
  t <> Outlets ->
  fresh ∉ OrderedDict.keys (_get_current_map t d) ->
  NoDup (snd <$> _get_current_map t d) ->
  let r := _add_new t clock fresh name region d in
  NoDup (snd <$> _get_current_map t r.2)
  /\ (forall k, _count_usage t k r.2 = _count_usage t k d)
  /\ (forall t', t' <> t -> _get_current_map t' r.2 = _get_current_map t' d)
  /\ (forall k, k ∈ OrderedDict.keys (_get_current_map t d) ->
        OrderedDict.get k (_get_current_map t r.2)
        = OrderedDict.get k (_get_current_map t d))
  /\ (forall n, name = Some n -> n <> "" ->
        (Name (PyStr.strip n) ∈ (snd <$> _get_current_map t d) ->
         r = (Warned "Exists" ["'" +:+ PyStr.strip n +:+ "' already exists."], d))
        /\ (Name (PyStr.strip n) ∉ (snd <$> _get_current_map t d) ->
            r.1 = Completed
            /\ _get_current_map t r.2
               = _get_current_map t d ++ [(fresh, Name (PyStr.strip n))]
            /\ perfumes r.2 = perfumes (save clock d)))
  /\ (name = None \/ name = Some "" -> r = (Cancelled, d)).
Proof.
  intros Ht Hfresh Hnd. cbn zeta.
  assert (Hcancel : name = None \/ name = Some "" ->
                    _add_new t clock fresh name region d = (Cancelled, d)).
  { intros [->| ->]; by destruct t. }
  destruct name as [n|].
  2: { rewrite Hcancel by auto. cbn [fst snd].
       do 4 (split; [done|]). split; [|done]. by intros n' [=]. }
  destruct (decide (n = "")) as [->|Hn].
  { rewrite Hcancel by auto. cbn [fst snd].
    do 4 (split; [done|]). split; [|done]. by intros n' [= <-] ?. }
  assert (Hbody :
    _add_new t clock fresh (Some n) region d
    = if existsb (fun kv => item_is (PyStr.strip n) kv.2) (_get_current_map t d)
      then (Warned "Exists" ["'" +:+ PyStr.strip n +:+ "' already exists."], d)
      else (Completed, save clock (store_kept t fresh (PyStr.strip n) d))).
  { unfold _add_new. destruct n as [|c n']; [done|]. by destruct t. }
  rewrite Hbody. clear Hbody.
  pose proof (current_map_values t d (PyStr.strip n) Ht) as Hval.
  destruct (existsb _ (_get_current_map t d)) eqn:E.
  - cbn [fst snd]. split; [done|]. split; [done|]. split; [done|].
    split; [done|]. split; [|by intros [|[=]]].
    intros n' [= <-] _. split; [done|]. intros Hout. exfalso. apply Hout.
    by apply Hval.
  - assert (Hout : Name (PyStr.strip n) ∉ (snd <$> _get_current_map t d)).
    { intros Hin. apply Hval in Hin. congruence. }
    cbn [fst snd].
    assert (Hcur : _get_current_map t
                     (save clock (store_kept t fresh (PyStr.strip n) d))
                   = _get_current_map t d ++ [(fresh, Name (PyStr.strip n))]).
    { rewrite current_map_save, current_map_store_kept, kept_item_name by done.
      by apply set_absent. }
    assert (Hps : perfumes (save clock (store_kept t fresh (PyStr.strip n) d))
                  = perfumes (save clock d)).
    { by rewrite !perfumes_save, perfumes_store_kept. }
    rewrite Hcur. split.
    { rewrite fmap_app. apply NoDup_app. split; [done|]. split.
      - intros x Hx Hx'. cbn in Hx'. apply list_elem_of_singleton in Hx'.
        by subst.
      - cbn. apply NoDup_singleton. }
    split.
    { intros k. rewrite (count_usage_perfumes t k _ _ Hps).
      apply count_usage_save. }
    split; [intros t' Hne; by apply others_save_store_kept|].
    split.
    { intros k Hk. rewrite get_app.
      apply elem_of_keys in Hk as [v ->]. done. }
    split; [|by intros [|[=]]].
    intros n' [= <-] _. split; [intros Hin; by destruct (Hout Hin)|done].
Qed.

Lemma add_new_keeps_names_distinct_witness :
  _add_new Brands (fun _ => 5) "id9" (Some " Dior ") None shelf
  = (Warned "Exists" ["'Dior' already exists."], shelf)
  /\ NoDup (snd <$> _get_current_map Brands
                      (_add_new Brands (fun _ => 5) "id9" (Some "Hermes") None
                         shelf).2).
Proof.
  assert (Ht : Brands <> Outlets) by discriminate.
  assert (Hf : "id9" ∉ OrderedDict.keys (_get_current_map Brands shelf)).
  { cbn. rewrite !not_elem_of_cons. repeat split; try discriminate.
    apply not_elem_of_nil. }
  assert (Hnd : NoDup (snd <$> _get_current_map Brands shelf)).
  { cbn. repeat (apply NoDup_cons_2;
                 [rewrite ?not_elem_of_cons; repeat split; try discriminate;
                  apply not_elem_of_nil|]).
    apply NoDup_nil_2. }
  split.
  - destruct (add_new_keeps_names_distinct Brands (fun _ => 5) "id9"
                (Some " Dior ") None shelf Ht Hf Hnd) as (_ & _ & _ & _ & H & _).
    destruct (H " Dior " eq_refl ltac:(discriminate)) as [Hin _].
    apply Hin. cbn. rewrite !elem_of_cons. right; right; left. reflexivity.
  - destruct (add_new_keeps_names_distinct Brands (fun _ => 5) "id9"
                (Some "Hermes") None shelf Ht Hf Hnd) as (H & _). exact H.
Defined.

Lemma write_entry_spec (t : tab) (clock : nat -> Z) (item_id : string)
    (it : item) (d d' : AppData) :
  item_id ∈ OrderedDict.keys (_get_current_map t d) ->
  _get_current_map t d' = OrderedDict.set item_id it (_get_current_map t d) ->
  perfumes d' = perfumes (save clock d) ->
  OrderedDict.keys (_get_current_map t d') = OrderedDict.keys (_get_current_map t d)
  /\ (forall k, k <> item_id ->
        OrderedDict.get k (_get_current_map t d')
        = OrderedDict.get k (_get_current_map t d))
  /\ (forall k, _count_usage t k d' = _count_usage t k d)
  /\ OrderedDict.get item_id (_get_current_map t d') = Some it.
Proof.
  intros Hin Hcur Hp. rewrite Hcur. split.
  { apply keys_set_present. by apply elem_of_keys. }
  split; [intros k Hk; by apply get_set_ne|].
  split.
  { intros k. rewrite (count_usage_perfumes t k _ _ Hp).
    apply count_usage_save. }
  apply get_set_eq.
Qed.

Lemma current_map_set_outlet (k : string) (o : OutletInfo) (d : AppData) :
  _get_current_map Outlets (with_outlets_map (OrderedDict.set k o (outlets_map d)) d)
  = OrderedDict.set k (Outlet o) (_get_current_map Outlets d).
Proof. cbn. apply set_fmap. Qed.

Lemma named_get (m : list (string * string)) (k : string) :
  OrderedDict.get k (named m) = Name <$> OrderedDict.get k m.
Proof. unfold named. apply get_fmap. Qed.

(** The value [_rename_selected] stores for the answers [n] and
    [region]. *)
Lemma rename_selected_cases (t : tab) (clock : nat -> Z) (item_id : string)
    (n : string) (region : option string) (d : AppData) :
  n <> "" ->
  item_id ∈ OrderedDict.keys (_get_current_map t d) ->
  let it :=
    match t with
    | Outlets => Outlet {| outlet_name := PyStr.strip n;
                           outlet_region := PyStr.strip (default "" region) |}
    | _ => Name (PyStr.strip n)
    end in
  let r := _rename_selected t clock [item_id] (Some n) region d in
  (t <> Outlets /\ OrderedDict.get item_id (_get_current_map t d) = Some it
   /\ r = (Cancelled, d))
  \/ ((t = Outlets \/ OrderedDict.get item_id (_get_current_map t d) <> Some it)
      /\ r.1 = Completed
      /\ _get_current_map t r.2 = OrderedDict.set item_id it (_get_current_map t d)
      /\ perfumes r.2 = perfumes (save clock d)
      /\ forall t', t' <> t -> _get_current_map t' r.2 = _get_current_map t' d).
Proof.
  intros Hn Hin. cbn zeta. apply elem_of_keys in Hin as [v Hv].
  destruct n as [|c n]; [done|].
  destruct (tab_eq_cases Outlets t) as [->|Ht].
  - unfold _rename_selected. cbn [_get_current_map] in Hv.
    rewrite get_fmap in Hv.
    destruct (OrderedDict.get item_id (outlets_map d)) as [o|]; [|done].
    right. split; [by left|]. split; [done|]. cbn [fst snd].
    split; [rewrite current_map_save; apply current_map_set_outlet|].
    split; [done|].
    by intros [] ?.
  - assert (Hname : exists s, v = Name s).
    { destruct t; try done; cbn [_get_current_map] in Hv;
        rewrite named_get in Hv;
        (destruct (OrderedDict.get item_id _) as [s|]; [|done]);
        exists s; cbn in Hv; congruence. }
    destruct Hname as [s ->].
    assert (Hbody :
      _rename_selected t clock [item_id] (Some (String c n)) region d
      = if String.eqb (PyStr.strip (String c n)) s then (Cancelled, d)
        else (Completed,
              save clock (store_kept t item_id (PyStr.strip (String c n)) d))).
    { unfold _rename_selected. destruct t; try done; by rewrite Hv. }
    rewrite Hbody.
    assert (Hit : match t with
                  | Outlets =>
                      Outlet {| outlet_name := PyStr.strip (String c n);
                                outlet_region := PyStr.strip (default "" region) |}
                  | _ => Name (PyStr.strip (String c n))
                  end = Name (PyStr.strip (String c n))) by (by destruct t).
    rewrite Hit.
    destruct (String.eqb_spec (PyStr.strip (String c n)) s) as [<-|Hne].
    + left. split; [done|]. split; [done|done].
    + right. split; [right; congruence|]. split; [done|].
      cbn [fst snd].
      split; [by rewrite current_map_save, current_map_store_kept,
                kept_item_name|].
      split; [by rewrite !perfumes_save, perfumes_store_kept|].
      intros t' Ht'. by apply others_save_store_kept.
Qed.

Lemma rename_selected_cancel (t : tab) (clock : nat -> Z) (item_id : string)
    (region : option string) (d : AppData) :
  item_id ∈ OrderedDict.keys (_get_current_map t d) ->
  _rename_selected t clock [item_id] None region d = (Cancelled, d)
  /\ _rename_selected t clock [item_id] (Some "") region d = (Cancelled, d).
Proof.
  intros Hin. apply elem_of_keys in Hin as [v Hv]. unfold _rename_selected.
  destruct (tab_eq_cases Outlets t) as [->|Ht]; [|by destruct t].
  cbn in Hv. rewrite get_fmap in Hv.
  by destruct (OrderedDict.get item_id (outlets_map d)).
Qed.

(** X12: renaming a selected entry changes the value of that one id and
    nothing else in the tables: the table keeps its ids in the same order,
    every other id keeps its value, all usage counts are the same, and so
    are the other tables; the save that ends a completed rename stamps the
    perfumes with its time and changes nothing else of them. The new
    value is the trimmed answer (with the trimmed region on the outlet
    tab); on the name tabs an answer that trims to the current name
    changes nothing at all, and neither does an empty or cancelled
    answer. *)
Theorem rename_changes_one_entry (t : tab) (clock : nat -> Z) (item_id : string)
    (n : string) (region : option string) (d : AppData) :
  n <> "" ->
  item_id ∈ OrderedDict.keys (_get_current_map t d) ->
  let it :=
    match t with
    | Outlets => Outlet {| outlet_name := PyStr.strip n;
                           outlet_region := PyStr.strip (default "" region) |}
    | _ => Name (PyStr.strip n)
    end in
  let r := _rename_selected t clock [item_id] (Some n) region d in
  OrderedDict.keys (_get_current_map t r.2) = OrderedDict.keys (_get_current_map t d)
  /\ OrderedDict.get item_id (_get_current_map t r.2) = Some it
  /\ (forall k, k <> item_id ->
        OrderedDict.get k (_get_current_map t r.2)
        = OrderedDict.get k (_get_current_map t d))
  /\ (forall k, _count_usage t k r.2 = _count_usage t k d)
  /\ (forall t', t' <> t -> _get_current_map t' r.2 = _get_current_map t' d)
  /\ (r.1 = Completed
      <-> t = Outlets
          \/ OrderedDict.get item_id (_get_current_map t d) <> Some it)
  /\ (r.1 = Completed -> perfumes r.2 = perfumes (save clock d))
  /\ (r.1 <> Completed -> r = (Cancelled, d))
  /\ _rename_selected t clock [item_id] None region d = (Cancelled, d)
  /\ _rename_selected t clock [item_id] (Some "") region d = (Cancelled, d).
Proof.
  intros Hn Hin. cbn zeta.
  destruct (rename_selected_cases t clock item_id n region d Hn Hin)
    as [(Ht & Hsame & ->)|(Hwhen & Hdone & Hcur & Hp & Hothers)]; cbn zeta in *.
  - cbn [fst snd]. do 5 (split; [done|]).
    split; [split; [done|intros [|]; done]|].
    split; [done|]. split; [done|]. by apply rename_selected_cancel.
  - destruct (write_entry_spec t clock item_id _ d _ Hin Hcur Hp)
      as (Hk & Hget & Hcount & Hit).
    do 5 (split; [done|]).
    split; [split; done|]. split; [done|]. split; [done|].
    by apply rename_selected_cancel.
Qed.

Lemma rename_changes_one_entry_witness :
  let r := _rename_selected Brands (fun _ => 5) ["idA"] (Some " Chanel ") None
             shelf in
  OrderedDict.keys (_get_current_map Brands r.2)
  = OrderedDict.keys (_get_current_map Brands shelf)
  /\ OrderedDict.get "idA" (_get_current_map Brands r.2) = Some (Name "Chanel")
  /\ perfumes r.2 = perfumes (save (fun _ => 5) shelf).
Proof.
  assert (Hn : " Chanel " <> "") by discriminate.
  assert (Hin : "idA" ∈ OrderedDict.keys (_get_current_map Brands shelf)).
  { cbn. apply elem_of_cons. by left. }
  destruct (rename_changes_one_entry Brands (fun _ => 5) "idA" " Chanel " None
              shelf Hn Hin) as (H1 & H2 & _ & _ & _ & _ & H7 & _).
  split; [exact H1|]. split; [exact H2|]. apply H7. reflexivity.
Defined.

(** ** Order of a sorted list *)

Section SortOrder.
Context {K A : Type} (ltb : K -> K -> option bool).

Lemma insert_by_Permutation (x : K * A) (l l' : list (K * A)) :
  insert_by ltb x l = Some l' -> l' ≡ₚ x :: l.
Proof.
  revert l'. induction l as [|y l IH]; intros l'; cbn.
  - by intros [= <-].
  - destruct (ltb y.1 x.1) as [[|]|]; [|by intros [= <-]|done].
    destruct (insert_by ltb x l) as [l''|]; [|done].
    intros [= <-]. rewrite (IH l'' eq_refl). apply perm_swap.
Qed.

Lemma sort_by_Permutation (l l' : list (K * A)) :
  sort_by ltb l = Some l' -> l' ≡ₚ l.
Proof.
  revert l'. induction l as [|x l IH]; intros l'; cbn.
  - by intros [= <-].
  - destruct (sort_by ltb l) as [sorted|]; [|done].
    intros H. rewrite (insert_by_Permutation _ _ _ H). by rewrite (IH sorted).
Qed.

Lemma py_sorted_Permutation (l : list (K * A)) (l' : list A) :
  py_sorted ltb l = Some l' -> l' ≡ₚ snd <$> l.
Proof.
  unfold py_sorted. destruct (sort_by ltb l) as [sorted|] eqn:E; [|done].
  intros [= <-]. apply fmap_Permutation. by apply sort_by_Permutation.
Qed.

(** The comparison never raises on keys that satisfy [ok]. *)
Lemma sort_by_total_on (ok : K -> Prop) (l : list (K * A)) :
  (forall a b, ok a -> ok b -> is_Some (ltb a b)) ->
  Forall (fun x => ok x.1) l ->
  exists l', sort_by ltb l = Some l' /\ Forall (fun x => ok x.1) l'.
Proof.
  intros Htot. induction 1 as [|x l Hx Hl IH]; cbn.
  - by exists [].
  - destruct IH as (sorted & -> & Hs).
    clear Hl. induction Hs as [|y sorted Hy Hs IH]; cbn.
    + exists [x]. split; [done|]. by constructor.
    + destruct (Htot _ _ Hy Hx) as [[|] ->].
      * destruct IH as (l' & -> & Hl'). cbn. exists (y :: l').
        split; [done|]. by constructor.
      * exists (x :: y :: sorted). split; [done|]. by repeat constructor.
Qed.

Hypothesis ltb_asym : forall a b, ltb a b = Some true -> ltb b a = Some false.

Lemma insert_by_HdRel (y x : K * A) (l l' : list (K * A)) :
  insert_by ltb x l = Some l' ->
  HdRel (fun x y => ltb y.1 x.1 = Some false) y l ->
  ltb x.1 y.1 = Some false ->
  HdRel (fun x y => ltb y.1 x.1 = Some false) y l'.
Proof.
  destruct l as [|z l]; cbn.
  - intros [= <-] _ H. by constructor.
  - destruct (ltb z.1 x.1) as [[|]|]; [| |done].
    + destruct (insert_by ltb x l) as [l''|]; [|done].
      intros [= <-] Hd _. inversion Hd; subst. by constructor.
    + intros [= <-] _ H. by constructor.
Qed.

Lemma insert_by_Sorted (x : K * A) (l l' : list (K * A)) :
  Sorted (fun x y => ltb y.1 x.1 = Some false) l ->
  insert_by ltb x l = Some l' ->
  Sorted (fun x y => ltb y.1 x.1 = Some false) l'.
Proof.
  intros Hs. revert l'. induction Hs as [|y l Hs IH Hd]; intros l'; cbn.
  - intros [= <-]. by repeat constructor.
  - destruct (ltb y.1 x.1) as [[|]|] eqn:E; [| |done].
    + destruct (insert_by ltb x l) as [l''|] eqn:E'; [|done].
      intros [= <-]. constructor; [by apply IH|].
      eapply insert_by_HdRel; [exact E'|exact Hd|]. by apply ltb_asym.
    + intros [= <-]. constructor; [by constructor|]. by constructor.
Qed.

Lemma sort_by_Sorted (l l' : list (K * A)) :
  sort_by ltb l = Some l' ->
  Sorted (fun x y => ltb y.1 x.1 = Some false) l'.
Proof.
  revert l'. induction l as [|x l IH]; intros l'; cbn.
  - intros [= <-]. constructor.
  - destruct (sort_by ltb l) as [sorted|]; [|done].
    intros H. eapply insert_by_Sorted; [|exact H]. by apply IH.
Qed.

End SortOrder.

Lemma Sorted_fmap_on {A B : Type} (R : A -> A -> Prop) (R' : B -> B -> Prop)
    (f : A -> B) (l : list A) :
  (forall x y, x ∈ l -> y ∈ l -> R x y -> R' (f x) (f y)) ->
  Sorted R l -> Sorted R' (f <$> l).
Proof.
  intros HR Hs. induction Hs as [|x l Hs IH Hd]; cbn; [constructor|].
  constructor.
  - apply IH. intros a b Ha Hb. apply HR; by apply elem_of_cons; right.
  - destruct Hd as [|y l Hxy]; cbn; constructor.
    apply HR; [apply elem_of_cons; by left| |done].
    apply elem_of_cons; right. apply elem_of_cons; by left.
Qed.

Lemma string_ltb_asym (a b : string) :
  String.ltb a b = true -> String.ltb b a = false.
Proof.
  unfold String.ltb. rewrite (String.compare_antisym b a).
  by destruct (String.compare a b).
Qed.

Lemma string_ltb_irrefl (a : string) : String.ltb a a = false.
Proof.
  destruct (String.ltb a a) eqn:E; [|done].
  by rewrite (string_ltb_asym _ _ E) in E.
Qed.

Lemma Qlt_bool_asym (a b : Q) : Qlt_bool a b = true -> Qlt_bool b a = false.
Proof.
  intros H. apply Qlt_bool_iff in H.
  destruct (Qlt_bool b a) eqn:E; [|done].
  apply Qlt_bool_iff in E. exfalso. apply (Qlt_irrefl a). by eapply Qlt_trans.
Qed.

Lemma atom_ltb_asym (a b : atom) :
  atom_ltb a b = Some true -> atom_ltb b a = Some false.
Proof.
  destruct a, b; cbn; try done; intros [= H]; f_equal;
    (by apply string_ltb_asym) || (by apply Qlt_bool_asym).
Qed.

Lemma atom_eqb_sym (a b : atom) : atom_eqb a b = atom_eqb b a.
Proof.
  destruct a as [s|q|x], b as [s'|q'|x']; cbn; try done.
  - apply String.eqb_sym.
  - apply eq_true_iff_eq. rewrite !Qeq_bool_iff. split; intros H; by symmetry.
  - apply eq_true_iff_eq. rewrite !Qeq_bool_iff. split; intros H; by symmetry.
  - apply eq_true_iff_eq. rewrite !Qeq_bool_iff. split; intros H; by symmetry.
  - apply eq_true_iff_eq. rewrite !Qeq_bool_iff. split; intros H; by symmetry.
Qed.

Section TupleOrder.
Context {A : Type} (eqb : A -> A -> bool) (ltb : A -> A -> option bool).
Hypothesis eqb_sym : forall a b, eqb a b = eqb b a.
Hypothesis ltb_asym : forall a b, ltb a b = Some true -> ltb b a = Some false.

Lemma tuple_eqb_sym (x y : list A) : tuple_eqb eqb x y = tuple_eqb eqb y x.
Proof.
  revert y. induction x as [|a x IH]; intros [|b y]; cbn; try done.
  by rewrite eqb_sym, IH.
Qed.

Lemma tuple_ltb_asym (x y : list A) :
  tuple_ltb eqb ltb x y = Some true -> tuple_ltb eqb ltb y x = Some false.
Proof.
  revert y. induction x as [|a x IH]; intros [|b y]; cbn; try done.
  rewrite (eqb_sym b a). destruct (eqb a b); [apply IH|apply ltb_asym].
Qed.
End TupleOrder.

Lemma key_ltb_asym (x y : list (list atom)) :
  key_ltb x y = Some true -> key_ltb y x = Some false.
Proof.
  unfold key_ltb. apply tuple_ltb_asym.
  - apply tuple_eqb_sym, atom_eqb_sym.
  - apply tuple_ltb_asym; [apply atom_eqb_sym|apply atom_ltb_asym].
Qed.

Lemma Sorted_weaken {A : Type} (R R' : A -> A -> Prop) (l : list A) :
  (forall x y, R x y -> R' x y) -> Sorted R l -> Sorted R' l.
Proof.
  intros HR Hs. induction Hs as [|x l Hs IH Hd]; constructor; [done|].
  destruct Hd; constructor. by apply HR.
Qed.

Section SortedTable.
Context {V : Type}.

Lemma get_Permutation (m m' : list (string * V)) (k : string) :
  NoDup (OrderedDict.keys m) -> m' ≡ₚ m ->
  OrderedDict.get k m' = OrderedDict.get k m.
Proof.
  intros Hnd Hperm.
  assert (Hnd' : NoDup (OrderedDict.keys m')).
  { unfold OrderedDict.keys. by rewrite Hperm. }
  destruct (OrderedDict.get k m') as [v|] eqn:E.
  - symmetry. apply elem_of_get; [done|]. rewrite <- Hperm.
    by apply get_elem_of.
  - destruct (OrderedDict.get k m) as [v|] eqn:E'; [|done].
    apply get_elem_of in E'. rewrite <- Hperm in E'.
    apply (elem_of_get _ _ _ Hnd') in E'. congruence.
Qed.

Lemma sorted_by_key {K : Type} (ltb : K -> K -> option bool) (kf : string -> K)
    (ok : K -> Prop) (m : list (string * V)) :
  (forall a b, ok a -> ok b -> is_Some (ltb a b)) ->
  (forall k, ok (kf k)) ->
  (forall a b, ltb a b = Some true -> ltb b a = Some false) ->
  exists l',
    py_sorted ltb ((fun kv => (kf kv.1, kv)) <$> m) = Some l'
    /\ l' ≡ₚ m
    /\ Sorted (fun k1 k2 => ltb (kf k2) (kf k1) = Some false) (OrderedDict.keys l').
Proof.
  intros Htot Hok Hasym.
  destruct (sort_by_total_on ltb ok ((fun kv => (kf kv.1, kv)) <$> m) Htot)
    as (sorted & Hsort & _).
  { apply Forall_fmap, Forall_forall. intros x _. apply Hok. }
  unfold py_sorted. rewrite Hsort. eexists. split; [done|].
  pose proof (sort_by_Permutation _ _ _ Hsort) as Hperm.
  split.
  { rewrite Hperm, <- list_fmap_compose. by rewrite list_fmap_id. }
  assert (Hkeys : Forall (fun x : K * (string * V) => x.1 = kf x.2.1) sorted).
  { rewrite Hperm. apply Forall_fmap, Forall_forall. by intros x _. }
  unfold OrderedDict.keys. rewrite <- list_fmap_compose.
  eapply (Sorted_fmap_on _ _ _ _ _ (sort_by_Sorted ltb Hasym _ _ Hsort)).
  Unshelve. cbn. intros x y Hx Hy.
  rewrite Forall_forall in Hkeys.
  by rewrite <- (Hkeys _ Hx), <- (Hkeys _ Hy).
Qed.

Lemma count_key_order (c1 c2 : Z) (n1 n2 : string) :
  tuple_ltb atom_eqb atom_ltb
    [ANum (inject_Z (- c2)); AStr n2] [ANum (inject_Z (- c1)); AStr n1]
  = Some false ->
  c2 <= c1 /\ (c1 = c2 -> String.ltb n2 n1 = false).
Proof.
  cbn. destruct (Qeq_bool (inject_Z (- c2)) (inject_Z (- c1))) eqn:E.
  - apply Qeq_bool_iff in E. unfold Qeq in E. cbn in E.
    assert (c1 = c2) by lia. subst. split; [lia|]. intros _.
    destruct (String.eqb_spec n2 n1) as [->|_];
      [apply string_ltb_irrefl|congruence].
  - intros [= H]. assert (Hne : c1 <> c2).
    { intros ->. by rewrite Qeq_bool_refl in E. }
    split; [|done].
    destruct (Z.le_gt_cases c2 c1) as [|Hlt]; [done|]. exfalso.
    assert (Qlt_bool (inject_Z (- c2)) (inject_Z (- c1)) = true); [|congruence].
    apply Qlt_bool_iff. rewrite <- Zlt_Qlt. lia.
Qed.

Lemma sorted_table_spec (mode : string) (name_of : string -> string)
    (count_of : string -> Z) (m : list (string * V)) :
  NoDup (OrderedDict.keys m) ->
  exists m',
    sorted_table mode name_of count_of m = Some m'
    /\ m' ≡ₚ m
    /\ (mode = "name" ->
        Sorted (fun k1 k2 =>
                  String.ltb (PyStr.lower (name_of k2)) (PyStr.lower (name_of k1))
                  = false) (OrderedDict.keys m'))
    /\ (mode = "count" ->
        Sorted (fun k1 k2 =>
                  count_of k2 <= count_of k1
                  /\ (count_of k1 = count_of k2 ->
                      String.ltb (PyStr.lower (name_of k2))
                        (PyStr.lower (name_of k1)) = false))
          (OrderedDict.keys m'))
    /\ (mode <> "name" -> mode <> "count" -> m' = m).
Proof.
  intros Hnd. unfold sorted_table.
  assert (Hre : forall l', l' ≡ₚ m -> rebuild l' = l').
  { intros l' Hp. apply rebuild_NoDup. unfold OrderedDict.keys. by rewrite Hp. }
  destruct (String.eqb_spec mode "name") as [->|Hname].
  - destruct (sorted_by_key atom_ltb (fun k => AStr (PyStr.lower (name_of k)))
                (fun a => kind_of a = KStr) m) as (l' & -> & Hp & Hs).
    { intros a b Ha Hb. apply atom_ltb_total. congruence. }
    { done. }
    { apply atom_ltb_asym. }
    cbn. rewrite (Hre _ Hp). eexists. split; [done|]. split; [done|].
    split; [|split; [done|done]].
    intros _. eapply Sorted_weaken; [|exact Hs]. cbn. by intros x y [= ->].
  - destruct (String.eqb_spec mode "count") as [->|Hcount].
    + destruct (sorted_by_key (tuple_ltb atom_eqb atom_ltb)
                  (fun k => [ANum (inject_Z (- count_of k));
                             AStr (PyStr.lower (name_of k))])
                  (fun x => map kind_of x = [KNum; KStr]) m)
        as (l' & -> & Hp & Hs).
      { intros a b Ha Hb. apply tuple_atoms_ltb_total. congruence. }
      { done. }
      { apply tuple_ltb_asym; [apply atom_eqb_sym|apply atom_ltb_asym]. }
      cbn. rewrite (Hre _ Hp). eexists. split; [done|]. split; [done|].
      split; [done|]. split; [|done].
      intros _. eapply Sorted_weaken; [|exact Hs]. cbn.
      intros x y. apply count_key_order.
    + cbn. rewrite rebuild_NoDup by done. exists m. by repeat split.
Qed.

End SortedTable.

(** X13: re-sorting a reference table keeps every entry: the sorted table
    is a rearrangement of the old one, every id keeps its value and its
    usage count, and the other tables are untouched. In mode "name" the
    rows are in ascending order of their lower-cased display names; in
    mode "count" the usage counts descend and rows with equal counts are
    in ascending order of their lower-cased names; any other mode leaves
    the order of the table as it was. Mode "custom" does nothing at all;
    every other mode ends with a save, which stamps the perfumes with its
    time and changes nothing else of them. *)
Theorem apply_sort_orders_table (t : tab) (clock : nat -> Z) (sort_mode : string)
    (d : AppData) :
  NoDup (OrderedDict.keys (_get_current_map t d)) ->
  let r := _apply_sort_to_map t clock sort_mode d in
  _get_current_map t r.2 ≡ₚ _get_current_map t d
  /\ (forall k, OrderedDict.get k (_get_current_map t r.2)
                = OrderedDict.get k (_get_current_map t d))
  /\ (forall k, _count_usage t k r.2 = _count_usage t k d)
  /\ (forall t', t' <> t -> _get_current_map t' r.2 = _get_current_map t' d)
  /\ (sort_mode = "custom" -> r = (Cancelled, d))
  /\ (sort_mode <> "custom" ->
      r.1 = Completed /\ perfumes r.2 = perfumes (save clock d))
  /\ (sort_mode = "name" ->
      Sorted (fun k1 k2 =>
                String.ltb (PyStr.lower (_get_item_name t k2 d))
                  (PyStr.lower (_get_item_name t k1 d)) = false)
        (OrderedDict.keys (_get_current_map t r.2)))
  /\ (sort_mode = "count" ->
      Sorted (fun k1 k2 =>
                _count_usage t k2 d <= _count_usage t k1 d
                /\ (_count_usage t k1 d = _count_usage t k2 d ->
                    String.ltb (PyStr.lower (_get_item_name t k2 d))
                      (PyStr.lower (_get_item_name t k1 d)) = false))
        (OrderedDict.keys (_get_current_map t r.2)))
  /\ (sort_mode <> "name" -> sort_mode <> "count" ->
      _get_current_map t r.2 = _get_current_map t d).
Proof.
  intros Hnd. cbn zeta. unfold _apply_sort_to_map.
  destruct (String.eqb_spec sort_mode "custom") as [->|Hcustom].
  { cbn [fst snd]. do 5 (split; [done|]). split; [done|].
    split; [done|]. split; [done|done]. }
  destruct (sorted_table_spec sort_mode (fun k => _get_item_name t k d)
              (fun k => _count_usage t k d) _ Hnd)
    as (m' & Hsorted & Hperm & Hname & Hcount & Hsame).
  pose proof (update_current_map_natural t
                (fun V => sorted_table sort_mode (fun k => _get_item_name t k d)
                            (fun k => _count_usage t k d)) d
                (fun V W h m => sorted_table_fmap h sort_mode _ _ m)) as Hu.
  cbn beta in Hu. rewrite Hsorted in Hu.
  destruct (update_current_map t _ d) as [d'|]; [|done].
  destruct Hu as ([= Hcur] & Hp & Hothers). subst m'.
  cbn [finish then_save fst snd]. rewrite !current_map_save.
  split; [done|].
  split; [intros k; by apply get_Permutation|].
  split.
  { intros k. rewrite count_usage_save. by apply count_usage_perfumes. }
  split; [intros t' Ht'; rewrite current_map_save; by apply Hothers|].
  split; [done|].
  split; [intros _; split; [done|]; by rewrite !perfumes_save, Hp|].
  split; [done|]. split; [done|done].
Qed.

Lemma apply_sort_orders_table_witness :
  let r := _apply_sort_to_map Brands (fun _ => 5) "count" shelf in
  _get_current_map Brands r.2 ≡ₚ _get_current_map Brands shelf
  /\ OrderedDict.keys (brands_map r.2) = ["idB"; "idA"; "idC"; "idD"].
Proof.
  assert (Hnd : NoDup (OrderedDict.keys (_get_current_map Brands shelf))).
  { cbn. distinct_literals. }
  destruct (apply_sort_orders_table Brands (fun _ => 5) "count" shelf Hnd)
    as (Hperm & _).
  split; [exact Hperm|]. vm_compute. reflexivity.
Defined.

(** ** Deleting several entries *)

Lemma del_item_others (t t' : tab) (sid : string) (d d' : AppData) :
  del_item t sid d = Some d' -> t' <> t ->
  _get_current_map t' d' = _get_current_map t' d.
Proof.
  destruct t; cbn;
    match goal with
    | |- context [OrderedDict.del sid ?m] => destruct (OrderedDict.del sid m)
    end; cbn; try done; intros [= <-] Hne; by destruct t'.
Qed.

Lemma used_items_nil (t : tab) (sids : list string) (d : AppData) :
  used_items t sids d = [] <-> forall sid, sid ∈ sids -> _count_usage t sid d <= 0.
Proof.
  unfold used_items. induction sids as [|sid sids IH]; cbn.
  - split; [|done]. intros _ sid H. by apply elem_of_nil in H.
  - destruct (Z.ltb_spec 0 (_count_usage t sid d)) as [Hpos|Hle].
    + split; [done|]. intros H. specialize (H sid ltac:(by left)). lia.
    + rewrite IH. split.
      * intros H s [->|Hs]%elem_of_cons; auto.
      * intros H s Hs. apply H. by right.
Qed.

Lemma unused_items_length (t : tab) (sids : list string) (d : AppData) :
  (forall sid, sid ∈ sids -> _count_usage t sid d <= 0) ->
  length (unused_items t sids d) = length sids.
Proof.
  unfold unused_items. induction sids as [|sid sids IH]; cbn; [done|].
  intros H. destruct (Z.ltb_spec 0 (_count_usage t sid d)) as [Hpos|Hle].
  - specialize (H sid ltac:(by left)). lia.
  - cbn. f_equal. apply IH. intros s Hs. apply H. by right.
Qed.

Lemma delete_loop_ok (t : tab) (sids : list string) (d : AppData) :
  NoDup sids ->
  (forall sid, sid ∈ sids -> _count_usage t sid d = 0) ->
  (forall sid, sid ∈ sids -> sid ∈ OrderedDict.keys (_get_current_map t d)) ->
  exists d',
    delete_loop t sids d = (Completed, d')
    /\ perfumes d' = perfumes d
    /\ _get_current_map t d'
       = filter (fun kv => kv.1 ∉ sids) (_get_current_map t d)
    /\ (forall t', t' <> t -> _get_current_map t' d' = _get_current_map t' d).
Proof.
  revert d. induction sids as [|sid sids IH]; intros d Hnd Hzero Hin.
  - exists d. split; [done|]. split; [done|]. split; [|done].
    symmetry. apply filter_all. intros; apply not_elem_of_nil.
  - apply NoDup_cons in Hnd as [Hsid Hnd]. cbn [delete_loop].
    rewrite (Hzero sid) by (by left). cbn.
    destruct (del_item_present t sid d) as (d1 & Hdel & Hp1 & Hm1).
    { apply elem_of_keys. apply Hin. by left. }
    rewrite Hdel.
    destruct (IH d1 Hnd) as (d' & Hloop & Hp & Hm & Hothers).
    { intros s Hs. rewrite (count_usage_perfumes t s d1 d Hp1).
      apply Hzero. by right. }
    { intros s Hs. apply elem_of_keys. rewrite Hm1, get_remove_ne.
      - apply elem_of_keys, Hin. by right.
      - intros ->. done. }
    exists d'. split; [done|]. split; [congruence|]. split.
    + rewrite Hm, Hm1. unfold OrderedDict.remove.
      rewrite list_filter_filter. apply list_filter_iff.
      intros [k v]. cbn. rewrite not_elem_of_cons. tauto.
    + intros t' Ht'. rewrite Hothers by done.
      by apply (del_item_others t t' sid d d1).
Qed.

Lemma get_filter_out {V : Type} (m : list (string * V)) (sids : list string)
    (k : string) :
  k ∉ sids ->
  OrderedDict.get k (filter (fun kv => kv.1 ∉ sids) m) = OrderedDict.get k m.
Proof.
  intros Hk. induction m as [|[k' v'] m IH]; [done|].
  rewrite filter_cons. destruct (decide _) as [Hk'|Hk']; cbn in *.
  - destruct (String.eqb k' k); [done|apply IH].
  - destruct (String.eqb_spec k' k) as [->|_]; [|apply IH].
    by destruct Hk'.
Qed.

(** X14: a deletion of several selected entries is all or nothing. If
    any selected entry is still in use, the "Cannot Delete" warning is
    shown and nothing is deleted, not even the selected entries that are
    unused. If none is in use, a declined confirmation changes nothing and
    a confirmed one removes exactly the selected ids from the table,
    keeping the other entries in order, the other tables and every usage
    count; the save that follows stamps the perfumes with its time and
    changes nothing else of them. *)
Theorem delete_is_all_or_nothing (t : tab) (clock : nat -> Z)
    (selected_ids : list string) (d : AppData) :
  selected_ids <> [] ->
  ((exists sid, sid ∈ selected_ids /\ 0 < _count_usage t sid d) ->
   forall confirmed,
     _delete_selected t clock selected_ids confirmed d
     = (Warned "Cannot Delete"
          ("Still in use:" :: "" :: used_items t selected_ids d), d))
  /\ ((forall sid, sid ∈ selected_ids -> _count_usage t sid d = 0) ->
      NoDup selected_ids ->
      (forall sid, sid ∈ selected_ids ->
         sid ∈ OrderedDict.keys (_get_current_map t d)) ->
      _delete_selected t clock selected_ids false d = (Cancelled, d)
      /\ exists d',
           _delete_selected t clock selected_ids true d = (Completed, d')
           /\ perfumes d' = perfumes (save clock d)
           /\ (forall t' k, _count_usage t' k d' = _count_usage t' k d)
           /\ _get_current_map t d'
              = filter (fun kv => kv.1 ∉ selected_ids) (_get_current_map t d)
           /\ (forall sid, sid ∈ selected_ids ->
                 OrderedDict.get sid (_get_current_map t d') = None)
           /\ (forall k, k ∉ selected_ids ->
                 OrderedDict.get k (_get_current_map t d')
                 = OrderedDict.get k (_get_current_map t d))
           /\ (forall t', t' <> t ->
                 _get_current_map t' d' = _get_current_map t' d)).
Proof.
  intros Hsel. split.
  - intros (sid & Hin & Hpos) confirmed. unfold _delete_selected.
    destruct selected_ids as [|s0 rest]; [done|].
    destruct (used_items t (s0 :: rest) d) as [|u used] eqn:E; [|done].
    exfalso. pose proof (proj1 (used_items_nil _ _ _) E sid Hin). lia.
  - intros Hzero Hnd Hin.
    assert (Hused : used_items t selected_ids d = []).
    { apply used_items_nil. intros s Hs. rewrite (Hzero s Hs). lia. }
    assert (Hunused : unused_items t selected_ids d <> []).
    { intros E. apply (f_equal length) in E.
      rewrite unused_items_length in E.
      - by destruct selected_ids.
      - intros s Hs. rewrite (Hzero s Hs). lia. }
    unfold _delete_selected. rewrite Hused.
    destruct selected_ids as [|s0 rest]; [done|].
    destruct (unused_items t (s0 :: rest) d) as [|u us]; [done|].
    split; [done|].
    destruct (delete_loop_ok t (s0 :: rest) d Hnd Hzero Hin)
      as (d1 & Hloop & Hp & Hm & Hothers).
    exists (save clock d1). rewrite Hloop. cbn [then_save].
    rewrite !current_map_save.
    split; [done|]. split; [by rewrite !perfumes_save, Hp|].
    split.
    { intros t' k. rewrite count_usage_save. by apply count_usage_perfumes. }
    split; [done|].
    split; [|split].
    + intros sid Hs. rewrite Hm.
      destruct (OrderedDict.get sid (filter _ _)) as [v|] eqn:E; [|done].
      apply get_elem_of in E. apply list_elem_of_filter in E as [Hout _].
      by destruct Hout.
    + intros k Hk. rewrite Hm. by apply get_filter_out.
    + intros t' Ht'. rewrite current_map_save. by apply Hothers.
Qed.

Lemma delete_is_all_or_nothing_witness :
  _delete_selected Brands (fun _ => 5) ["idD"; "idA"] true shelf
  = (Warned "Cannot Delete" ["Still in use:"; ""; "Chanell (1)"], shelf).
Proof.
  assert (Hsel : ["idD"; "idA"] <> []) by discriminate.
  destruct (delete_is_all_or_nothing Brands (fun _ => 5) ["idD"; "idA"] shelf
              Hsel) as [H _].
  assert (Hused : exists sid, sid ∈ ["idD"; "idA"]
                              /\ 0 < _count_usage Brands sid shelf).
  { exists "idA". split; [|reflexivity].
    apply elem_of_cons. right. apply elem_of_cons. by left. }
  exact (H Hused true).
Defined.

(** ** Usage counts after a merge *)

Lemma merge_selected_perfumes (t : tab) (clock : nat -> Z) (target : string)
    (rest : list string) (keep : string) (d : AppData) :
  rest <> [] ->
  NoDup (target :: rest) ->
  (forall sid, sid ∈ target :: rest ->
     sid ∈ OrderedDict.keys (_get_current_map t d)) ->
  keep <> "" ->
  exists d1,
    _merge_selected t clock (target :: rest) (Some keep) d
    = (Completed, save clock d1)
    /\ perfumes d1 = redirect_all t target (target :: rest) <$> perfumes d.
Proof.
  intros Hrest Hnd Hkeys Hkeep.
  set (d0 := store_kept t target (PyStr.strip keep) d).
  assert (_merge_selected t clock (target :: rest) (Some keep) d
          = then_save clock (merge_loop t target (target :: rest) d0)) as Hrun.
  { unfold _merge_selected. destruct rest as [|r rest']; [done|].
    cbn [length Nat.ltb Nat.leb]. by destruct keep. }
  destruct (merge_loop_ok t target (target :: rest) d0 Hnd)
    as (d1 & Hloop & Hps & _).
  { intros sid Hsid Hne. unfold d0.
    rewrite current_map_store_kept, get_set_ne by congruence.
    by apply elem_of_keys, Hkeys. }
  exists d1. split; [by rewrite Hrun, Hloop|].
  rewrite Hps. unfold d0. by rewrite perfumes_store_kept.
Qed.

Lemma count_if_ext {A : Type} (f g : A -> bool) (l : list A) :
  (forall x, x ∈ l -> f x = g x) -> count_if f l = count_if g l.
Proof.
  unfold count_if. induction l as [|x l IH]; intros H; [done|]. cbn.
  rewrite (H x) by (by left). destruct (g x); cbn;
    rewrite ?Nat2Z.inj_succ; rewrite IH; auto; intros y Hy; apply H; by right.
Qed.

Lemma count_if_none {A : Type} (f : A -> bool) (l : list A) :
  (forall x, x ∈ l -> f x = false) -> count_if f l = 0.
Proof.
  unfold count_if. induction l as [|x l IH]; intros H; [done|]. cbn.
  rewrite (H x) by (by left). apply IH. intros y Hy. apply H. by right.
Qed.

Lemma count_if_cons {A : Type} (f : A -> bool) (x : A) (l : list A) :
  count_if f (x :: l) = (if f x then 1 else 0) + count_if f l.
Proof. unfold count_if. cbn. destruct (f x); cbn; lia. Qed.

Lemma bind_fmap_refs (t : tab) (g : Perfume.t -> Perfume.t) (h : string -> string)
    (ps : list Perfume.t) :
  (forall p, refs_of t (g p) = h <$> refs_of t p) ->
  (g <$> ps) ≫= refs_of t = h <$> (ps ≫= refs_of t).
Proof.
  intros Hg. induction ps as [|p ps IH]; [done|].
  cbn. rewrite fmap_app, <- IH, Hg. done.
Qed.

Lemma mem_merged_refs (t : tab) (merged : list string) (target : string)
    (refs : list string) (y : string) :
  PyStr.mem y (merged_refs t merged target refs)
  = (String.eqb y target && existsb (fun x => PyStr.mem x refs) merged)
    || (PyStr.mem y refs && negb (PyStr.mem y merged)).
Proof.
  apply eq_true_iff_eq.
  rewrite mem_true, elem_of_merged_refs, orb_true_iff, !andb_true_iff.
  rewrite String.eqb_eq, negb_true_iff, mem_true, mem_false, existsb_exists.
  split; intros [[H1 H2]|[H1 H2]]; try (by right).
  - left. split; [done|]. destruct H2 as (x & Hx & Hx').
    exists x. split; [by apply list_elem_of_In|by apply mem_true].
  - left. split; [done|]. destruct H2 as (x & Hx & Hx').
    exists x. split; [by apply list_elem_of_In|by apply mem_true].
Qed.

(** The sum of the usage counts of the ids [sids]. *)
Lemma indicator_sum (x : string) (sids : list string) :
  NoDup sids ->
  foldr (fun s acc => (if String.eqb x s then 1 else 0) + acc) 0 sids
  = if PyStr.mem x sids then 1 else 0.
Proof.
  induction 1 as [|s sids Hs Hnd IH]; [done|].
  cbn [foldr]. rewrite IH, mem_cons.
  destruct (String.eqb_spec x s) as [->|Hne]; cbn; [|done].
  apply mem_false in Hs. by rewrite Hs.
Qed.

Lemma count_sum (sids l : list string) :
  NoDup sids ->
  count_if (fun x => PyStr.mem x sids) l
  = foldr (fun s acc => count_if (fun x => String.eqb x s) l + acc) 0 sids.
Proof.
  intros Hnd. induction l as [|x l IH].
  - unfold count_if. cbn. induction sids; cbn; [done|].
    rewrite <- IHsids; [done|]. by apply NoDup_cons in Hnd as [_ ?].
  - rewrite count_if_cons, IH, <- (indicator_sum x sids Hnd).
    clear. induction sids as [|s sids IH]; cbn [foldr]; [done|].
    rewrite count_if_cons. lia.
Qed.

(** X15: after a merge the usage counts follow the references. The ids
    that were merged away are used by nothing; an id outside the selection
    keeps its usage count; the target is in use exactly when some selected
    id was; and on the tabs where a perfume or an event holds a single id
    (brands, concentrations, purchase types) the count of the target is the
    sum of the counts the selected ids had. *)
Theorem merge_adds_up_usage (t : tab) (clock : nat -> Z) (target : string)
    (rest : list string) (keep : string) (d : AppData) :
  rest <> [] ->
  NoDup (target :: rest) ->
  (forall sid, sid ∈ target :: rest ->
     sid ∈ OrderedDict.keys (_get_current_map t d)) ->
  keep <> "" ->
  exists d',
    _merge_selected t clock (target :: rest) (Some keep) d = (Completed, d')
    /\ (forall sid, sid ∈ rest -> _count_usage t sid d' = 0)
    /\ (forall k, k ∉ target :: rest -> _count_usage t k d' = _count_usage t k d)
    /\ (0 < _count_usage t target d'
        <-> exists sid, sid ∈ target :: rest /\ 0 < _count_usage t sid d)
    /\ (list_valued t = false ->
        _count_usage t target d'
        = foldr (fun sid acc => _count_usage t sid d + acc) 0 (target :: rest))
    /\ (list_valued t = true ->
        _count_usage t target d'
        = count_if (fun p => existsb (fun sid => PyStr.mem sid (refs_of t p))
                               (target :: rest)) (perfumes d)).
Proof.
  intros Hrest Hnd Hkeys Hkeep.
  destruct (merge_selected_perfumes t clock target rest keep d Hrest Hnd Hkeys
              Hkeep) as (d1 & Hrun & Hps).
  rewrite Hrun. clear Hrun.
  assert (Hsaved : forall k, _count_usage t k (save clock d1)
                             = _count_usage t k d1)
    by (intros k; apply count_usage_save).
  exists (save clock d1). split; [done|]. rewrite !Hsaved.
  cut (exists d', (Completed, d1) = (Completed, d')
         /\ (forall sid, sid ∈ rest -> _count_usage t sid d' = 0)
         /\ (forall k, k ∉ target :: rest ->
               _count_usage t k d' = _count_usage t k d)
         /\ (0 < _count_usage t target d'
             <-> exists sid, sid ∈ target :: rest /\ 0 < _count_usage t sid d)
         /\ (list_valued t = false ->
             _count_usage t target d'
             = foldr (fun sid acc => _count_usage t sid d + acc) 0
                 (target :: rest))
         /\ (list_valued t = true ->
             _count_usage t target d'
             = count_if (fun p => existsb (fun sid => PyStr.mem sid (refs_of t p))
                                    (target :: rest)) (perfumes d))).
  { intros (d' & [= <-] & H1 & H2 & H3 & H4 & H5).
    split; [intros sid Hs; rewrite Hsaved; by apply H1|].
    split; [intros k Hk; rewrite Hsaved; by apply H2|].
    done. }
  rename d1 into d'. assert (Hrun : (Completed, d') = (Completed, d')) by done.
  pose proof Hnd as [Htarget Hnd']%NoDup_cons.
  assert (Hrefs : forall p,
            refs_of t (redirect_all t target (target :: rest) p)
            = merged_refs t rest target (refs_of t p)).
  { intros p. by rewrite refs_redirect_all, nontargets_selection. }
  exists d'. split; [done|].
  assert (Hmember : forall k p,
            k ∈ refs_of t (redirect_all t target (target :: rest) p)
            <-> (k = target /\ exists x, x ∈ rest /\ x ∈ refs_of t p)
                \/ (k ∈ refs_of t p /\ k ∉ rest)).
  { intros k p. rewrite Hrefs. apply elem_of_merged_refs. }
  assert (Hpos : forall k,
            0 < _count_usage t k d' <->
            exists p, p ∈ perfumes d
              /\ ((k = target /\ exists x, x ∈ rest /\ x ∈ refs_of t p)
                  \/ (k ∈ refs_of t p /\ k ∉ rest))).
  { intros k. rewrite count_usage_pos, Hps. split.
    - intros (p' & Hp' & Hk). apply list_elem_of_fmap in Hp' as (p & -> & Hp).
      exists p. split; [done|]. by apply Hmember.
    - intros (p & Hp & Hk). exists (redirect_all t target (target :: rest) p).
      split; [by apply list_elem_of_fmap_2|]. by apply Hmember. }
  assert (Hge : forall k, 0 <= _count_usage t k d').
  { intros k. destruct t; cbn; unfold count_if; lia. }
  split.
  { intros sid Hsid.
    destruct (Z.le_gt_cases (_count_usage t sid d') 0) as [Hle|Hgt].
    - specialize (Hge sid). lia.
    - exfalso. apply Hpos in Hgt as (p & _ & [[-> _]|[_ Hout]]); done. }
  split.
  { intros k Hk. apply not_elem_of_cons in Hk as [Hkt Hkr].
    rewrite !count_usage_refs, Hps.
    destruct (list_valued t) eqn:Hlv.
    - rewrite count_if_fmap. apply count_if_ext. intros p _.
      rewrite Hrefs, mem_merged_refs.
      apply String.eqb_neq in Hkt. rewrite Hkt. cbn.
      apply mem_false in Hkr. rewrite Hkr. cbn. by rewrite andb_true_r.
    - rewrite (bind_fmap_refs t _ (retarget rest target)).
      + rewrite count_if_fmap. apply count_if_ext. intros x _.
        unfold retarget. destruct (PyStr.mem x rest) eqn:E; [|done].
        apply mem_true in E.
        destruct (String.eqb_spec target k) as [|_]; [done|].
        destruct (String.eqb_spec x k) as [->|_]; [|done]. done.
      + intros p. rewrite Hrefs. unfold merged_refs. by rewrite Hlv. }
  split.
  { rewrite Hpos. split.
    - intros (p & Hp & [[_ (x & Hx & Hxp)]|[Hin _]]).
      + exists x. split; [by right|]. apply count_usage_pos. by exists p.
      + exists target. split; [by left|]. apply count_usage_pos. by exists p.
    - intros (sid & Hsid & Hused). apply count_usage_pos in Hused as (p & Hp & Hin).
      exists p. split; [done|].
      apply elem_of_cons in Hsid as [->|Hsid]; [by right|].
      left. split; [done|]. by exists sid. }
  split.
  { intros Hlv. rewrite count_usage_refs, Hlv, Hps.
    rewrite (bind_fmap_refs t _ (retarget rest target)).
    2: { intros p. rewrite Hrefs. unfold merged_refs. by rewrite Hlv. }
    rewrite count_if_fmap.
    rewrite (count_if_ext _ (fun x => PyStr.mem x (target :: rest))).
    - rewrite (count_sum _ _ Hnd). apply foldr_ext; [|done|done].
      intros s acc. by rewrite count_usage_refs, Hlv.
    - intros x _. unfold retarget. rewrite mem_cons.
      destruct (PyStr.mem x rest) eqn:E.
      + by rewrite String.eqb_refl, orb_true_r.
      + by rewrite orb_false_r. }
  intros Hlv. rewrite count_usage_refs, Hlv, Hps, count_if_fmap.
  apply count_if_ext. intros p _. rewrite Hrefs, mem_merged_refs.
  rewrite String.eqb_refl. cbn [existsb andb].
  apply mem_false in Htarget. rewrite Htarget. cbn.
  rewrite andb_true_r. apply orb_comm.
Qed.

Lemma merge_adds_up_usage_witness :
  exists d',
    _merge_selected Brands (fun _ => 5) ["idA"; "idB"] (Some "Chanel") shelf
    = (Completed, d')
    /\ _count_usage Brands "idB" d' = 0
    /\ _count_usage Brands "idA" d' = 2.
Proof.
  assert (H1 : ["idB"] <> []) by discriminate.
  assert (H2 : NoDup ["idA"; "idB"]) by distinct_literals.
  assert (H3 : forall sid, sid ∈ ["idA"; "idB"] ->
                 sid ∈ OrderedDict.keys (_get_current_map Brands shelf)).
  { intros sid Hs. cbn. rewrite !elem_of_cons in *.
    destruct Hs as [->|[->|Hs]]; [by left|right; by left|].
    by apply elem_of_nil in Hs. }
  assert (H4 : "Chanel" <> "") by discriminate.
  destruct (merge_adds_up_usage Brands (fun _ => 5) "idA" ["idB"] "Chanel" shelf
              H1 H2 H3 H4)
    as (d' & Hrun & Hrest & _ & _ & Hsum & _).
  exists d'. split; [exact Hrun|]. split.
  - apply Hrest. apply elem_of_cons. by left.
  - rewrite (Hsum eq_refl). reflexivity.
Defined.

(** ** The preview of the filter dialog and the list *)

Section FilterMore.
Context {F : PyFloat}.

Lemma preview_block_facet (config : FilterConfig) (f : range_facet)
    (score : gmap string Z -> list string -> option Q)
    (votes : gmap string Z) (keys : list string) (s : Q) :
  score votes keys = Some s ->
  FilterDialog.range_block (facet_min config f) (facet_max config f)
    (facet_full f) (facet_exclude config f) score votes keys
  = Some (preview_facet_ok config f s).
Proof.
  intros Hs. unfold FilterDialog.range_block, preview_facet_ok, facet_active.
  rewrite Hs. by destruct (range_active _ _ _ _).
Qed.

Lemma preview_closed (app : option AppData) (p : Perfume.t)
    (config : FilterConfig) (sR sL sS sV : Q) :
  facet_score p OnRating = Some sR ->
  facet_score p OnLongevity = Some sL ->
  facet_score p OnSillage = Some sS ->
  facet_score p OnValue = Some sV ->
  FilterDialog._matches_filter app p config =
  Some (negb (negb (is_nil (brands config))
              && negb (PyStr.mem (FilterDialog.brand_name_of app p)
                         (brands config)))
        && FilterDialog.states_pass app p config
        && when_pass p config
        && preview_facet_ok config OnRating sR
        && preview_facet_ok config OnLongevity sL
        && preview_facet_ok config OnSillage sS
        && preview_facet_ok config OnValue sV
        && gender_pass p config
        && FilterDialog.tags_pass app p config
        && votes_pass p config).
Proof.
  intros HR HL HS HV. cbn [facet_score] in HR, HL, HS, HV.
  pose proof (preview_block_facet config OnRating _ _ _ sR HR) as ER.
  pose proof (preview_block_facet config OnLongevity _ _ _ sL HL) as EL.
  pose proof (preview_block_facet config OnSillage _ _ _ sS HS) as ES.
  pose proof (preview_block_facet config OnValue _ _ _ sV HV) as EV.
  cbn [facet_min facet_max facet_full facet_exclude] in ER, EL, ES, EV.
  unfold FilterDialog._matches_filter.
  destruct (negb (is_nil (brands config)) && _); [done|].
  destruct (FilterDialog.states_pass app p config); [|done].
  destruct (when_pass p config); [|done].
  rewrite ER. destruct (preview_facet_ok config OnRating sR); [|done].
  rewrite EL. destruct (preview_facet_ok config OnLongevity sL); [|done].
  rewrite ES. destruct (preview_facet_ok config OnSillage sS); [|done].
  rewrite EV. destruct (preview_facet_ok config OnValue sV); [|done].
  destruct (gender_pass p config); [|done].
  by destruct (FilterDialog.tags_pass app p config).
Qed.

Lemma in_range_false (lo hi s : Q) :
  ~ ((lo <= s)%Q /\ (s <= hi)%Q) -> Qle_bool lo s && Qle_bool s hi = false.
Proof.
  intros H. apply not_true_is_false. intros E.
  apply andb_true_iff in E as [E1 E2]. apply Qle_bool_iff in E1, E2. tauto.
Qed.

Lemma facet_ok_preview (config : FilterConfig) (f : range_facet) (s : Q) :
  (facet_active config f = true ->
   (0 < s)%Q
   \/ ~ ((facet_min config f <= s)%Q /\ (s <= facet_max config f)%Q)) ->
  facet_ok config f s = preview_facet_ok config f s.
Proof.
  unfold facet_ok, preview_facet_ok.
  destruct (facet_active config f); [|done].
  intros H. destruct (H eq_refl) as [Hpos|Hout];
    unfold range_pass, FilterDialog.range_pass; cbn zeta.
  - apply Qlt_bool_iff in Hpos. rewrite Hpos. cbn.
    by destruct (facet_exclude config f).
  - rewrite (in_range_false _ _ _ Hout), andb_false_r, orb_true_r.
    by destruct (facet_exclude config f).
Qed.

Lemma preview_agrees (d : AppData) (p : Perfume.t) (config : FilterConfig) :
  (forall f s, facet_active config f = true -> facet_score p f = Some s ->
     (0 < s)%Q
     \/ ~ ((facet_min config f <= s)%Q /\ (s <= facet_max config f)%Q)) ->
  FilterDialog._matches_filter (Some d) p config = _matches_filter d p config.
Proof.
  intros Hdata.
  destruct (facet_score_total p OnRating) as [sR HR].
  destruct (facet_score_total p OnLongevity) as [sL HL].
  destruct (facet_score_total p OnSillage) as [sS HS].
  destruct (facet_score_total p OnValue) as [sV HV].
  rewrite (preview_closed (Some d) p config sR sL sS sV) by done.
  rewrite (matches_filter_closed d p config sR sL sS sV) by done.
  rewrite <- !facet_ok_preview by (intros Ha; by apply Hdata).
  done.
Qed.

(** X16: the result count of the filter dialog and the filter of the
    main list use two copies of the filter that differ on perfumes without
    votes. They give the same answer for a perfume whenever each active
    score range sees a score above 0 or a score outside its range. On a
    perfume whose score is 0 and a range that contains 0 they disagree: in
    include mode the dialog counts the perfume and the list hides it, in
    exclude mode the dialog leaves it out and the list shows it. *)
Theorem preview_agrees_with_list (d : AppData) (p : Perfume.t)
    (config : FilterConfig) :
  (forall f s, facet_active config f = true -> facet_score p f = Some s ->
     (0 < s)%Q
     \/ ~ ((facet_min config f <= s)%Q /\ (s <= facet_max config f)%Q)) ->
  FilterDialog._matches_filter (Some d) p config = _matches_filter d p config
  /\ forall f lo hi exclude s,
       facet_score p f = Some s -> (s == 0)%Q ->
       (lo <= 0)%Q -> (0 <= hi)%Q ->
       facet_active (only_range f lo hi exclude) f = true ->
       FilterDialog._matches_filter (Some d) p (only_range f lo hi exclude)
       = Some (negb exclude)
       /\ _matches_filter d p (only_range f lo hi exclude) = Some exclude.
Proof.
  intros Hdata.
  destruct (facet_score_total p OnRating) as [sR HR].
  destruct (facet_score_total p OnLongevity) as [sL HL].
  destruct (facet_score_total p OnSillage) as [sS HS].
  destruct (facet_score_total p OnValue) as [sV HV].
  split; [by apply preview_agrees|].
  - intros f lo hi exclude s Hs Hzero Hlo Hhi Hact.
    rewrite (matches_filter_only_range d p f lo hi exclude s Hs).
    rewrite (preview_closed (Some d) p _ sR sL sS sV) by done.
    assert (Hin : Qle_bool lo s && Qle_bool s hi = true).
    { apply andb_true_iff. split; apply Qle_bool_iff; rewrite Hzero; done. }
    assert (Hno : Qlt_bool 0 s = false).
    { apply not_true_is_false. intros E. apply Qlt_bool_iff in E.
      rewrite Hzero in E. by apply Qlt_irrefl in E. }
    assert (Hmin : facet_min (only_range f lo hi exclude) f = lo)
      by (by destruct f).
    assert (Hmax : facet_max (only_range f lo hi exclude) f = hi)
      by (by destruct f).
    assert (Hex : facet_exclude (only_range f lo hi exclude) f = exclude)
      by (by destruct f).
    split.
    + f_equal.
      assert (Hthis : preview_facet_ok (only_range f lo hi exclude) f s
                      = negb exclude).
      { unfold preview_facet_ok. rewrite Hact, Hmin, Hmax, Hex.
        unfold FilterDialog.range_pass. cbn zeta. rewrite Hin.
        by destruct exclude. }
      destruct f;
        repeat match goal with
               | H1 : ?x = Some _, H2 : ?x = Some _ |- _ =>
                   rewrite H1 in H2; injection H2 as <-
               end;
        rewrite <- Hthis;
        unfold preview_facet_ok, facet_active, FilterDialog.states_pass,
          when_pass, gender_pass, FilterDialog.tags_pass, votes_pass;
        cbn; repeat rewrite andb_true_r; reflexivity.
    + f_equal. unfold facet_ok. rewrite Hact, Hmin, Hmax, Hex.
      unfold range_pass. cbn zeta. rewrite Hin, Hno. by destruct exclude.
Qed.

End FilterMore.

Lemma preview_agrees_with_list_witness :
  @FilterDialog._matches_filter exact_float (Some no_data)
    (rated_perfume "a" [("love", 1)]) (only_range OnRating 3 5 false)
  = @_matches_filter exact_float no_data
      (rated_perfume "a" [("love", 1)]) (only_range OnRating 3 5 false)
  /\ @FilterDialog._matches_filter exact_float (Some no_data)
       (plain_perfume "b" "" []) (only_range OnRating 0 4 false) = Some true
  /\ @_matches_filter exact_float no_data
       (plain_perfume "b" "" []) (only_range OnRating 0 4 false) = Some false.
Proof.
  split.
  - refine (proj1 (@preview_agrees_with_list exact_float no_data
                     (rated_perfume "a" [("love", 1)])
                     (only_range OnRating 3 5 false) _)).
    intros f s Hact Hs. destruct f; try discriminate Hact.
    left. vm_compute in Hs. injection Hs as <-. reflexivity.
  - assert (Hd : forall f s,
              facet_active default_filter f = true ->
              @facet_score exact_float (plain_perfume "b" "" []) f = Some s ->
              (0 < s)%Q
              \/ ~ ((facet_min default_filter f <= s)%Q
                    /\ (s <= facet_max default_filter f)%Q)).
    { intros f s Hact. destruct f; discriminate Hact. }
    destruct (@preview_agrees_with_list exact_float no_data
                (plain_perfume "b" "" []) default_filter Hd) as [_ H].
    apply (H OnRating 0%Q 4%Q false 0%Q); try reflexivity; discriminate.
Defined.

Section FilterLogic.
Context {F : PyFloat}.

Lemma forallb_existsb {A : Type} (f : A -> bool) (l : list A) :
  l <> [] -> forallb f l = true -> existsb f l = true.
Proof.
  destruct l as [|x l]; [done|]. cbn. intros _ H.
  apply andb_true_iff in H as [-> _]. done.
Qed.

Lemma tags_pass_and_or (d : AppData) (p : Perfume.t) (config : FilterConfig) :
  tags_pass d p (with_tags_logic "and" config) = true ->
  tags_pass d p (with_tags_logic "or" config) = true.
Proof.
  unfold tags_pass. cbn [tags tags_logic with_tags_logic].
  destruct (tags config) as [|t ts] eqn:E; [done|].
  change (String.eqb "and" "and") with true.
  change (String.eqb "or" "and") with false. cbv iota.
  by apply forallb_existsb.
Qed.

(** X17: switching the tag filter from "and" to "or" never hides a
    perfume: whatever the other settings, a perfume that the filter keeps
    when every selected tag is required is kept when any one of them is
    enough; and with at most one selected tag the two settings keep the
    same perfumes. *)
Theorem tags_or_keeps_what_and_keeps (d : AppData) (p : Perfume.t)
    (config : FilterConfig) :
  (_matches_filter d p (with_tags_logic "and" config) = Some true ->
   _matches_filter d p (with_tags_logic "or" config) = Some true)
  /\ ((length (tags config) <= 1)%nat ->
      _matches_filter d p (with_tags_logic "and" config)
      = _matches_filter d p (with_tags_logic "or" config)).
Proof.
  destruct (facet_score_total p OnRating) as [sR HR].
  destruct (facet_score_total p OnLongevity) as [sL HL].
  destruct (facet_score_total p OnSillage) as [sS HS].
  destruct (facet_score_total p OnValue) as [sV HV].
  rewrite !(matches_filter_closed d p _ sR sL sS sV) by done.
  split.
  - pose proof (tags_pass_and_or d p config) as Himp.
    destruct (tags_pass d p (with_tags_logic "and" config)).
    + rewrite (Himp eq_refl). exact (fun H => H).
    + rewrite andb_false_r. cbn. discriminate.
  - intros Hlen.
    assert (E : tags_pass d p (with_tags_logic "and" config)
                = tags_pass d p (with_tags_logic "or" config)).
    { unfold tags_pass. cbn [tags tags_logic with_tags_logic].
      change (String.eqb "and" "and") with true.
      change (String.eqb "or" "and") with false. cbv iota.
      destruct (tags config) as [|t [|t' ts]]; [done| |cbn in Hlen; lia].
      cbn. by rewrite andb_true_r, orb_false_r. }
    rewrite E. reflexivity.
Qed.

End FilterLogic.

Lemma tags_or_keeps_what_and_keeps_witness :
  @_matches_filter exact_float shelf (plain_perfume "P2" "idB" ["t2"; "t3"])
    (with_tags_logic "and" (with_tags ["Citrus"; "woody"] default_filter))
  = Some true
  /\ @_matches_filter exact_float shelf (plain_perfume "P2" "idB" ["t2"; "t3"])
       (with_tags_logic "or" (with_tags ["Citrus"; "woody"] default_filter))
     = Some true
  /\ @_matches_filter exact_float shelf (plain_perfume "P1" "idA" ["t1"; "t2"])
       (with_tags_logic "and" (with_tags ["woody"] default_filter))
     = @_matches_filter exact_float shelf (plain_perfume "P1" "idA" ["t1"; "t2"])
         (with_tags_logic "or" (with_tags ["woody"] default_filter)).
Proof.
  assert (Hand :
    @_matches_filter exact_float shelf (plain_perfume "P2" "idB" ["t2"; "t3"])
      (with_tags_logic "and" (with_tags ["Citrus"; "woody"] default_filter))
    = Some true) by (vm_compute; reflexivity).
  split; [exact Hand|]. split.
  - exact (proj1 (@tags_or_keeps_what_and_keeps exact_float shelf
                    (plain_perfume "P2" "idB" ["t2"; "t3"])
                    (with_tags ["Citrus"; "woody"] default_filter)) Hand).
  - apply (proj2 (@tags_or_keeps_what_and_keeps exact_float shelf
                    (plain_perfume "P1" "idA" ["t1"; "t2"])
                    (with_tags ["woody"] default_filter))).
    cbn. lia.
Defined.

(** With two selected tags the two settings differ: a perfume that carries
    one of them is kept by "or" and hidden by "and". *)
Lemma tags_and_hides_what_or_keeps :
  @_matches_filter exact_float shelf (plain_perfume "P1" "idA" ["t1"; "t2"])
    (with_tags_logic "or" (with_tags ["Citrus"; "woody"] default_filter))
  = Some true
  /\ @_matches_filter exact_float shelf (plain_perfume "P1" "idA" ["t1"; "t2"])
       (with_tags_logic "and" (with_tags ["Citrus"; "woody"] default_filter))
     = Some false.
Proof. split; vm_compute; reflexivity. Qed.

(** ** The order of the sorted list *)

Section SortMore.
Context {F : PyFloat}.

Lemma keyed_perfumes (d : AppData) (config : SortConfig) (ps : list Perfume.t) :
  exists keyed,
    mapM (fun p => k ← sort_key d config p; Some (k, p)) ps = Some keyed
    /\ snd <$> keyed = ps
    /\ Forall (fun y => sort_key d config y.2 = Some y.1) keyed.
Proof.
  induction ps as [|p ps IH]; cbn; [by exists []|].
  destruct (sort_key_shape d config p) as (k & Hk & _). rewrite Hk.
  destruct IH as (keyed & -> & Hsnd & Hall). cbn.
  exists ((k, p) :: keyed). split; [done|]. split; [cbn; by rewrite Hsnd|].
  by constructor.
Qed.

(** The sort returns a rearrangement of its input in which the key of
    a perfume is never smaller than the key of the one before it. *)
Lemma sort_perfumes_spec (d : AppData) (ps : list Perfume.t)
    (config : SortConfig) :
  exists l,
    _sort_perfumes d ps config = Some l
    /\ l ≡ₚ ps
    /\ Sorted (fun p1 p2 =>
                 exists k1 k2, sort_key d config p1 = Some k1
                   /\ sort_key d config p2 = Some k2
                   /\ key_ltb k2 k1 = Some false) l.
Proof.
  destruct (sort_perfumes_total d ps config) as [l Hl].
  exists l. split; [done|]. unfold _sort_perfumes in Hl.
  destruct (dimensions config) as [|dim dims] eqn:Hdims.
  { injection Hl as <-. split; [done|].
    assert (Hk : forall p, sort_key d config p = Some []).
    { intros p. unfold sort_key. by rewrite Hdims. }
    induction ps as [|p ps IH]; constructor; [done|].
    destruct ps; constructor. exists [], []. by rewrite !Hk. }
  destruct (keyed_perfumes d config ps) as (keyed & Hkeyed & Hsnd & Hall).
  rewrite Hkeyed in Hl. cbn in Hl. unfold py_sorted in Hl.
  destruct (sort_by key_ltb keyed) as [sorted|] eqn:Hsort; [|done].
  injection Hl as <-.
  pose proof (sort_by_Permutation _ _ _ Hsort) as Hperm.
  split; [by rewrite Hperm, Hsnd|].
  assert (Hall' : Forall (fun y => sort_key d config y.2 = Some y.1) sorted)
    by (by rewrite Hperm).
  eapply (Sorted_fmap_on _ _ _ _ _ (sort_by_Sorted key_ltb key_ltb_asym _ _ Hsort)).
  Unshelve. cbn. intros x y Hx Hy Hxy. rewrite Forall_forall in Hall'.
  exists x.1, y.1. by rewrite (Hall' _ Hx), (Hall' _ Hy).
Qed.

Lemma score_key_order (a1 a2 : Q) :
  key_ltb [[ANum a2]] [[ANum a1]] = Some false -> (a1 <= a2)%Q.
Proof.
  unfold key_ltb. cbn.
  destruct (Qeq_bool a2 a1) eqn:E; cbn.
  - intros _. apply Qeq_bool_iff in E. rewrite E. apply Qle_refl.
  - intros [= H]. apply Qnot_lt_le. intros Hlt.
    apply Qlt_bool_iff in Hlt. congruence.
Qed.

Lemma facet_sort_value (d : AppData) (p : Perfume.t) (f : range_facet)
    (order : string) (s : Q) :
  facet_score p f = Some s ->
  _get_sort_value d p (facet_dimension f) order = Some (by_score order s).
Proof.
  intros Hs. destruct f; cbn in Hs; unfold _get_sort_value; cbn;
    by rewrite Hs.
Qed.

(** The counts of a stored block are 0 or more. *)
Lemma counts_ok_nonneg (v : gmap string Z) (k : string) :
  counts_ok v = true -> 0 <= vote_count v k.
Proof.
  unfold counts_ok, vote_count. intros H.
  destruct (v !! k) as [n|] eqn:Hk; [|done]. cbn.
  rewrite forallb_forall in H.
  assert (In (k, n) (map_to_list v)) as Hin
    by (by apply list_elem_of_In, elem_of_map_to_list).
  apply H in Hin. cbn in Hin. lia.
Qed.

Lemma block_ok_nonneg (d : gmap string entry) (block k : string) :
  block_ok d block = true -> 0 <= vote_count (block_votes d block) k.
Proof.
  unfold block_ok, block_votes.
  destruct (d !! block) as [[v|?|?]|]; try done.
  apply counts_ok_nonneg.
Qed.

Lemma well_formed_blocks (p : Perfume.t) (block : string) :
  well_formed p = true -> block ∈ VOTE_BLOCKS.*1 ->
  block_ok (Perfume.fragrantica p) block = true
  /\ block_ok (Perfume.my_votes p) (MY_PREFIX +:+ block) = true.
Proof.
  unfold well_formed. rewrite forallb_forall. intros H Hin.
  apply list_elem_of_fmap in Hin as ([b keys] & -> & Hin).
  apply list_elem_of_In, H in Hin. by apply andb_true_iff in Hin.
Qed.

(** The score of a well-formed perfume on a range facet is 0, when the
    block has no vote, or lies between 1 and the top of the scale. *)
Lemma facet_score_well_formed {L : PyFloatLaws F} (p : Perfume.t)
    (f : range_facet) :
  well_formed p = true ->
  exists s, facet_score p f = Some s
    /\ (s = 0%Q \/ (1 <= s <= facet_full f)%Q).
Proof.
  intros Hwf.
  assert (Hnn : forall block k, block ∈ VOTE_BLOCKS.*1 ->
            0 <= vote_count (block_votes (Perfume.fragrantica p) block) k).
  { intros block k Hin. apply block_ok_nonneg.
    by apply (well_formed_blocks p block Hwf). }
  assert (Hspec : exists c votes sf,
            score_of c = Some sf
            /\ facet_score p f = sf votes (keys_of c)
            /\ (forall k, 0 <= vote_count votes k)
            /\ inject_Z (Z.of_nat (length (keys_of c))) = facet_full f).
  { destruct f.
    - exists Rating, (block_votes (Perfume.fragrantica p) "rating_votes"),
        calculate_rating_score. repeat split; try done.
      intros k. apply Hnn. cbn. set_solver.
    - exists Longevity, (block_votes (Perfume.fragrantica p) "longevity_votes"),
        calculate_longevity_score. repeat split; try done.
      intros k. apply Hnn. cbn. set_solver.
    - exists Sillage, (block_votes (Perfume.fragrantica p) "sillage_votes"),
        calculate_sillage_score. repeat split; try done.
      intros k. apply Hnn. cbn. set_solver.
    - exists Value, (block_votes (Perfume.fragrantica p) "value_votes"),
        calculate_value_score. repeat split; try done.
      intros k. apply Hnn. cbn. set_solver. }
  destruct Hspec as (c & votes & sf & Hsf & -> & Hv & <-).
  destruct (score_of_spec c sf votes Hsf) as (s & Hs & Hcases);
    [intros k _; apply Hv|].
  exists s. split; [done|].
  destruct Hcases as [[_ ->]|[_ Hb]]; [by left|by right].
Qed.

(** X18: sorting a list of perfumes whose vote blocks hold counts that
    are 0 or more returns and never loses, repeats or invents a perfume:
    for every sort configuration the result is a rearrangement of the list
    it was given in which no perfume has a smaller key than the one before
    it. On one of the four score dimensions this puts the scores in the
    chosen direction: with order "desc" no perfume is followed by one with
    a higher score, with any other order none is followed by one with a
    lower score. The score of a perfume is 0 when the block has no vote and
    at least 1 (and at most the top of the scale) otherwise, so a perfume
    without votes comes last in descending and first in ascending order. *)
Theorem sort_orders_by_key {L : PyFloatLaws F} (d : AppData)
    (ps : list Perfume.t) :
  (forall p, p ∈ ps -> well_formed p = true) ->
  (forall config, exists l,
      _sort_perfumes d ps config = Some l
      /\ l ≡ₚ ps
      /\ Sorted (fun p1 p2 =>
                   exists k1 k2, sort_key d config p1 = Some k1
                     /\ sort_key d config p2 = Some k2
                     /\ key_ltb k2 k1 = Some false) l)
  /\ (forall f order, exists l,
        _sort_perfumes d ps (sort_on (facet_dimension f) order) = Some l
        /\ l ≡ₚ ps
        /\ Sorted (fun p1 p2 =>
                     exists s1 s2, facet_score p1 f = Some s1
                       /\ facet_score p2 f = Some s2
                       /\ if String.eqb order "desc" then (s2 <= s1)%Q
                          else (s1 <= s2)%Q) l)
  /\ (forall p f, p ∈ ps ->
        exists s, facet_score p f = Some s
          /\ (s = 0%Q \/ (1 <= s <= facet_full f)%Q)).
Proof.
  intros Hwf.
  split; [intros config; apply sort_perfumes_spec|].
  split; [|intros p f Hp; apply facet_score_well_formed; by apply Hwf].
  intros f order.
  destruct (sort_perfumes_spec d ps (sort_on (facet_dimension f) order))
    as (l & Hl & Hperm & Hsorted).
  exists l. split; [done|]. split; [done|].
  eapply Sorted_weaken; [|exact Hsorted]. cbn.
  intros p1 p2 (k1 & k2 & Hk1 & Hk2 & Hlt).
  destruct (facet_score_total p1 f) as [s1 Hs1].
  destruct (facet_score_total p2 f) as [s2 Hs2].
  exists s1, s2. split; [done|]. split; [done|].
  unfold sort_key, sort_on in Hk1, Hk2. cbn in Hk1, Hk2.
  rewrite (facet_sort_value d p1 f order s1 Hs1) in Hk1.
  rewrite (facet_sort_value d p2 f order s2 Hs2) in Hk2.
  cbn in Hk1, Hk2. injection Hk1 as <-. injection Hk2 as <-.
  unfold by_score in Hlt. destruct (String.eqb order "desc").
  - apply score_key_order in Hlt. by apply Qopp_le_compat in Hlt;
      rewrite !Qopp_involutive in Hlt.
  - by apply score_key_order in Hlt.
Qed.

End SortMore.

Lemma sort_orders_by_key_witness :
  exists l,
    @_sort_perfumes exact_float no_data
      [rated_perfume "a" [("hate", 3)]; plain_perfume "b" "" [];
       rated_perfume "c" [("love", 1)]]
      (sort_on (facet_dimension OnRating) "desc") = Some l
    /\ l ≡ₚ [rated_perfume "a" [("hate", 3)]; plain_perfume "b" "" [];
             rated_perfume "c" [("love", 1)]]
    /\ Sorted (fun p1 p2 =>
                 exists s1 s2, @facet_score exact_float p1 OnRating = Some s1
                   /\ @facet_score exact_float p2 OnRating = Some s2
                   /\ (s2 <= s1)%Q) l.
Proof.
  assert (Hwf : forall p,
            p ∈ [rated_perfume "a" [("hate", 3)]; plain_perfume "b" "" [];
                 rated_perfume "c" [("love", 1)]] ->
            well_formed p = true).
  { intros p Hp.
    repeat (apply elem_of_cons in Hp as [->|Hp]; [vm_compute; reflexivity|]).
    by apply elem_of_nil in Hp. }
  exact (proj1 (proj2 (@sort_orders_by_key exact_float exact_float_laws no_data
                         _ Hwf)) OnRating "desc").
Defined.

(** On that list the descending sort on the rating puts the perfume
    without votes last. *)
Lemma sort_rating_desc_example :
  Perfume.id <$>
    default []
      (@_sort_perfumes exact_float no_data
         [rated_perfume "a" [("hate", 3)]; plain_perfume "b" "" [];
          rated_perfume "c" [("love", 1)]]
         (sort_on "rating" "desc"))
  = ["c"; "a"; "b"].
Proof. vm_compute. reflexivity. Qed.

(** ** The rows of the main list *)

Section MainListFacts.
Context {F : PyFloat}.

Lemma shown_total (d : AppData) (q : string) (config : FilterConfig)
    (p : Perfume.t) :
  exists b, shown d q config p = Some b
    /\ (b = true <->
        _matches_filter d p config = Some true
        /\ (q <> "" -> PyStr.contains q (search_blob d p) = true)).
Proof.
  unfold shown. destruct (matches_filter_total d p config) as [[|] ->].
  - destruct (String.eqb_spec q "") as [->|Hq]; cbn.
    + exists true. split; [done|]. split; [done|]. intros _. by split.
    + eexists. split; [done|]. split.
      * intros ->. by split.
      * intros [_ H]. by apply H.
  - exists false. split; [done|]. split; [done|]. by intros [[=] _].
Qed.

Lemma filtered_spec (d : AppData) (q : string) (config : FilterConfig)
    (ps : list Perfume.t) :
  exists l,
    filtered d q config ps = Some l
    /\ sublist l ps
    /\ forall p, p ∈ l <->
         p ∈ ps /\ _matches_filter d p config = Some true
         /\ (q <> "" -> PyStr.contains q (search_blob d p) = true).
Proof.
  induction ps as [|p ps IH]; cbn.
  - exists []. split; [done|]. split; [done|]. intros p. split.
    + intros H. by apply elem_of_nil in H.
    + intros [H _]. by apply elem_of_nil in H.
  - destruct (shown_total d q config p) as (b & -> & Hb).
    destruct IH as (l & -> & Hsub & Hl).
    eexists. split; [done|]. destruct b.
    + split; [by constructor|]. intros x. rewrite !elem_of_cons, Hl. split.
      * intros [->|(? & ? & ?)]; [|by auto].
        destruct (proj1 Hb eq_refl). by auto.
      * intros ([->|?] & ? & ?); [by left|by right].
    + split; [by constructor|]. intros x. rewrite elem_of_cons, Hl. split.
      * intros (? & ? & ?). by auto.
      * intros ([->|?] & Hm & Hq); [|done].
        assert (false = true) by (by apply Hb). done.
Qed.

Lemma rows_inserted_kept (ps kept l : list Perfume.t) :
  NoDup (Perfume.id <$> ps) -> "" ∉ Perfume.id <$> ps ->
  sublist kept ps -> l ≡ₚ kept ->
  rows_inserted (Perfume.id <$> l) = true /\ NoDup (Perfume.id <$> l).
Proof.
  intros Hnd Hne Hsub Hperm.
  assert (Hsub' : sublist (Perfume.id <$> kept) (Perfume.id <$> ps))
    by (by apply fmap_sublist).
  assert (Hnd' : NoDup (Perfume.id <$> l)).
  { rewrite Hperm. by apply (sublist_NoDup _ _ Hnd). }
  split; [|done]. unfold rows_inserted.
  apply andb_true_iff. split; [by apply bool_decide_eq_true|].
  apply negb_true_iff, mem_false. intros Hin. apply Hne.
  rewrite Hperm in Hin. by apply (elem_of_sublist _ _ _ Hin).
Qed.

(** X19: when the stored perfumes carry ids that are distinct and not
    empty and vote blocks whose counts are 0 or more, filtering, sorting and
    inserting the rows of the main list go through, and the rows are exactly
    the perfumes that pass the filter and, when the search box is not blank,
    contain the trimmed, lower-cased query in their lower-cased brand, name,
    tags and notes: the row ids are the ids of a rearrangement of those
    perfumes, each perfume is one row, whatever the sort configuration, and
    without a sort dimension the rows keep the stored order. *)
Theorem refresh_list_shows_matches (d : AppData) (search : string)
    (filter_config : FilterConfig) (sort_config : SortConfig) :
  (forall p, p ∈ perfumes d -> well_formed p = true) ->
  NoDup (Perfume.id <$> perfumes d) ->
  "" ∉ Perfume.id <$> perfumes d ->
  let q := PyStr.lower (PyStr.strip search) in
  exists l kept,
    _refresh_list d search filter_config sort_config = Some (Perfume.id <$> l)
    /\ l ≡ₚ kept
    /\ sublist kept (perfumes d)
    /\ (forall p, p ∈ l <->
          p ∈ perfumes d /\ _matches_filter d p filter_config = Some true
          /\ (q <> "" -> PyStr.contains q (search_blob d p) = true))
    /\ NoDup (Perfume.id <$> l)
    /\ (dimensions sort_config = [] -> l = kept).
Proof.
  intros Hwf Hnd Hne. cbn zeta. unfold _refresh_list.
  destruct (filtered_spec d (PyStr.lower (PyStr.strip search)) filter_config
              (perfumes d)) as (kept & -> & Hsub & Hkept).
  destruct (sort_perfumes_spec d kept sort_config)
    as (l & Hsort & Hperm & _).
  rewrite Hsort. cbn zeta.
  destruct (rows_inserted_kept (perfumes d) kept l Hnd Hne Hsub Hperm)
    as [-> Hrows].
  exists l, kept. split; [done|]. split; [done|].
  split; [done|]. split; [|split; [done|]].
  - intros p. rewrite Hperm. apply Hkept.
  - intros Hdims. unfold _sort_perfumes in Hsort. rewrite Hdims in Hsort.
    congruence.
Qed.

Lemma count_matches_spec (d : AppData) (ps : list Perfume.t)
    (config : FilterConfig) :
  (forall p, p ∈ ps ->
     FilterDialog._matches_filter (Some d) p config = _matches_filter d p config) ->
  exists l,
    filtered d "" config ps = Some l
    /\ FilterDialog._count_matches (Some d) ps config = Some (Z.of_nat (length l)).
Proof.
  induction ps as [|p ps IH]; intros Hagree; cbn.
  - by exists [].
  - rewrite (Hagree p) by (by left).
    destruct IH as (l & -> & ->); [intros x Hx; apply Hagree; by right|].
    unfold shown. destruct (matches_filter_total d p config) as [[|] ->]; cbn.
    + eexists. split; [done|]. f_equal. cbn [length]. lia.
    + eexists. split; [done|]. done.
Qed.

(** X20: when the stored perfumes carry ids that are distinct and not
    empty and vote blocks whose counts are 0 or more, and every perfume has
    votes for each score range that is set (or a score outside the range),
    the "Result" count of the filter dialog is the number of rows the main
    list shows for the same filter with a blank search, whatever the sort
    configuration. *)
Theorem preview_count_is_row_count (d : AppData) (config : FilterConfig)
    (sort_config : SortConfig) :
  (forall p, p ∈ perfumes d -> well_formed p = true) ->
  NoDup (Perfume.id <$> perfumes d) ->
  "" ∉ Perfume.id <$> perfumes d ->
  (forall p f s, p ∈ perfumes d -> facet_active config f = true ->
     facet_score p f = Some s ->
     (0 < s)%Q
     \/ ~ ((facet_min config f <= s)%Q /\ (s <= facet_max config f)%Q)) ->
  exists ids,
    _refresh_list d "" config sort_config = Some ids
    /\ FilterDialog._count_matches (Some d) (perfumes d) config
       = Some (Z.of_nat (length ids)).
Proof.
  intros Hwf Hnd Hne Hdata.
  destruct (count_matches_spec d (perfumes d) config) as (l & Hl & Hcount).
  { intros p Hp. apply preview_agrees. intros f s. by apply Hdata. }
  unfold _refresh_list. change (PyStr.lower (PyStr.strip "")) with "".
  rewrite Hl.
  destruct (filtered_spec d "" config (perfumes d)) as (l0 & Hl0 & Hsub & _).
  rewrite Hl in Hl0. injection Hl0 as <-.
  destruct (sort_perfumes_spec d l sort_config) as (l' & -> & Hperm & _).
  cbn zeta.
  destruct (rows_inserted_kept (perfumes d) l l' Hnd Hne Hsub Hperm)
    as [-> _].
  eexists. split; [done|]. rewrite Hcount. f_equal.
  by rewrite length_fmap, Hperm.
Qed.

End MainListFacts.

Lemma refresh_list_shows_matches_witness :
  exists l kept,
    @_refresh_list exact_float rated_shelf " A " default_filter
      (sort_on "rating" "desc") = Some (Perfume.id <$> l)
    /\ l ≡ₚ kept
    /\ sublist kept (perfumes rated_shelf)
    /\ (forall p, p ∈ l <->
          p ∈ perfumes rated_shelf
          /\ @_matches_filter exact_float rated_shelf p default_filter = Some true
          /\ ("a" <> "" -> PyStr.contains "a" (search_blob rated_shelf p) = true))
    /\ NoDup (Perfume.id <$> l)
    /\ (dimensions (sort_on "rating" "desc") = [] -> l = kept).
Proof.
  apply (@refresh_list_shows_matches exact_float rated_shelf " A "
           default_filter (sort_on "rating" "desc")).
  - intros p Hp. cbn in Hp.
    repeat (apply elem_of_cons in Hp as [->|Hp]; [vm_compute; reflexivity|]).
    by apply elem_of_nil in Hp.
  - apply (bool_decide_unpack _). vm_compute. exact I.
  - apply mem_false. vm_compute. reflexivity.
Defined.

(** The rows of that list for a search and for a rating range; the tree
    refuses a list in which an id is stored twice. *)
Lemma refresh_list_examples :
  @_refresh_list exact_float rated_shelf " A " default_filter
    (sort_on "rating" "desc") = Some ["ambre"; "tabac"]
  /\ @_refresh_list exact_float rated_shelf "" (only_range OnRating 3 5 false)
       (sort_on "name" "asc") = Some ["ambre"; "cuir"]
  /\ @_refresh_list exact_float
       (with_perfumes (perfumes rated_shelf ++ perfumes rated_shelf) rated_shelf)
       "" default_filter (sort_on "name" "asc") = None.
Proof. repeat split; vm_compute; reflexivity. Qed.

Lemma preview_count_is_row_count_witness :
  @_refresh_list exact_float rated_shelf "" (only_range OnRating 3 5 false)
    (sort_on "name" "asc") = Some ["ambre"; "cuir"]
  /\ @FilterDialog._count_matches exact_float (Some rated_shelf)
       (perfumes rated_shelf) (only_range OnRating 3 5 false) = Some 2.
Proof.
  destruct (@preview_count_is_row_count exact_float rated_shelf
              (only_range OnRating 3 5 false) (sort_on "name" "asc"))
    as (ids & Hids & Hcount).
  - intros p Hp. cbn in Hp.
    repeat (apply elem_of_cons in Hp as [->|Hp]; [vm_compute; reflexivity|]).
    by apply elem_of_nil in Hp.
  - apply (bool_decide_unpack _). vm_compute. exact I.
  - apply mem_false. vm_compute. reflexivity.
  - intros p f s Hp Hact Hs. destruct f; try discriminate Hact.
    left. cbn in Hp.
    repeat (apply elem_of_cons in Hp as [->|Hp];
            [vm_compute in Hs; injection Hs as <-; reflexivity|]).
    by apply elem_of_nil in Hp.
  - assert (E : @_refresh_list exact_float rated_shelf ""
                  (only_range OnRating 3 5 false) (sort_on "name" "asc")
                = Some ["ambre"; "cuir"]) by (vm_compute; reflexivity).
    rewrite E in Hids. injection Hids as <-. split; [exact E | exact Hcount].
Defined.
